(** * cc-express: the OpenAI <-> Claude translation layer

    A shallow embedding of the request flattener
    (converters/openai-to-claude.ts), the content extractor and response
    builders (converters/claude-to-openai.ts), the SSE writer
    (services/streaming.ts), the error classes and error handler
    (middleware/error-handler.ts) and the chat-completions route
    (routes/chat-completions.ts), followed by the properties proved of them.

    Conventions of the embedding:
    - a JavaScript string is a [string] (its UTF-8 bytes); a string is truthy
      when it is not empty;
    - a JavaScript number that counts something (tokens, indices, seconds) is
      a [Z];
    - an optional property [p?: T] is an [option T];
    - a function that may throw returns [Exn + T];
    - the two sources of nondeterminism, nanoid and Date.now, are oracles
      carried by the [World], and code that consults them lives in the
      state monad [M];
    - logger calls have no effect on any value computed and are left out. *)

From Stdlib Require Import String Ascii ZArith List Bool Lia.
From stdpp Require Import base option list gmap strings pretty.

Set Warnings "-register-all".
Open Scope Z_scope.

(* ===================================================================== *)
(** ** JavaScript primitives                                              *)
(* ===================================================================== *)

Module Js.

(** The one-character strings that a literal cannot hold conveniently. *)
Definition LF : string := String (ascii_of_nat 10) EmptyString.
Definition DQUOTE : string := String (ascii_of_nat 34) EmptyString.
Definition BACKSLASH : string := String (ascii_of_nat 92) EmptyString.

(** [if (s)] on a string: the empty string is the only falsy one. *)
Definition truthy (s : string) : bool :=
  match s with
  | EmptyString => false
  | String _ _ => true
  end.

(** [if (o)] on an optional string: undefined and the empty string are falsy. *)
Definition truthy_opt (o : option string) : bool :=
  match o with
  | Some s => truthy s
  | None => false
  end.

(** [a || b] where [a] is an optional string and [b] a string. *)
Definition or_else (a : option string) (b : string) : string :=
  match a with
  | Some s => if truthy s then s else b
  | None => b
  end.

(** [Array.prototype.join]. *)
Fixpoint join (sep : string) (parts : list string) : string :=
  match parts with
  | [] => EmptyString
  | [x] => x
  | x :: rest => x +:+ sep +:+ join sep rest
  end.

(** [String.prototype.includes]. *)
Fixpoint includes (needle hay : string) : bool :=
  String.prefix needle hay ||
  match hay with
  | EmptyString => false
  | String _ rest => includes needle rest
  end.

(** [c.toUpperCase()] on one ASCII character. *)
Definition toUpperCase_ascii (c : ascii) : ascii :=
  let n := nat_of_ascii c in
  if (97 <=? n)%nat && (n <=? 122)%nat then ascii_of_nat (n - 32) else c.

(** [s.charAt(0).toUpperCase() + s.slice(1)]. *)
Definition capitalize (s : string) : string :=
  match s with
  | EmptyString => EmptyString
  | String c rest => String (toUpperCase_ascii c) rest
  end.

(** JSON values.  Numbers are restricted to the integers. *)
Inductive json : Type :=
| JNull
| JBool (b : bool)
| JNum (n : Z)
| JStr (s : string)
| JArr (items : list json)
| JObj (fields : list (string * json)).

(** [o[k]] on a parsed object: the value of the property, if any. *)
Fixpoint get (k : string) (fields : list (string * json)) : option json :=
  match fields with
  | [] => None
  | (k', v) :: rest => if String.eqb k k' then Some v else get k rest
  end.

Definition hex_digit (n : nat) : ascii :=
  nth n (list_ascii_of_string "0123456789abcdef") "0"%char.

(** The escape JSON.stringify writes for one character of a string. *)
Definition escape_char (c : ascii) : string :=
  let n := nat_of_ascii c in
  if (n =? 34)%nat then BACKSLASH +:+ DQUOTE
  else if (n =? 92)%nat then BACKSLASH +:+ BACKSLASH
  else if (n =? 8)%nat then BACKSLASH +:+ "b"
  else if (n =? 9)%nat then BACKSLASH +:+ "t"
  else if (n =? 10)%nat then BACKSLASH +:+ "n"
  else if (n =? 12)%nat then BACKSLASH +:+ "f"
  else if (n =? 13)%nat then BACKSLASH +:+ "r"
  else if (n <? 32)%nat then
    BACKSLASH +:+ "u00" +:+
    String (hex_digit (n / 16)) (String (hex_digit (n mod 16)) EmptyString)
  else String c EmptyString.

Fixpoint escape (s : string) : string :=
  match s with
  | EmptyString => EmptyString
  | String c rest => escape_char c +:+ escape rest
  end.

Definition quote (s : string) : string := DQUOTE +:+ escape s +:+ DQUOTE.

(** [JSON.stringify] without indentation. *)
Fixpoint JSON_stringify (v : json) : string :=
  match v with
  | JNull => "null"
  | JBool true => "true"
  | JBool false => "false"
  | JNum n => pretty n
  | JStr s => quote s
  | JArr items => "[" +:+ join "," (map JSON_stringify items) +:+ "]"
  | JObj fields =>
      "{" +:+
      join "," (map (fun kv => quote (fst kv) +:+ ":" +:+ JSON_stringify (snd kv)) fields)
      +:+ "}"
  end.

(** The properties of an object literal: a property whose value is
    undefined is not serialized. *)
Definition props (fields : list (string * option json)) : json :=
  JObj (omap (fun kv => match snd kv with
                        | Some v => Some (fst kv, v)
                        | None => None
                        end) fields).

(** What a [throw] can carry, as far as the code tells the cases apart:
    an instance of APIError (ValidationError, AuthenticationError and
    ClaudeAgentError are its subclasses and only fix the arguments), a
    SyntaxError of the body parser, any other Error, and a value that is
    not an Error at all. *)
Inductive Exn : Type :=
| APIError (name : string) (statusCode : Z) (code : string) (message : string)
| BodySyntaxError (message : string)
| Error (message : string)
| Thrown (v : json).

End Js.
Import Js.

(* ===================================================================== *)
(** ** types/openai.ts                                                    *)
(* ===================================================================== *)

Module OpenAI.

Inductive PartType : Type := text_part | image_url_part.

Record ImageUrl : Type := mkImageUrl {
  url : string;
  detail : option string
}.

(** [OpenAIContentPart]. *)
Record OpenAIContentPart : Type := mkPart {
  part_type : PartType;
  part_text : option string;
  part_image_url : option ImageUrl
}.

Inductive Role : Type := system | user | assistant | tool.

Definition role_eqb (a b : Role) : bool :=
  match a, b with
  | system, system | user, user | assistant, assistant | tool, tool => true
  | _, _ => false
  end.

(** The string a role is on the wire. *)
Definition role_string (r : Role) : string :=
  match r with
  | system => "system"
  | user => "user"
  | assistant => "assistant"
  | tool => "tool"
  end.

(** [function: { name; arguments }] of a tool call. *)
Record FunctionCall : Type := mkFunctionCall {
  fn_name : string;
  fn_arguments : string
}.

(** [OpenAIToolCall]; its [type] is always the literal function. *)
Record OpenAIToolCall : Type := mkToolCall {
  tc_id : string;
  tc_function : FunctionCall
}.

(** [string | OpenAIContentPart[] | null]. *)
Inductive MessageContent : Type :=
| ContentNull
| ContentString (s : string)
| ContentParts (parts : list OpenAIContentPart).

(** [OpenAIMessage]. *)
Record OpenAIMessage : Type := mkMessage {
  role : Role;
  content : MessageContent;
  name : option string;
  tool_calls : option (list OpenAIToolCall);
  tool_call_id : option string
}.

(** [OpenAIChatRequest], with the properties the route reads.  [model] is
    declared a string; the route reads it with [||], so a body without it
    is served as well. *)
Record OpenAIChatRequest : Type := mkRequest {
  model : option string;
  messages : list OpenAIMessage;
  stream : option bool
}.

(** [OpenAIUsage]. *)
Record OpenAIUsage : Type := mkUsage {
  prompt_tokens : Z;
  completion_tokens : Z;
  total_tokens : Z
}.

Inductive FinishReason : Type := stop | length_limit | tool_calls_reason | content_filter.

Definition finish_reason_string (f : FinishReason) : string :=
  match f with
  | stop => "stop"
  | length_limit => "length"
  | tool_calls_reason => "tool_calls"
  | content_filter => "content_filter"
  end.

(** [OpenAIResponseMessage]; its [role] is always assistant. *)
Record OpenAIResponseMessage : Type := mkResponseMessage {
  rm_content : option string;
  rm_tool_calls : option (list OpenAIToolCall)
}.

Record OpenAIChoice : Type := mkChoice {
  choice_index : Z;
  choice_message : OpenAIResponseMessage;
  choice_finish_reason : option FinishReason
}.

(** [OpenAIChatCompletion]; its [object] is always chat.completion. *)
Record OpenAIChatCompletion : Type := mkCompletion {
  cc_id : string;
  cc_created : Z;
  cc_model : string;
  cc_choices : list OpenAIChoice;
  cc_usage : OpenAIUsage
}.

(** [function?: { name?; arguments? }] of a tool-call delta. *)
Record FunctionDelta : Type := mkFunctionDelta {
  fd_name : option string;
  fd_arguments : option string
}.

(** [OpenAIToolCallDelta]; [tcd_typed] says whether [type: function] is set. *)
Record OpenAIToolCallDelta : Type := mkToolCallDelta {
  tcd_index : Z;
  tcd_id : option string;
  tcd_typed : bool;
  tcd_function : option FunctionDelta
}.

(** [OpenAIDelta]; [delta_role] says whether [role: assistant] is set. *)
Record OpenAIDelta : Type := mkDelta {
  delta_role : bool;
  delta_content : option (option string);
  delta_tool_calls : option (list OpenAIToolCallDelta)
}.

Record OpenAIChunkChoice : Type := mkChunkChoice {
  ck_index : Z;
  ck_delta : OpenAIDelta;
  ck_finish_reason : option FinishReason
}.

(** [OpenAIChatCompletionChunk]; its [object] is always chat.completion.chunk. *)
Record OpenAIChatCompletionChunk : Type := mkChunk {
  chunk_id : string;
  chunk_created : Z;
  chunk_model : string;
  chunk_choices : list OpenAIChunkChoice
}.

End OpenAI.
Import OpenAI.

(* ===================================================================== *)
(** ** middleware/error-handler.ts                                        *)
(* ===================================================================== *)

Module ErrorHandler.

(** [new ValidationError(message)]. *)
Definition ValidationError (message : string) : Exn :=
  APIError "ValidationError" 400 "invalid_request_error" message.

(** [new ClaudeAgentError(message)]. *)
Definition ClaudeAgentError (message : string) : Exn :=
  APIError "ClaudeAgentError" 500 "internal_error" message.

(** The body [{error: {message, type, param: null, code}}] of an error reply. *)
Record ErrorBody : Type := mkErrorBody {
  err_message : string;
  err_type : string;
  err_code : string
}.

(** [errorHandler]: the status and body it answers with. *)
Definition errorHandler (err : Exn) : Z * ErrorBody :=
  match err with
  | APIError _ statusCode code message => (statusCode, mkErrorBody message code code)
  | BodySyntaxError _ =>
      (400, mkErrorBody "Invalid JSON in request body" "invalid_request_error" "invalid_json")
  | _ => (500, mkErrorBody "An internal error occurred" "internal_error" "internal_error")
  end.

End ErrorHandler.
Import ErrorHandler.

(* ===================================================================== *)
(** ** converters/openai-to-claude.ts                                     *)
(* ===================================================================== *)

Module OpenAIToClaude.

Record ClaudePrompt : Type := mkPrompt {
  prompt : string;
  systemPrompt : option string
}.

(** [getTextContent]: null gives the empty string, a string itself, and an
    array the texts of its text parts joined by a newline. *)
Definition getTextContent (c : MessageContent) : string :=
  match c with
  | ContentNull => EmptyString
  | ContentString s => s
  | ContentParts parts =>
      join LF
        (omap (fun part =>
                 match part_type part, part_text part with
                 | text_part, Some t => Some t
                 | _, _ => None
                 end) parts)
  end.

(** [getRoleLabel]. *)
Definition getRoleLabel (r : Role) : string :=
  match r with
  | user => "User"
  | assistant => "Assistant"
  | tool => "Tool"
  | _ => capitalize (role_string r)
  end.

(** [formatMessage]. *)
Definition formatMessage (message : OpenAIMessage) : string :=
  let roleLabel := getRoleLabel (role message) in
  let content := getTextContent (content message) in
  let content :=
    match tool_calls message with
    | Some (tc :: tcs) =>
        let toolCallsStr :=
          join LF
            (map (fun tc =>
                    "[Tool Call: " +:+ fn_name (tc_function tc) +:+ "(" +:+
                    fn_arguments (tc_function tc) +:+ ")]") (tc :: tcs)) in
        if truthy content then content +:+ LF +:+ toolCallsStr else toolCallsStr
    | _ => content
    end in
  if role_eqb (role message) tool && truthy_opt (tool_call_id message) then
    "Tool Result (" +:+ default EmptyString (tool_call_id message) +:+ "): " +:+ content
  else
    roleLabel +:+ ": " +:+ content.

(** The loop of [findLastIndex]: the indices [n-1], ..., [0] are tried in
    this order. *)
Fixpoint findLastIndex_loop {T} (arr : list T) (predicate : T -> bool) (n : nat) : Z :=
  match n with
  | O => -1
  | S i =>
      match arr !! i with
      | Some x => if predicate x then Z.of_nat i else findLastIndex_loop arr predicate i
      | None => findLastIndex_loop arr predicate i
      end
  end.

Definition findLastIndex {T} (arr : list T) (predicate : T -> bool) : Z :=
  findLastIndex_loop arr predicate (List.length arr).

(** [formatConversation]. *)
Definition formatConversation (messages : list OpenAIMessage) : string :=
  match messages with
  | [] => EmptyString
  | [m] => getTextContent (content m)
  | _ =>
      let lastUserIndex := findLastIndex messages (fun m => role_eqb (role m) user) in
      if lastUserIndex =? -1 then
        join (LF +:+ LF) (map formatMessage messages)
      else
        let history := take (Z.to_nat lastUserIndex) messages in
        let currentRequest := messages !! Z.to_nat lastUserIndex in
        let afterCurrent := drop (Z.to_nat (lastUserIndex + 1)) messages in
        let parts : list string := [] in
        let parts :=
          match history with
          | [] => parts
          | _ => (parts ++ ["Previous conversation:";
                            join (LF +:+ LF) (map formatMessage history);
                            EmptyString])%list
          end in
        let parts :=
          match afterCurrent with
          | [] => parts
          | _ => (parts ++ [join (LF +:+ LF) (map formatMessage afterCurrent);
                            EmptyString])%list
          end in
        let parts := (parts ++ ["Current request:"])%list in
        let parts :=
          (parts ++ [match currentRequest with
                     | Some m => getTextContent (content m)
                     | None => EmptyString (* not reached: the index is in range *)
                     end])%list in
        join LF parts
  end.

(** The loop of [convertOpenAIToClaude] over the messages: system messages
    are folded into [systemPrompt], the others are kept in order. *)
Fixpoint split_system (messages : list OpenAIMessage)
    (systemPrompt : option string) (conversationMessages : list OpenAIMessage)
  : option string * list OpenAIMessage :=
  match messages with
  | [] => (systemPrompt, conversationMessages)
  | message :: rest =>
      if role_eqb (role message) system then
        let content := getTextContent (content message) in
        let systemPrompt :=
          if truthy_opt systemPrompt
          then default EmptyString systemPrompt +:+ LF +:+ LF +:+ content
          else content in
        split_system rest (Some systemPrompt) conversationMessages
      else
        split_system rest systemPrompt (conversationMessages ++ [message])%list
  end.

(** [convertOpenAIToClaude]. *)
Definition convertOpenAIToClaude (request : OpenAIChatRequest) : Exn + ClaudePrompt :=
  match messages request with
  | [] => inl (Error "Messages array is required and cannot be empty")
  | _ =>
      let '(systemPrompt, conversationMessages) :=
        split_system (messages request) None [] in
      match conversationMessages with
      | [m] =>
          if role_eqb (role m) user then
            inr (mkPrompt (getTextContent (content m)) systemPrompt)
          else
            inr (mkPrompt (formatConversation conversationMessages) systemPrompt)
      | _ => inr (mkPrompt (formatConversation conversationMessages) systemPrompt)
      end
  end.

End OpenAIToClaude.
Import OpenAIToClaude.

(* ===================================================================== *)
(** ** The world: nanoid and the clock                                    *)
(* ===================================================================== *)

Module Effects.

(** [entropy k] is the string the k-th call of nanoid(24) returns, and
    [clock k] the value of the k-th call of Date.now(), in milliseconds. *)
Record World : Type := mkWorld {
  entropy : nat -> string;
  drawn : nat;
  clock : nat -> Z;
  reads : nat
}.

Definition M (A : Type) : Type := World -> A * World.

Definition ret {A} (a : A) : M A := fun w => (a, w).

Definition bind {A B} (m : M A) (k : A -> M B) : M B :=
  fun w => let (a, w') := m w in k a w'.

Definition nanoid : M string :=
  fun w => (entropy w (drawn w), mkWorld (entropy w) (S (drawn w)) (clock w) (reads w)).

Definition Date_now : M Z :=
  fun w => (clock w (reads w), mkWorld (entropy w) (drawn w) (clock w) (S (reads w))).

End Effects.
Import Effects.

Declare Scope world_scope.
Delimit Scope world_scope with world.
Notation "x <- c ;; k" := (bind c (fun x => k))
  (at level 100, c at next level, right associativity) : world_scope.
Open Scope world_scope.

(* ===================================================================== *)
(** ** utils/id-generator.ts                                              *)
(* ===================================================================== *)

Module IdGenerator.

Definition generateCompletionId : M string :=
  r <- nanoid ;; ret ("chatcmpl-" +:+ r).

Definition generateToolCallId : M string :=
  r <- nanoid ;; ret ("call_" +:+ r).

End IdGenerator.
Import IdGenerator.

(* ===================================================================== *)
(** ** converters/claude-to-openai.ts                                     *)
(* ===================================================================== *)

Module ClaudeToOpenAI.

(** [ClaudeContentBlock]. *)
Record ClaudeContentBlock : Type := mkBlock {
  block_type : string;
  block_text : option string;
  block_name : option string;
  block_input : option (list (string * json));
  block_id : option string
}.

(** [message?: { role; content }] of a Claude message. *)
Record ClaudeInner : Type := mkInner {
  inner_role : string;
  inner_content : list ClaudeContentBlock
}.

(** [usage?: { input_tokens?; output_tokens? }]. *)
Record ClaudeUsage : Type := mkClaudeUsage {
  input_tokens : option Z;
  output_tokens : option Z
}.

(** [ClaudeMessage]; duration_ms and total_cost_usd are never read. *)
Record ClaudeMessage : Type := mkClaudeMessage {
  msg_type : string;
  msg_subtype : option string;
  msg_message : option ClaudeInner;
  msg_result : option string;
  msg_usage : option ClaudeUsage
}.

(** [ConvertedContent]. *)
Record ConvertedContent : Type := mkConverted {
  textContent : string;
  toolCalls : list OpenAIToolCall
}.

(** The loop of [extractContent] over the content blocks. *)
Fixpoint extract_blocks (blocks : list ClaudeContentBlock)
    (textParts : list string) (toolCalls : list OpenAIToolCall)
  : M (list string * list OpenAIToolCall) :=
  match blocks with
  | [] => ret (textParts, toolCalls)
  | block :: rest =>
      if String.eqb (block_type block) "text" && truthy_opt (block_text block) then
        extract_blocks rest (textParts ++ [default EmptyString (block_text block)])%list toolCalls
      else if String.eqb (block_type block) "tool_use" && truthy_opt (block_name block) then
        id <- (if truthy_opt (block_id block)
               then ret (default EmptyString (block_id block))
               else generateToolCallId) ;;
        let toolCall :=
          mkToolCall id
            (mkFunctionCall (default EmptyString (block_name block))
               (JSON_stringify (JObj (default [] (block_input block))))) in
        extract_blocks rest textParts (toolCalls ++ [toolCall])%list
      else
        extract_blocks rest textParts toolCalls
  end.

(** [extractContent]. *)
Definition extractContent (message : ClaudeMessage) : M ConvertedContent :=
  match msg_message message with
  | None => ret (mkConverted EmptyString [])
  | Some inner =>
      r <- extract_blocks (inner_content inner) [] [] ;;
      let (textParts, toolCalls) := r in
      ret (mkConverted (join LF textParts) toolCalls)
  end.

(** [extractUsage]. *)
Definition extractUsage (message : ClaudeMessage) : OpenAIUsage :=
  let inputTokens := default 0 (msg_usage message ≫= input_tokens) in
  let outputTokens := default 0 (msg_usage message ≫= output_tokens) in
  mkUsage inputTokens outputTokens (inputTokens + outputTokens).

(** [Math.floor(Date.now() / 1000)]. *)
Definition now_seconds : M Z := t <- Date_now ;; ret (t / 1000).

(** [buildChatCompletion]. *)
Definition buildChatCompletion (id model : string) (content : option string)
    (toolCalls : list OpenAIToolCall) (usage : OpenAIUsage) : M OpenAIChatCompletion :=
  let message := mkResponseMessage content None in
  let message :=
    match toolCalls with
    | [] => message
    | _ => mkResponseMessage (rm_content message) (Some toolCalls)
    end in
  created <- now_seconds ;;
  ret (mkCompletion id created model
         [mkChoice 0 message
            (Some match toolCalls with [] => stop | _ => tool_calls_reason end)]
         usage).

(** [buildInitialChunk]. *)
Definition buildInitialChunk (id model : string) : M OpenAIChatCompletionChunk :=
  created <- now_seconds ;;
  ret (mkChunk id created model [mkChunkChoice 0 (mkDelta true None None) None]).

(** [buildContentChunk]. *)
Definition buildContentChunk (id model content : string) : M OpenAIChatCompletionChunk :=
  created <- now_seconds ;;
  ret (mkChunk id created model
         [mkChunkChoice 0 (mkDelta false (Some (Some content)) None) None]).

(** [buildToolCallChunk]. *)
Definition buildToolCallChunk (id model : string) (toolCalls : list OpenAIToolCall)
    (isInitial : bool) : M OpenAIChatCompletionChunk :=
  let delta :=
    mkDelta false None
      (Some (imap (fun index tc =>
                     if isInitial then
                       mkToolCallDelta (Z.of_nat index) (Some (tc_id tc)) true
                         (Some (mkFunctionDelta (Some (fn_name (tc_function tc)))
                                  (Some (fn_arguments (tc_function tc)))))
                     else
                       mkToolCallDelta (Z.of_nat index) None false
                         (Some (mkFunctionDelta None (Some (fn_arguments (tc_function tc))))))
               toolCalls)) in
  created <- now_seconds ;;
  ret (mkChunk id created model [mkChunkChoice 0 delta None]).

(** [buildFinalChunk]. *)
Definition buildFinalChunk (id model : string) (hasToolCalls : bool)
  : M OpenAIChatCompletionChunk :=
  created <- now_seconds ;;
  ret (mkChunk id created model
         [mkChunkChoice 0 (mkDelta false None None)
            (Some (if hasToolCalls then tool_calls_reason else stop))]).

End ClaudeToOpenAI.
Import ClaudeToOpenAI.

(* ===================================================================== *)
(** ** services/claude-agent.ts                                           *)
(* ===================================================================== *)

Module ClaudeAgent.

Record AgentOptions : Type := mkAgentOptions {
  opt_prompt : string;
  opt_systemPrompt : option string;
  opt_model : option string;
  opt_noToolExecution : option bool
}.

(** One consumption of the asynchronous generator [queryClaudeAgent]
    returns: the messages it yields, in order, and then either its normal
    end or what it throws. *)
Record AgentRun : Type := mkRun {
  yielded : list ClaudeMessage;
  failure : option Exn
}.

(** [isAssistantMessage]. *)
Definition isAssistantMessage (message : ClaudeMessage) : bool :=
  String.eqb (msg_type message) "assistant" &&
  match msg_message message with Some _ => true | None => false end.

(** [isResultMessage]. *)
Definition isResultMessage (message : ClaudeMessage) : bool :=
  String.eqb (msg_type message) "result".

(** [isSystemInitMessage]. *)
Definition isSystemInitMessage (message : ClaudeMessage) : bool :=
  String.eqb (msg_type message) "system" &&
  match msg_subtype message with Some s => String.eqb s "init" | None => false end.

End ClaudeAgent.
Import ClaudeAgent.

(* ===================================================================== *)
(** ** The JSON form of the values that cross the wire                    *)
(* ===================================================================== *)

Module Wire.

Definition opt_str (o : option string) : option json := JStr <$> o.

Definition finish_reason_json (f : option FinishReason) : json :=
  match f with
  | Some r => JStr (finish_reason_string r)
  | None => JNull
  end.

Definition tool_call_delta_json (d : OpenAIToolCallDelta) : json :=
  props [("index", Some (JNum (tcd_index d)));
         ("id", opt_str (tcd_id d));
         ("type", if tcd_typed d then Some (JStr "function") else None);
         ("function",
          (fun f => props [("name", opt_str (fd_name f));
                           ("arguments", opt_str (fd_arguments f))]) <$> tcd_function d)].

Definition delta_json (d : OpenAIDelta) : json :=
  props [("role", if delta_role d then Some (JStr "assistant") else None);
         ("content", (fun c => match c with Some s => JStr s | None => JNull end)
                     <$> delta_content d);
         ("tool_calls", (fun l => JArr (map tool_call_delta_json l)) <$> delta_tool_calls d)].

Definition chunk_choice_json (c : OpenAIChunkChoice) : json :=
  JObj [("index", JNum (ck_index c));
        ("delta", delta_json (ck_delta c));
        ("finish_reason", finish_reason_json (ck_finish_reason c))].

(** The object an [OpenAIChatCompletionChunk] is. *)
Definition chunk_json (c : OpenAIChatCompletionChunk) : json :=
  JObj [("id", JStr (chunk_id c));
        ("object", JStr "chat.completion.chunk");
        ("created", JNum (chunk_created c));
        ("model", JStr (chunk_model c));
        ("choices", JArr (map chunk_choice_json (chunk_choices c)))].

Definition tool_call_json (tc : OpenAIToolCall) : json :=
  JObj [("id", JStr (tc_id tc));
        ("type", JStr "function");
        ("function", JObj [("name", JStr (fn_name (tc_function tc)));
                           ("arguments", JStr (fn_arguments (tc_function tc)))])].

Definition part_json (p : OpenAIContentPart) : json :=
  props [("type", Some (JStr match part_type p with
                             | text_part => "text"
                             | image_url_part => "image_url"
                             end));
         ("text", opt_str (part_text p));
         ("image_url",
          (fun u => props [("url", Some (JStr (url u))); ("detail", opt_str (detail u))])
          <$> part_image_url p)].

Definition content_json (c : MessageContent) : json :=
  match c with
  | ContentNull => JNull
  | ContentString s => JStr s
  | ContentParts parts => JArr (map part_json parts)
  end.

(** The object a client sends for an [OpenAIMessage]. *)
Definition message_json (m : OpenAIMessage) : json :=
  props [("role", Some (JStr (role_string (role m))));
         ("content", Some (content_json (content m)));
         ("name", opt_str (name m));
         ("tool_calls", (fun l => JArr (map tool_call_json l)) <$> tool_calls m);
         ("tool_call_id", opt_str (tool_call_id m))].

(** The body a client sends for an [OpenAIChatRequest]. *)
Definition request_json (r : OpenAIChatRequest) : json :=
  props [("model", opt_str (model r));
         ("messages", Some (JArr (map message_json (messages r))));
         ("stream", JBool <$> stream r)].

End Wire.
Import Wire.

(* ===================================================================== *)
(** ** services/streaming.ts                                              *)
(* ===================================================================== *)

Module Streaming.

(** The part of an Express response the code acts on: the headers set,
    whether they were flushed, the strings written, whether it was ended. *)
Record Response : Type := mkResponse {
  headers : list (string * string);
  flushed : bool;
  written : list string;
  ended : bool
}.

Definition fresh_response : Response := mkResponse [] false [] false.

Definition setHeader (res : Response) (k v : string) : Response :=
  mkResponse (headers res ++ [(k, v)])%list (flushed res) (written res) (ended res).

Definition write (res : Response) (s : string) : Response :=
  mkResponse (headers res) (flushed res) (written res ++ [s])%list (ended res).

Definition end_response (res : Response) : Response :=
  mkResponse (headers res) (flushed res) (written res) true.

(** [setupSSE]. *)
Definition setupSSE (res : Response) : Response :=
  let res := setHeader res "Content-Type" "text/event-stream" in
  let res := setHeader res "Cache-Control" "no-cache" in
  let res := setHeader res "Connection" "keep-alive" in
  let res := setHeader res "X-Accel-Buffering" "no" in
  mkResponse (headers res) true (written res) (ended res).

(** [sendChunk]. *)
Definition sendChunk (res : Response) (chunk : OpenAIChatCompletionChunk) : Response :=
  write res ("data: " +:+ JSON_stringify (chunk_json chunk) +:+ LF +:+ LF).

(** [sendDone]. *)
Definition sendDone (res : Response) : Response :=
  write res ("data: [DONE]" +:+ LF +:+ LF).

(** [sendError]. *)
Definition sendError (res : Response) (message : string) : Response :=
  let errorChunk :=
    JObj [("error", JObj [("message", JStr message);
                          ("type", JStr "internal_error");
                          ("param", JNull);
                          ("code", JStr "stream_error")])] in
  write res ("data: " +:+ JSON_stringify errorChunk +:+ LF +:+ LF).

End Streaming.
Import Streaming.

(* ===================================================================== *)
(** ** routes/chat-completions.ts                                         *)
(* ===================================================================== *)

Module ChatCompletions.

(** The test of one element of messages in [validateRequest]: what it
    throws, if anything. *)
Definition validate_message (i : nat) (msg : json) : option Exn :=
  let index := pretty (Z.of_nat i) in
  let bad_role :=
    ValidationError ("messages[" +:+ index +:+
                     "].role must be one of: system, user, assistant, tool") in
  match msg with
  | JObj fields =>
      match get "role" fields with
      | Some (JStr r) =>
          if existsb (String.eqb r) ["system"; "user"; "assistant"; "tool"] then
            match get "content" fields with
            | Some JNull | Some (JStr _) | Some (JArr _) => None
            | _ => Some (ValidationError ("messages[" +:+ index +:+
                                          "].content must be a string, array, or null"))
            end
          else Some bad_role
      | _ => Some bad_role
      end
  | JArr _ => Some bad_role
  | _ => Some (ValidationError ("messages[" +:+ index +:+ "] must be an object"))
  end.

(** The loop of [validateRequest] over messages, from index [i]. *)
Fixpoint validate_messages (i : nat) (msgs : list json) : option Exn :=
  match msgs with
  | [] => None
  | msg :: rest =>
      match validate_message i msg with
      | Some e => Some e
      | None => validate_messages (S i) rest
      end
  end.

(** [validateRequest]: the body itself when it is well formed. *)
Definition validateRequest (body : json) : Exn + json :=
  match body with
  | JObj fields =>
      match get "messages" fields with
      | Some (JArr []) => inl (ValidationError "messages array cannot be empty")
      | Some (JArr msgs) =>
          match validate_messages 0 msgs with
          | Some e => inl e
          | None => inr body
          end
      | _ => inl (ValidationError "messages must be an array")
      end
  | JArr _ => inl (ValidationError "messages must be an array")
  | _ => inl (ValidationError "Request body must be an object")
  end.

Section Handlers.

(** The agent behind [queryClaudeAgent], and [config.noToolExecution]. *)
Variable queryClaudeAgent : AgentOptions -> AgentRun.
Variable noToolExecution : bool.

(** [error instanceof Error ? error.message : fallback]. *)
Definition error_message (error : Exn) (fallback : string) : string :=
  match error with
  | APIError _ _ _ message | BodySyntaxError message | Error message => message
  | Thrown _ => fallback
  end.

(** The variables the streaming loop updates. *)
Record StreamCursor : Type := mkCursor {
  cur_res : Response;
  hasToolCalls : bool;
  sentToolCallIds : gset string
}.

(** The body of the loop of [handleStreamingRequest]. *)
Definition stream_message (completionId responseModel : string)
    (st : StreamCursor) (message : ClaudeMessage) : M StreamCursor :=
  if isAssistantMessage message then
    c <- extractContent message ;;
    res <- (if truthy (textContent c)
            then chunk <- buildContentChunk completionId responseModel (textContent c) ;;
                 ret (sendChunk (cur_res st) chunk)
            else ret (cur_res st)) ;;
    match toolCalls c with
    | [] => ret (mkCursor res (hasToolCalls st) (sentToolCallIds st))
    | _ =>
        let newToolCalls :=
          List.filter (fun tc => negb (bool_decide (tc_id tc ∈ sentToolCallIds st)))
            (toolCalls c) in
        match newToolCalls with
        | [] => ret (mkCursor res true (sentToolCallIds st))
        | _ =>
            chunk <- buildToolCallChunk completionId responseModel newToolCalls true ;;
            ret (mkCursor (sendChunk res chunk) true
                   (foldl (fun s tc => s ∪ {[tc_id tc]}) (sentToolCallIds st) newToolCalls))
        end
    end
  else ret st.

Fixpoint stream_messages (completionId responseModel : string)
    (st : StreamCursor) (msgs : list ClaudeMessage) : M StreamCursor :=
  match msgs with
  | [] => ret st
  | message :: rest =>
      st' <- stream_message completionId responseModel st message ;;
      stream_messages completionId responseModel st' rest
  end.

(** [handleStreamingRequest]: the response as it leaves the handler. *)
Definition handleStreamingRequest (res : Response) (claudePrompt : ClaudePrompt)
    (responseModel sdkModel : string) : M Response :=
  completionId <- generateCompletionId ;;
  let res := setupSSE res in
  chunk <- buildInitialChunk completionId responseModel ;;
  let res := sendChunk res chunk in
  let iterator :=
    queryClaudeAgent
      (mkAgentOptions (prompt claudePrompt) (systemPrompt claudePrompt)
         (Some sdkModel) (Some noToolExecution)) in
  st <- stream_messages completionId responseModel
          (mkCursor res false ∅) (yielded iterator) ;;
  res <- match failure iterator with
         | None =>
             chunk <- buildFinalChunk completionId responseModel (hasToolCalls st) ;;
             ret (sendDone (sendChunk (cur_res st) chunk))
         | Some error =>
             ret (sendDone (sendError (cur_res st) (error_message error "Stream error")))
         end ;;
  ret (end_response res).

(** The variables the non-streaming loop updates. *)
Record Collected : Type := mkCollected {
  collectedContent : list string;
  collectedToolCalls : list OpenAIToolCall;
  usage : OpenAIUsage;
  seenToolCallIds : gset string
}.

(** The deduplication loop over the tool calls of one message. *)
Fixpoint collect_tool_calls (tcs : list OpenAIToolCall)
    (collected : list OpenAIToolCall) (seen : gset string)
  : list OpenAIToolCall * gset string :=
  match tcs with
  | [] => (collected, seen)
  | tc :: rest =>
      if negb (bool_decide (tc_id tc ∈ seen))
      then collect_tool_calls rest (collected ++ [tc])%list (seen ∪ {[tc_id tc]})
      else collect_tool_calls rest collected seen
  end.

(** The body of the loop of [handleNonStreamingRequest]. *)
Definition collect_message (st : Collected) (message : ClaudeMessage) : M Collected :=
  st <- (if isAssistantMessage message then
           c <- extractContent message ;;
           let content :=
             if truthy (textContent c)
             then (collectedContent st ++ [textContent c])%list
             else collectedContent st in
           let (calls, seen) :=
             collect_tool_calls (toolCalls c) (collectedToolCalls st) (seenToolCallIds st) in
           ret (mkCollected content calls (usage st) seen)
         else ret st) ;;
  if isResultMessage message
  then ret (mkCollected (collectedContent st) (collectedToolCalls st)
              (extractUsage message) (seenToolCallIds st))
  else ret st.

Fixpoint collect_messages (st : Collected) (msgs : list ClaudeMessage) : M Collected :=
  match msgs with
  | [] => ret st
  | message :: rest =>
      st' <- collect_message st message ;;
      collect_messages st' rest
  end.

(** [handleNonStreamingRequest]: what it throws, or the completion it
    hands to res.json. *)
Definition handleNonStreamingRequest (claudePrompt : ClaudePrompt)
    (responseModel sdkModel : string) : M (Exn + OpenAIChatCompletion) :=
  completionId <- generateCompletionId ;;
  let iterator :=
    queryClaudeAgent
      (mkAgentOptions (prompt claudePrompt) (systemPrompt claudePrompt)
         (Some sdkModel) (Some noToolExecution)) in
  st <- collect_messages (mkCollected [] [] (mkUsage 0 0 0) ∅) (yielded iterator) ;;
  match failure iterator with
  | Some error => ret (inl error)
  | None =>
      let content :=
        match collectedContent st with
        | [] => None
        | _ => Some (join (LF +:+ LF) (collectedContent st))
        end in
      completion <- buildChatCompletion completionId responseModel content
                      (collectedToolCalls st) (usage st) ;;
      ret (inr completion)
  end.

End Handlers.

End ChatCompletions.
Import ChatCompletions.

(* ===================================================================== *)
(** ** Reference definitions                                              *)
(* ===================================================================== *)

(** The vocabulary in which the properties are stated: what the loops of
    the code compute, written as plain functions on lists. *)

Module Reference.

(** The non-system messages of a request, in order. *)
Definition conversation (msgs : list OpenAIMessage) : list OpenAIMessage :=
  List.filter (fun m => negb (role_eqb (role m) system)) msgs.

(** A block that contributes text: of kind text, with a non-empty text. *)
Definition contributes_text (b : ClaudeContentBlock) : bool :=
  String.eqb (block_type b) "text" && truthy_opt (block_text b).

(** A block that becomes a tool call: of kind tool_use, with a non-empty
    tool name. *)
Definition is_tool_call (b : ClaudeContentBlock) : bool :=
  String.eqb (block_type b) "tool_use" && truthy_opt (block_name b).

(** The texts contributed by the blocks, in block order. *)
Definition texts (blocks : list ClaudeContentBlock) : list string :=
  map (fun b => default EmptyString (block_text b)) (List.filter contributes_text blocks).

(** The tool call of each block of [blocks], in order: the id is the
    block's when it has a non-empty one, and otherwise synthesized from the
    next unused draw of nanoid, [k] being the number of draws made so far. *)
Fixpoint assign_ids (entropy : nat -> string) (k : nat)
    (blocks : list ClaudeContentBlock) : list OpenAIToolCall :=
  match blocks with
  | [] => []
  | b :: rest =>
      let fn :=
        mkFunctionCall (default EmptyString (block_name b))
          (JSON_stringify (JObj (default [] (block_input b)))) in
      if truthy_opt (block_id b)
      then mkToolCall (default EmptyString (block_id b)) fn :: assign_ids entropy k rest
      else mkToolCall ("call_" +:+ entropy k) fn :: assign_ids entropy (S k) rest
  end.

(** How many ids are synthesized for [blocks]. *)
Definition synthesized (blocks : list ClaudeContentBlock) : nat :=
  List.length
    (List.filter (fun b => is_tool_call b && negb (truthy_opt (block_id b))) blocks).

Definition message_blocks (m : ClaudeMessage) : list ClaudeContentBlock :=
  match msg_message m with
  | Some inner => inner_content inner
  | None => []
  end.

(** The content of one message, [k] draws of nanoid having been made. *)
Definition content_of (entropy : nat -> string) (k : nat) (m : ClaudeMessage)
  : ConvertedContent :=
  mkConverted (join LF (texts (message_blocks m)))
    (assign_ids entropy k (List.filter is_tool_call (message_blocks m))).

(** The contents of the assistant messages of a run, in order. *)
Fixpoint run_contents (entropy : nat -> string) (k : nat) (msgs : list ClaudeMessage)
  : list ConvertedContent :=
  match msgs with
  | [] => []
  | m :: rest =>
      if isAssistantMessage m
      then content_of entropy k m ::
           run_contents entropy (k + synthesized (message_blocks m)) rest
      else run_contents entropy k rest
  end.

(** All tool calls of a run, in order of arrival. *)
Definition run_tool_calls (entropy : nat -> string) (k : nat) (msgs : list ClaudeMessage)
  : list OpenAIToolCall :=
  concat (map toolCalls (run_contents entropy k msgs)).

(** The non-empty texts of a run, in order of arrival. *)
Definition run_texts (msgs : list ClaudeMessage) : list string :=
  List.filter truthy
    (map (fun m => join LF (texts (message_blocks m)))
       (List.filter isAssistantMessage msgs)).

Definition has_id (i : string) (tc : OpenAIToolCall) : bool := String.eqb (tc_id tc) i.

(** The tool calls of [tcs] whose id is neither in [earlier] nor borne by a
    tool call before them in [tcs]. *)
Fixpoint first_occurrences (earlier : list string) (tcs : list OpenAIToolCall)
  : list OpenAIToolCall :=
  match tcs with
  | [] => []
  | tc :: rest =>
      if bool_decide (tc_id tc ∈ earlier)
      then first_occurrences earlier rest
      else tc :: first_occurrences (tc_id tc :: earlier) rest
  end.

(** The usage of the last result message of a run; zero without one. *)
Definition last_usage (msgs : list ClaudeMessage) : OpenAIUsage :=
  match List.filter isResultMessage msgs with
  | [] => mkUsage 0 0 0
  | m :: rest => extractUsage (List.last rest m)
  end.

(** The tool calls of a completion: those of the message of its first
    choice, none when the property is absent. *)
Definition completion_tool_calls (c : OpenAIChatCompletion) : list OpenAIToolCall :=
  match cc_choices c with
  | choice :: _ => default [] (rm_tool_calls (choice_message choice))
  | [] => []
  end.

(** One server-sent event carrying a JSON value. *)
Definition data_frame (v : json) : string :=
  "data: " +:+ JSON_stringify v +:+ LF +:+ LF.

Definition chunk_frame (c : OpenAIChatCompletionChunk) : string :=
  data_frame (chunk_json c).

(** The error-shaped chunk: a message, and the fixed type and code. *)
Definition error_frame (message : string) : string :=
  data_frame (JObj [("error", JObj [("message", JStr message);
                                    ("type", JStr "internal_error");
                                    ("param", JNull);
                                    ("code", JStr "stream_error")])]).

Definition done_frame : string := "data: [DONE]" +:+ LF +:+ LF.

(** The chunks the streaming handler builds. *)
Definition role_chunk (id : string) (created : Z) (model : string)
  : OpenAIChatCompletionChunk :=
  mkChunk id created model [mkChunkChoice 0 (mkDelta true None None) None].

Definition content_chunk (id : string) (created : Z) (model content : string)
  : OpenAIChatCompletionChunk :=
  mkChunk id created model
    [mkChunkChoice 0 (mkDelta false (Some (Some content)) None) None].

(** The delta of a tool call sent in full: id, type, name and arguments. *)
Definition full_tool_call_delta (index : nat) (tc : OpenAIToolCall) : OpenAIToolCallDelta :=
  mkToolCallDelta (Z.of_nat index) (Some (tc_id tc)) true
    (Some (mkFunctionDelta (Some (fn_name (tc_function tc)))
             (Some (fn_arguments (tc_function tc))))).

Definition tool_calls_chunk (id : string) (created : Z) (model : string)
    (tcs : list OpenAIToolCall) : OpenAIChatCompletionChunk :=
  mkChunk id created model
    [mkChunkChoice 0 (mkDelta false None (Some (imap full_tool_call_delta tcs))) None].

Definition final_chunk (id : string) (created : Z) (model : string)
    (reason : FinishReason) : OpenAIChatCompletionChunk :=
  mkChunk id created model [mkChunkChoice 0 (mkDelta false None None) (Some reason)].

(** An assistant message with no text block and exactly one tool_use block,
    which carries a non-empty tool name. *)
Definition one_named_tool_use_no_text (m : ClaudeMessage) : bool :=
  isAssistantMessage m &&
  forallb (fun b => negb (String.eqb (block_type b) "text")) (message_blocks m) &&
  (List.length
     (List.filter (fun b => String.eqb (block_type b) "tool_use") (message_blocks m))
   =? 1)%nat &&
  forallb (fun b => implb (String.eqb (block_type b) "tool_use")
                      (truthy_opt (block_name b)))
    (message_blocks m).

(** The world after [d] more draws of nanoid and [r] more readings of the
    clock. *)
Definition advance (d r : nat) (w : World) : World :=
  mkWorld (entropy w) (drawn w + d) (clock w) (reads w + r).

(** The options the handlers call the agent with. *)
Definition agent_options (noToolExecution : bool) (claudePrompt : ClaudePrompt)
    (sdkModel : string) : AgentOptions :=
  mkAgentOptions (prompt claudePrompt) (systemPrompt claudePrompt)
    (Some sdkModel) (Some noToolExecution).

(** A world to run examples in: the k-th id is the decimal numeral of k,
    and the clock starts at 1700000000000 ms and advances a second a
    reading. *)
Definition example_world : World :=
  mkWorld (fun k => pretty (Z.of_nat k)) 0 (fun k => 1700000000000 + 1000 * Z.of_nat k) 0.

(** An assistant message of one tool_use block, with input city: Tokyo. *)
Definition tool_use_message (id name : option string) : ClaudeMessage :=
  mkClaudeMessage "assistant" None
    (Some (mkInner "assistant"
             [mkBlock "tool_use" None name (Some [("city", JStr "Tokyo")]) id]))
    None None.

(** An assistant message of one text block. *)
Definition text_message (t : string) : ClaudeMessage :=
  mkClaudeMessage "assistant" None
    (Some (mkInner "assistant" [mkBlock "text" (Some t) None None None])) None None.

(** A result message with both token counts. *)
Definition result_message (i o : Z) : ClaudeMessage :=
  mkClaudeMessage "result" (Some "success") None None
    (Some (mkClaudeUsage (Some i) (Some o))).

(** An agent that yields the same messages whatever it is asked. *)
Definition scripted_agent (msgs : list ClaudeMessage) (failure : option Exn)
  : AgentOptions -> AgentRun :=
  fun _ => mkRun msgs failure.

End Reference.
Import Reference.

(* ===================================================================== *)
(** ** middleware/auth.ts                                                 *)
(* ===================================================================== *)

Module Auth.

(** [s.split(sep)] for a separator of one character. *)
Fixpoint split_on (sep : ascii) (s : string) : list string :=
  match s with
  | EmptyString => [EmptyString]
  | String c rest =>
      if Ascii.eqb c sep then EmptyString :: split_on sep rest
      else match split_on sep rest with
           | x :: xs => String c x :: xs
           | [] => [String c EmptyString] (* not reached: a split is never empty *)
           end
  end.

(** [s.charCodeAt(i)] of a character. *)
Definition charCode (c : ascii) : Z := Z.of_nat (nat_of_ascii c).

(** The loop of [timingSafeEqual], run on strings of one length. *)
Fixpoint timingSafeEqual_loop (a b : string) (result : Z) : Z :=
  match a, b with
  | String x a', String y b' =>
      timingSafeEqual_loop a' b' (Z.lor result (Z.lxor (charCode x) (charCode y)))
  | _, _ => result
  end.

(** [timingSafeEqual]. *)
Definition timingSafeEqual (a b : string) : bool :=
  if negb (String.length a =? String.length b)%nat then false
  else timingSafeEqual_loop a b 0 =? 0.

(** What the middleware reads of a request. *)
Record AuthRequest : Type := mkAuthRequest {
  req_path : string;
  authorization : option string
}.

(** What the middleware does: call next, or answer itself. *)
Inductive AuthOutcome : Type :=
| Next
| Reply (status : Z) (body : ErrorBody).

(** [authMiddleware], [apiSecret] being config.apiSecret. *)
Definition authMiddleware (apiSecret : string) (req : AuthRequest) : AuthOutcome :=
  if String.eqb (req_path req) "/health" then Next
  else if negb (truthy_opt (authorization req)) then
    Reply 401 (mkErrorBody "Missing Authorization header"
                 "invalid_request_error" "missing_authorization")
  else
    let parts := split_on " "%char (default EmptyString (authorization req)) in
    match parts with
    | [scheme; token] =>
        if negb (String.eqb scheme "Bearer") then
          Reply 401 (mkErrorBody
                       "Invalid Authorization header format. Expected 'Bearer <token>'"
                       "invalid_request_error" "invalid_authorization_format")
        else if negb (timingSafeEqual token apiSecret) then
          Reply 401 (mkErrorBody "Invalid API key"
                       "invalid_request_error" "invalid_api_key")
        else Next
    | _ =>
        Reply 401 (mkErrorBody
                     "Invalid Authorization header format. Expected 'Bearer <token>'"
                     "invalid_request_error" "invalid_authorization_format")
    end.

End Auth.
Import Auth.

(* ===================================================================== *)
(** ** routes/models.ts, and the model names of the chat route            *)
(* ===================================================================== *)

Module Models.

(** The own properties of [MODEL_MAP], in the order of the literal. *)
Definition MODEL_MAP : list (string * string) :=
  [("claude-opus-4-5", "opus");
   ("claude-sonnet-4-5", "sonnet");
   ("claude-haiku-4-5", "haiku");
   ("opus", "opus");
   ("sonnet", "sonnet");
   ("haiku", "haiku");
   ("claude-opus", "opus");
   ("claude-sonnet", "sonnet");
   ("claude-haiku", "haiku")].

(** The names Object.prototype defines, which every object literal
    inherits: under each the value is a function or an object, not a
    string. *)
Definition object_prototype_names : list string :=
  ["constructor"; "hasOwnProperty"; "isPrototypeOf"; "propertyIsEnumerable";
   "toLocaleString"; "toString"; "valueOf"; "__proto__";
   "__defineGetter__"; "__defineSetter__"; "__lookupGetter__"; "__lookupSetter__"].

(** What [MODEL_MAP[name]] evaluates to. *)
Inductive Property : Type :=
| Own (value : string)
| Inherited
| Undefined.

Fixpoint own_property (k : string) (o : list (string * string)) : option string :=
  match o with
  | [] => None
  | (k', v) :: rest => if String.eqb k k' then Some v else own_property k rest
  end.

Definition MODEL_MAP_get (name : string) : Property :=
  match own_property name MODEL_MAP with
  | Some v => Own v
  | None => if existsb (String.eqb name) object_prototype_names then Inherited else Undefined
  end.

(** [body.model || "claude-sonnet-4-5"]. *)
Definition requestedModel (body_model : option string) : string :=
  or_else body_model "claude-sonnet-4-5".

(** The value of [sdkModel]: a string, or something else that is truthy. *)
Inductive SdkModel : Type :=
| SdkName (name : string)
| NotAString.

(** [MODEL_MAP[requestedModel] || "sonnet"]. *)
Definition sdkModel (requested : string) : SdkModel :=
  match MODEL_MAP_get requested with
  | Own v => if truthy v then SdkName v else SdkName "sonnet"
  | Inherited => NotAString
  | Undefined => SdkName "sonnet"
  end.

(** [OpenAIModel]; its [object] is always model. *)
Record OpenAIModel : Type := mkModel {
  model_id : string;
  model_created : Z;
  model_owned_by : string
}.

(** [MODELS.data], [created] being the second the module was loaded at. *)
Definition MODELS (created : Z) : list OpenAIModel :=
  [mkModel "claude-opus-4-5" created "anthropic";
   mkModel "claude-sonnet-4-5" created "anthropic";
   mkModel "claude-haiku-4-5" created "anthropic"].

(** The body of the 404 of the models route. *)
Record ModelError : Type := mkModelError {
  me_message : string;
  me_type : string;
  me_param : option string;
  me_code : string
}.

(** GET /models. *)
Definition listModels (created : Z) : list OpenAIModel := MODELS created.

(** GET /models/:id: the status and body of the error, or the model. *)
Definition getModel (created : Z) (id : string) : (Z * ModelError) + OpenAIModel :=
  match List.find (fun m => String.eqb (model_id m) id) (MODELS created) with
  | Some m => inr m
  | None =>
      inl (404, mkModelError ("Model '" +:+ id +:+ "' not found")
                  "invalid_request_error" (Some "model") "model_not_found")
  end.

End Models.
Import Models.

(* ===================================================================== *)
(** ** config.ts                                                          *)
(* ===================================================================== *)

Module Config.

Inductive PermissionMode : Type :=
| mode_default | mode_acceptEdits | mode_bypassPermissions | mode_plan.

Definition mode_string (m : PermissionMode) : string :=
  match m with
  | mode_default => "default"
  | mode_acceptEdits => "acceptEdits"
  | mode_bypassPermissions => "bypassPermissions"
  | mode_plan => "plan"
  end.

(** [Config]; a number read by parseInt is absent when it is NaN. *)
Record Config : Type := mkConfig {
  port : option Z;
  apiSecret : string;
  workingDir : string;
  allowedTools : list string;
  permissionMode : PermissionMode;
  maxTurns : option Z;
  noToolExecution : bool
}.

(** [getEnvOrThrow]. *)
Definition getEnvOrThrow (env : gmap string string) (key : string) : Exn + string :=
  if truthy_opt (env !! key)
  then inr (default EmptyString (env !! key))
  else inl (Error ("Missing required environment variable: " +:+ key)).

(** [getEnvOrDefault]. *)
Definition getEnvOrDefault (env : gmap string string) (key defaultValue : string) : string :=
  or_else (env !! key) defaultValue.

(** [parsePermissionMode]. *)
Definition parsePermissionMode (value : string) : Exn + PermissionMode :=
  if String.eqb value "default" then inr mode_default
  else if String.eqb value "acceptEdits" then inr mode_acceptEdits
  else if String.eqb value "bypassPermissions" then inr mode_bypassPermissions
  else if String.eqb value "plan" then inr mode_plan
  else inl (Error ("Invalid PERMISSION_MODE: " +:+ value +:+ ". Must be one of: " +:+
                   join ", " ["default"; "acceptEdits"; "bypassPermissions"; "plan"])).

Section LoadConfig.

(** The built-ins config.ts calls: [parseInt(s, 10)] (nothing for NaN),
    [s.trim()], [s.toLowerCase()] and [process.cwd()]. *)
Variable parseInt : string -> option Z.
Variable trim : string -> string.
Variable toLowerCase : string -> string.
Variable cwd : string.

(** [loadConfig], [env] being process.env.  The properties of the literal
    are evaluated in order, so the first failure is the one thrown. *)
Definition loadConfig (env : gmap string string) : Exn + Config :=
  let port := parseInt (getEnvOrDefault env "PORT" "28000") in
  match getEnvOrThrow env "API_SECRET" with
  | inl e => inl e
  | inr apiSecret =>
      let workingDir := getEnvOrDefault env "WORKING_DIR" cwd in
      let allowedTools :=
        List.filter (fun tool => (0 <? String.length tool)%nat)
          (map trim (split_on ","%char (getEnvOrDefault env "ALLOWED_TOOLS" "Read,Edit,Bash"))) in
      match parsePermissionMode (getEnvOrDefault env "PERMISSION_MODE" "acceptEdits") with
      | inl e => inl e
      | inr permissionMode =>
          let maxTurns := parseInt (getEnvOrDefault env "MAX_TURNS" "50") in
          let noToolExecution :=
            String.eqb (toLowerCase (getEnvOrDefault env "NO_TOOL_EXECUTION" "true")) "true" in
          inr (mkConfig port apiSecret workingDir allowedTools permissionMode
                 maxTurns noToolExecution)
      end
  end.

End LoadConfig.

End Config.
Import Config.

(* ===================================================================== *)
(** ** services/claude-agent.ts: the call of the SDK                      *)
(* ===================================================================== *)

Module AgentQuery.

(** [mapPermissionMode]. *)
Definition mapPermissionMode (mode : PermissionMode) : string :=
  match mode with
  | mode_acceptEdits => "acceptEdits"
  | mode_bypassPermissions => "bypassPermissions"
  | mode_plan => "plan"
  | _ => "default"
  end.

(** What a canUseTool callback answers. *)
Inductive PermissionResult : Type :=
| Allow
| Deny (message : string).

(** [queryOptions], the options handed to the SDK. *)
Record QueryOptions : Type := mkQueryOptions {
  qo_allowedTools : list string;
  qo_permissionMode : string;
  qo_maxTurns : option Z;
  qo_cwd : string;
  qo_systemPrompt : option string;
  qo_model : option string;
  qo_canUseTool : option (string -> json -> PermissionResult)
}.

(** The argument of the SDK's [query]. *)
Record SdkQuery : Type := mkSdkQuery {
  sdk_prompt : string;
  sdk_options : QueryOptions
}.

(** How queryClaudeAgent fills [queryOptions]. *)
Definition queryOptions (config : Config) (options : AgentOptions) : QueryOptions :=
  let noTools := default false (opt_noToolExecution options) in
  mkQueryOptions
    (allowedTools config)
    (mapPermissionMode (permissionMode config))
    (if noTools then Some 1 else maxTurns config)
    (workingDir config)
    (if truthy_opt (opt_systemPrompt options) then opt_systemPrompt options else None)
    (if truthy_opt (opt_model options) then opt_model options else None)
    (if noTools
     then Some (fun _ _ => Deny "Tool execution disabled - returning tool call to client")
     else None).

(** [queryClaudeAgent], [query] being the SDK: every message of the SDK
    is yielded in turn, and what the SDK throws is thrown again. *)
Definition queryClaudeAgent (config : Config) (query : SdkQuery -> AgentRun)
    (options : AgentOptions) : AgentRun :=
  let iterator := query (mkSdkQuery (opt_prompt options) (queryOptions config options)) in
  mkRun (yielded iterator) (failure iterator).

End AgentQuery.
Import AgentQuery.

(* ===================================================================== *)
(** ** converters: the names of the client tools                          *)
(* ===================================================================== *)

Module ClientTools.

(** [OpenAITool]; its [type] is always function. *)
Record OpenAITool : Type := mkTool {
  tool_name : string;
  tool_description : option string;
  tool_parameters : option (list (string * json))
}.

(** [getMcpToolNames]. *)
Definition getMcpToolNames (tools : list OpenAITool) : list string :=
  match tools with
  | [] => []
  | _ => map (fun t => "mcp__client-tools__" +:+ tool_name t) tools
  end.

End ClientTools.
Import ClientTools.

(* ===================================================================== *)
(** ** Further reference definitions                                      *)
(* ===================================================================== *)

Module Notions.

(** The texts of the system messages of a request, in order. *)
Definition system_texts (msgs : list OpenAIMessage) : list string :=
  map (fun m => getTextContent (content m))
    (List.filter (fun m => role_eqb (role m) system) msgs).

(** A list of texts without the empty texts it starts with. *)
Fixpoint drop_leading_empty (ts : list string) : list string :=
  match ts with
  | [] => []
  | t :: rest => if truthy t then ts else drop_leading_empty rest
  end.

(** A content without its parts that are not of type text. *)
Definition text_only (c : MessageContent) : MessageContent :=
  match c with
  | ContentParts parts =>
      ContentParts
        (List.filter (fun part => match part_type part with
                                  | text_part => true
                                  | image_url_part => false
                                  end) parts)
  | _ => c
  end.

Definition without_images (m : OpenAIMessage) : OpenAIMessage :=
  mkMessage (role m) (text_only (content m)) (name m) (tool_calls m) (tool_call_id m).

(** The history section of a prompt: its header, the messages in history
    form, and a blank line. *)
Definition history_section (history : list OpenAIMessage) : string :=
  match history with
  | [] => EmptyString
  | _ => "Previous conversation:" +:+ LF +:+
         join (LF +:+ LF) (map formatMessage history) +:+ LF +:+ LF
  end.

(** The section of the messages that came after the last user message:
    no header, the messages in history form, and a blank line. *)
Definition trailing_section (trailing : list OpenAIMessage) : string :=
  match trailing with
  | [] => EmptyString
  | _ => join (LF +:+ LF) (map formatMessage trailing) +:+ LF +:+ LF
  end.

(** A value that validateRequest accepts as an element of messages. *)
Definition message_ok (msg : json) : Prop :=
  exists fields r,
    msg = JObj fields /\
    get "role" fields = Some (JStr r) /\
    In r ["system"; "user"; "assistant"; "tool"] /\
    (get "content" fields = Some JNull \/
     (exists s, get "content" fields = Some (JStr s)) \/
     (exists items, get "content" fields = Some (JArr items))).

(** A value that validateRequest accepts as a body. *)
Definition body_ok (body : json) : Prop :=
  exists fields msgs,
    body = JObj fields /\
    get "messages" fields = Some (JArr msgs) /\
    msgs <> [] /\
    Forall message_ok msgs.

(** formatConversation on a conversation of two messages or more. *)
Definition format_turns (messages : list OpenAIMessage) : string :=
  let lastUserIndex := findLastIndex messages (fun m => role_eqb (role m) user) in
  if lastUserIndex =? -1 then
    join (LF +:+ LF) (map formatMessage messages)
  else
    let history := take (Z.to_nat lastUserIndex) messages in
    let currentRequest := messages !! Z.to_nat lastUserIndex in
    let afterCurrent := drop (Z.to_nat (lastUserIndex + 1)) messages in
    let parts : list string := [] in
    let parts :=
      match history with
      | [] => parts
      | _ => (parts ++ ["Previous conversation:";
                        join (LF +:+ LF) (map formatMessage history);
                        EmptyString])%list
      end in
    let parts :=
      match afterCurrent with
      | [] => parts
      | _ => (parts ++ [join (LF +:+ LF) (map formatMessage afterCurrent);
                        EmptyString])%list
      end in
    let parts := (parts ++ ["Current request:"])%list in
    let parts :=
      (parts ++ [match currentRequest with
                 | Some m => getTextContent (content m)
                 | None => EmptyString
                 end])%list in
    join LF parts.

(** Whether a character occurs in a string. *)
Fixpoint has_char (c : ascii) (s : string) : bool :=
  match s with
  | EmptyString => false
  | String x rest => Ascii.eqb x c || has_char c rest
  end.

(** The keys of MODEL_MAP that GET /models does not list. *)
Definition model_aliases : list string :=
  List.filter (fun k => negb (existsb (String.eqb k) (map model_id (MODELS 0))))
    (map fst MODEL_MAP).

(** One more system text added to the system prompt so far. *)
Definition add_system (sp : option string) (c : string) : option string :=
  Some (if truthy_opt sp then default EmptyString sp +:+ LF +:+ LF +:+ c else c).

(** The text in the delta of a chunk, when it has one. *)
Definition chunk_text (c : OpenAIChatCompletionChunk) : option string :=
  match chunk_choices c with
  | [choice] =>
      match delta_content (ck_delta choice) with
      | Some (Some text) => Some text
      | _ => None
      end
  | _ => None
  end.

(** The tool call a delta bears in full: id, name and arguments. *)
Definition delta_tool_call (d : OpenAIToolCallDelta) : option OpenAIToolCall :=
  match tcd_id d, tcd_function d with
  | Some id, Some f =>
      match fd_name f, fd_arguments f with
      | Some name, Some arguments => Some (mkToolCall id (mkFunctionCall name arguments))
      | _, _ => None
      end
  | _, _ => None
  end.

(** The tool calls in the delta of a chunk, when it has the property. *)
Definition chunk_tool_calls (c : OpenAIChatCompletionChunk)
  : option (list OpenAIToolCall) :=
  match chunk_choices c with
  | [choice] =>
      match delta_tool_calls (ck_delta choice) with
      | Some deltas => Some (omap delta_tool_call deltas)
      | None => None
      end
  | _ => None
  end.

(** The finish_reason of the choice of a chunk. *)
Definition chunk_finish_reason (c : OpenAIChatCompletionChunk) : option FinishReason :=
  match chunk_choices c with
  | [choice] => ck_finish_reason choice
  | _ => None
  end.

(** A chunk of the body of a stream: a content chunk with a non-empty text,
    or a tool-call chunk with at least one tool call, each numbered by its
    place in the chunk. *)
Definition body_chunk (id model : string) (c : OpenAIChatCompletionChunk) : Prop :=
  (exists created text,
      truthy text = true /\ c = content_chunk id created model text) \/
  (exists created tcs,
      tcs <> [] /\ c = tool_calls_chunk id created model tcs).

(** The tool calls of each content whose id is not in [earlier] nor in a
    content before it, content by content; a content with none is passed
    over. *)
Fixpoint fresh_batches (earlier : list string) (contents : list ConvertedContent)
  : list (list OpenAIToolCall) :=
  match contents with
  | [] => []
  | c :: rest =>
      let new :=
        List.filter (fun tc => negb (bool_decide (tc_id tc ∈ earlier))) (toolCalls c) in
      match new with
      | [] => fresh_batches earlier rest
      | _ => new :: fresh_batches (map tc_id new ++ earlier) rest
      end
  end.

(** The line feed, and one server-sent event with a payload. *)
Definition line_feed : ascii := ascii_of_nat 10.

Definition event (payload : string) : string := "data: " +:+ payload +:+ LF +:+ LF.

(** The finish_reason of a run with these tool calls. *)
Definition reason_of (calls : list OpenAIToolCall) : FinishReason :=
  match calls with [] => stop | _ => tool_calls_reason end.

End Notions.
Import Notions.

(* ===================================================================== *)
(** * Properties                                                          *)
(* ===================================================================== *)

(** ** Strings and joins *)

Lemma append_cons (c : ascii) (s t : string) : String c s +:+ t = String c (s +:+ t).
Proof. reflexivity. Qed.

Lemma append_nil_l (s : string) : EmptyString +:+ s = s.
Proof. reflexivity. Qed.

Lemma append_nil_r (s : string) : s +:+ EmptyString = s.
Proof.
  induction s as [|c s IH]; [reflexivity|].
  rewrite append_cons, IH. reflexivity.
Qed.

Lemma append_assoc (a b c : string) : (a +:+ b) +:+ c = a +:+ (b +:+ c).
Proof.
  induction a as [|x a IH]; [reflexivity|].
  rewrite !append_cons, IH. reflexivity.
Qed.

Lemma join_cons (sep x y : string) (rest : list string) :
  join sep (x :: y :: rest) = x +:+ sep +:+ join sep (y :: rest).
Proof. reflexivity. Qed.

(** A join whose last two parts are [a] and [b] ends with [a], the
    separator and [b]. *)
Lemma join_last_two (sep a b : string) (l : list string) :
  exists before, join sep (l ++ [a; b]) = before +:+ a +:+ sep +:+ b.
Proof.
  induction l as [|x l [before IH]].
  - exists EmptyString. reflexivity.
  - exists (x +:+ sep +:+ before).
    change ((x :: l) ++ [a; b])%list with (x :: (l ++ [a; b]))%list.
    destruct (l ++ [a; b])%list as [|y rest] eqn:E.
    + destruct l; discriminate.
    + rewrite join_cons, IH, !append_assoc. reflexivity.
Qed.

(** ** The flattener *)

Lemma role_eqb_eq (a b : Role) : role_eqb a b = true <-> a = b.
Proof. destruct a, b; simpl; split; congruence. Qed.

Lemma role_eqb_neq (a b : Role) : role_eqb a b = false <-> a <> b.
Proof. destruct a, b; simpl; split; congruence. Qed.

Lemma split_system_conversation (msgs : list OpenAIMessage) :
  forall sp conv,
    snd (split_system msgs sp conv) = (conv ++ conversation msgs)%list.
Proof.
  induction msgs as [|m msgs IH]; intros sp conv; simpl.
  - now rewrite app_nil_r.
  - destruct (role_eqb (role m) system); simpl.
    + apply IH.
    + rewrite IH, <- app_assoc. reflexivity.
Qed.

Lemma findLastIndex_loop_found {T} (p : T -> bool) (h : list T) (c : T) (a : list T) :
  p c = true ->
  forallb (fun x => negb (p x)) a = true ->
  forall n, (List.length h < n <= List.length (h ++ c :: a))%nat ->
    findLastIndex_loop (h ++ c :: a) p n = Z.of_nat (List.length h).
Proof.
  intros Hc Ha. induction n as [|i IH]; intros Hn; [lia|].
  simpl. destruct (decide (i = List.length h)) as [->|Hne].
  - rewrite list_lookup_middle by reflexivity. now rewrite Hc.
  - assert (Hi : (List.length h < i)%nat) by lia.
    rewrite length_app in Hn. simpl in Hn.
    destruct ((h ++ c :: a) !! i) as [x|] eqn:E.
    + rewrite lookup_app_r in E by lia.
      destruct (i - List.length h)%nat as [|j] eqn:Ej; [lia|]. simpl in E.
      apply list_elem_of_lookup_2, list_elem_of_In in E.
      rewrite forallb_forall in Ha. specialize (Ha x E).
      apply negb_true_iff in Ha. rewrite Ha.
      apply IH. rewrite length_app. simpl. lia.
    + apply IH. rewrite length_app. simpl. lia.
Qed.

Lemma findLastIndex_found {T} (p : T -> bool) (h : list T) (c : T) (a : list T) :
  p c = true ->
  forallb (fun x => negb (p x)) a = true ->
  findLastIndex (h ++ c :: a) p = Z.of_nat (List.length h).
Proof.
  intros Hc Ha. unfold findLastIndex.
  apply findLastIndex_loop_found; trivial.
  rewrite length_app. simpl. lia.
Qed.

Lemma findLastIndex_loop_none {T} (p : T -> bool) (l : list T) :
  forallb (fun x => negb (p x)) l = true ->
  forall n, findLastIndex_loop l p n = -1.
Proof.
  intros Hl. induction n as [|i IH]; simpl; [reflexivity|].
  destruct (l !! i) as [x|] eqn:E; [|exact IH].
  apply list_elem_of_lookup_2, list_elem_of_In in E.
  rewrite forallb_forall in Hl. specialize (Hl x E).
  apply negb_true_iff in Hl. now rewrite Hl.
Qed.

(** With a user message in it, a conversation of two messages or more is
    laid out so that it ends with the marker, a newline and the text of
    the last user message. *)
Lemma formatConversation_current_request (h : list OpenAIMessage) (c : OpenAIMessage)
    (a : list OpenAIMessage) :
  role c = user ->
  forallb (fun m => negb (role_eqb (role m) user)) a = true ->
  (h ++ a)%list <> [] ->
  exists before,
    formatConversation (h ++ c :: a) =
    before +:+ "Current request:" +:+ LF +:+ getTextContent (content c).
Proof.
  intros Hc Ha Hne.
  assert (Hidx : findLastIndex (h ++ c :: a) (fun m => role_eqb (role m) user)
                 = Z.of_nat (List.length h)).
  { apply findLastIndex_found; [now apply role_eqb_eq | exact Ha]. }
  destruct (h ++ c :: a)%list as [|m1 [|m2 rest]] eqn:E.
  - destruct h; discriminate.
  - destruct h as [|x h]; [|destruct h; discriminate].
    destruct a; [|discriminate]. now contradiction Hne.
  - unfold formatConversation. rewrite Hidx.
    replace (Z.of_nat (List.length h) =? -1) with false by (symmetry; apply Z.eqb_neq; lia).
    replace (Z.to_nat (Z.of_nat (List.length h) + 1)) with (S (List.length h)) by lia.
    rewrite Nat2Z.id, <- E.
    rewrite take_app_length, list_lookup_middle by reflexivity.
    replace (drop (S (List.length h)) (h ++ c :: a)) with a.
    2: { rewrite cons_middle, app_assoc. symmetry.
         apply drop_app_length'. rewrite length_app. simpl. lia. }
    rewrite <- app_assoc. simpl app at 1.
    apply join_last_two.
Qed.

(** Without a user message, a conversation of two messages or more is its
    messages in history form, joined by blank lines. *)
Lemma formatConversation_without_user (m1 m2 : OpenAIMessage) (rest : list OpenAIMessage) :
  forallb (fun m => negb (role_eqb (role m) user)) (m1 :: m2 :: rest) = true ->
  formatConversation (m1 :: m2 :: rest) =
  join (LF +:+ LF) (map formatMessage (m1 :: m2 :: rest)).
Proof.
  intros Hnone. unfold formatConversation, findLastIndex.
  now rewrite (findLastIndex_loop_none _ _ Hnone).
Qed.

Lemma convert_nonempty_conversation (request : OpenAIChatRequest) :
  conversation (messages request) <> [] ->
  convertOpenAIToClaude request =
  let systemPrompt := fst (split_system (messages request) None []) in
  match conversation (messages request) with
  | [m] =>
      if role_eqb (role m) user
      then inr (mkPrompt (getTextContent (content m)) systemPrompt)
      else inr (mkPrompt (formatConversation (conversation (messages request))) systemPrompt)
  | _ => inr (mkPrompt (formatConversation (conversation (messages request))) systemPrompt)
  end.
Proof.
  intros Hne. unfold convertOpenAIToClaude.
  destruct (messages request) as [|m0 ms] eqn:E; [now contradiction Hne|].
  pose proof (split_system_conversation (m0 :: ms) None []) as Hsnd.
  destruct (split_system (m0 :: ms) None []) as [sp conv]. simpl in Hsnd. subst conv.
  reflexivity.
Qed.

(** C4 (as amended).  For every message list whose non-system messages
    number more than one and include a user message, the flattened prompt
    ends with the marker [Current request:], a newline, and the extracted
    text of the last user-role message. *)
Theorem current_request_marker_precedes_last_user_text :
  forall (request : OpenAIChatRequest)
         (history : list OpenAIMessage) (current : OpenAIMessage)
         (trailing : list OpenAIMessage),
    conversation (messages request) = history ++ current :: trailing ->
    role current = user ->
    Forall (fun m => role m <> user) trailing ->
    (1 < List.length (conversation (messages request)))%nat ->
    exists before,
      convertOpenAIToClaude request =
      inr (mkPrompt
             (before +:+ "Current request:" +:+ LF +:+ getTextContent (content current))
             (fst (split_system (messages request) None []))).
Proof.
  intros request history current trailing Hconv Hcur Htrail Hlen.
  assert (Hne : history ++ trailing <> []).
  { rewrite Hconv, length_app in Hlen. simpl in Hlen.
    destruct history, trailing; simpl in *; try discriminate; lia. }
  assert (Hb : forallb (fun m => negb (role_eqb (role m) user)) trailing = true).
  { apply forallb_forall. intros m Hm.
    rewrite Forall_forall in Htrail. apply negb_true_iff, role_eqb_neq, Htrail.
    now apply list_elem_of_In. }
  destruct (formatConversation_current_request history current trailing Hcur Hb Hne)
    as [before Hfmt].
  exists before.
  rewrite convert_nonempty_conversation by (rewrite Hconv; now destruct history).
  cbv zeta. rewrite Hconv, <- Hfmt.
  destruct history as [|x history]; simpl.
  - destruct trailing; [now contradiction Hne | reflexivity].
  - destruct history; reflexivity.
Qed.

Lemma current_request_marker_witness :
  exists before,
    convertOpenAIToClaude
      (mkRequest None
         [mkMessage system (ContentString "Be brief.") None None None;
          mkMessage user (ContentString "Hi") None None None;
          mkMessage assistant (ContentString "Hello") None None None;
          mkMessage user (ContentString "What is 2+2?") None None None;
          mkMessage tool (ContentString "4") None None (Some "call_1")]
         None) =
    inr (mkPrompt (before +:+ "Current request:" +:+ LF +:+ "What is 2+2?")
           (Some "Be brief.")).
Proof.
  apply (current_request_marker_precedes_last_user_text
           (mkRequest None
              [mkMessage system (ContentString "Be brief.") None None None;
               mkMessage user (ContentString "Hi") None None None;
               mkMessage assistant (ContentString "Hello") None None None;
               mkMessage user (ContentString "What is 2+2?") None None None;
               mkMessage tool (ContentString "4") None None (Some "call_1")]
              None)
           [mkMessage user (ContentString "Hi") None None None;
            mkMessage assistant (ContentString "Hello") None None None]
           (mkMessage user (ContentString "What is 2+2?") None None None)
           [mkMessage tool (ContentString "4") None None (Some "call_1")]).
  - reflexivity.
  - reflexivity.
  - repeat constructor; discriminate.
  - simpl. lia.
Defined.

(** C4, as stated, fails: two assistant messages and no user message make a
    conversation of more than one message whose prompt has no marker. *)
Lemma no_user_message_no_current_request_marker :
  (1 < List.length
         (conversation
            [mkMessage assistant (ContentString "a") None None None;
             mkMessage assistant (ContentString "b") None None None]))%nat /\
  convertOpenAIToClaude
    (mkRequest None
       [mkMessage assistant (ContentString "a") None None None;
        mkMessage assistant (ContentString "b") None None None]
       None) =
  inr (mkPrompt ("Assistant: a" +:+ LF +:+ LF +:+ "Assistant: b") None) /\
  includes "Current request:" ("Assistant: a" +:+ LF +:+ LF +:+ "Assistant: b") = false.
Proof. split; [simpl; lia | split; reflexivity]. Qed.

(** C5 (as amended).  For every message list whose non-system messages are
    exactly one message, of whatever role, the prompt is the extracted text
    of that message verbatim: no role label is put before it and its tool
    calls are not rendered. *)
Theorem single_conversation_message_is_used_verbatim :
  forall (request : OpenAIChatRequest) (m : OpenAIMessage),
    conversation (messages request) = [m] ->
    convertOpenAIToClaude request =
    inr (mkPrompt (getTextContent (content m))
           (fst (split_system (messages request) None []))).
Proof.
  intros request m Hconv.
  rewrite convert_nonempty_conversation by (now rewrite Hconv).
  cbv zeta. rewrite Hconv. simpl.
  now destruct (role_eqb (role m) user).
Qed.

Lemma single_conversation_message_witness :
  convertOpenAIToClaude
    (mkRequest None
       [mkMessage system (ContentString "Be brief.") None None None;
        mkMessage assistant (ContentString "Hello") None
          (Some [mkToolCall "call_1" (mkFunctionCall "get_weather" "{}")]) None]
       None) =
  inr (mkPrompt "Hello" (Some "Be brief.")).
Proof.
  apply (single_conversation_message_is_used_verbatim
           (mkRequest None
              [mkMessage system (ContentString "Be brief.") None None None;
               mkMessage assistant (ContentString "Hello") None
                 (Some [mkToolCall "call_1" (mkFunctionCall "get_weather" "{}")]) None]
              None)
           (mkMessage assistant (ContentString "Hello") None
              (Some [mkToolCall "call_1" (mkFunctionCall "get_weather" "{}")]) None)).
  reflexivity.
Defined.

(** C5, as stated, fails: a lone assistant message is flattened to its raw
    text, not to its history form. *)
Lemma single_assistant_message_is_not_labelled :
  conversation [mkMessage assistant (ContentString "hi") None None None] =
  [mkMessage assistant (ContentString "hi") None None None] /\
  convertOpenAIToClaude
    (mkRequest None [mkMessage assistant (ContentString "hi") None None None] None) =
  inr (mkPrompt "hi" None) /\
  formatMessage (mkMessage assistant (ContentString "hi") None None None) = "Assistant: hi" /\
  "hi" <> "Assistant: hi".
Proof. repeat split; discriminate. Qed.

(** C6 (as amended).  For the empty message list, flatten fails with a plain
    Error (message: Messages array is required and cannot be empty), which
    the error handler answers as a 500 internal_error; the 400
    invalid_request_error for an empty list is thrown by validateRequest,
    which runs before flatten. *)
Theorem empty_messages_rejected_with_plain_error :
  forall (mdl : option string) (strm : option bool),
    convertOpenAIToClaude (mkRequest mdl [] strm) =
    inl (Error "Messages array is required and cannot be empty") /\
    errorHandler (Error "Messages array is required and cannot be empty") =
    (500, mkErrorBody "An internal error occurred" "internal_error" "internal_error") /\
    validateRequest (request_json (mkRequest mdl [] strm)) =
    inl (ValidationError "messages array cannot be empty") /\
    errorHandler (ValidationError "messages array cannot be empty") =
    (400, mkErrorBody "messages array cannot be empty"
            "invalid_request_error" "invalid_request_error").
Proof.
  intros mdl strm. repeat split.
  destruct mdl, strm; reflexivity.
Qed.

(** C6, as stated, fails: what flatten throws for the empty list is not a
    ValidationError, and the error handler maps it to status 500. *)
Lemma empty_messages_error_is_not_invalid_request :
  convertOpenAIToClaude (mkRequest None [] None) =
  inl (Error "Messages array is required and cannot be empty") /\
  Error "Messages array is required and cannot be empty" <>
  ValidationError "Messages array is required and cannot be empty" /\
  fst (errorHandler (Error "Messages array is required and cannot be empty")) = 500 /\
  err_type (snd (errorHandler (Error "Messages array is required and cannot be empty"))) =
  "internal_error".
Proof. repeat split; discriminate. Qed.

(** C10.  Request validation accepts a message whose content is null, at
    any index and for any role, and for a message list of exactly one user
    message with null content flatten succeeds with the empty string as
    prompt and no system prompt: the body passes validateRequest unchanged
    and convertOpenAIToClaude returns the empty prompt. *)
Theorem null_content_user_message_gives_empty_prompt :
  forall (mdl : option string) (strm : option bool) (nm : option string)
         (tcs : option (list OpenAIToolCall)) (tcid : option string),
    (forall (i : nat) (r : Role),
        validate_message i (message_json (mkMessage r ContentNull nm tcs tcid)) = None) /\
    validateRequest
      (request_json (mkRequest mdl [mkMessage user ContentNull nm tcs tcid] strm)) =
    inr (request_json (mkRequest mdl [mkMessage user ContentNull nm tcs tcid] strm)) /\
    convertOpenAIToClaude (mkRequest mdl [mkMessage user ContentNull nm tcs tcid] strm) =
    inr (mkPrompt EmptyString None).
Proof.
  intros mdl strm nm tcs tcid. split; [|split; [|reflexivity]].
  - intros i r. destruct r, nm, tcs, tcid; reflexivity.
  - destruct mdl, strm, nm, tcs, tcid; reflexivity.
Qed.

(** ** The world *)

Lemma advance_0 (w : World) : advance 0 0 w = w.
Proof. destruct w. unfold advance. simpl. f_equal; lia. Qed.

Lemma advance_advance (d r d' r' : nat) (w : World) :
  advance d' r' (advance d r w) = advance (d + d') (r + r') w.
Proof. unfold advance. simpl. f_equal; lia. Qed.

Lemma entropy_advance (d r : nat) (w : World) : entropy (advance d r w) = entropy w.
Proof. reflexivity. Qed.

Lemma drawn_advance (d r : nat) (w : World) : drawn (advance d r w) = (drawn w + d)%nat.
Proof. reflexivity. Qed.

Lemma clock_advance (d r : nat) (w : World) : clock (advance d r w) = clock w.
Proof. reflexivity. Qed.

Lemma reads_advance (d r : nat) (w : World) : reads (advance d r w) = (reads w + r)%nat.
Proof. reflexivity. Qed.

Lemma nanoid_advance (w : World) : nanoid w = (entropy w (drawn w), advance 1 0 w).
Proof. unfold nanoid, advance. do 2 f_equal; lia. Qed.

Lemma generateCompletionId_advance (w : World) :
  generateCompletionId w = ("chatcmpl-" +:+ entropy w (drawn w), advance 1 0 w).
Proof. unfold generateCompletionId, bind. rewrite nanoid_advance. reflexivity. Qed.

Lemma generateToolCallId_advance (w : World) :
  generateToolCallId w = ("call_" +:+ entropy w (drawn w), advance 1 0 w).
Proof. unfold generateToolCallId, bind. rewrite nanoid_advance. reflexivity. Qed.

Lemma now_seconds_advance (w : World) :
  now_seconds w = (clock w (reads w) / 1000, advance 0 1 w).
Proof. unfold now_seconds, bind, Date_now, ret, advance. do 2 f_equal; lia. Qed.

(** ** The content extractor *)

Lemma text_is_not_tool_use (b : ClaudeContentBlock) :
  contributes_text b = true -> is_tool_call b = false.
Proof.
  unfold contributes_text, is_tool_call. intros H.
  apply andb_true_iff in H as [H _]. apply String.eqb_eq in H. now rewrite H.
Qed.

Lemma extract_blocks_cons (b : ClaudeContentBlock) (rest : list ClaudeContentBlock)
    (tp : list string) (tcs : list OpenAIToolCall) :
  extract_blocks (b :: rest) tp tcs =
  if contributes_text b then
    extract_blocks rest (tp ++ [default EmptyString (block_text b)]) tcs
  else if is_tool_call b then
    id <- (if truthy_opt (block_id b)
           then ret (default EmptyString (block_id b))
           else generateToolCallId) ;;
    extract_blocks rest tp
      (tcs ++ [mkToolCall id
                 (mkFunctionCall (default EmptyString (block_name b))
                    (JSON_stringify (JObj (default [] (block_input b)))))])
  else extract_blocks rest tp tcs.
Proof. reflexivity. Qed.

(** The loop of extractContent computes the reference lists. *)
Lemma extract_blocks_reference (blocks : list ClaudeContentBlock) :
  forall (tp : list string) (tcs : list OpenAIToolCall) (w : World),
    extract_blocks blocks tp tcs w =
    ((tp ++ texts blocks,
      tcs ++ assign_ids (entropy w) (drawn w) (List.filter is_tool_call blocks)),
     advance (synthesized blocks) 0 w).
Proof.
  induction blocks as [|b rest IH]; intros tp tcs w.
  - simpl. unfold ret, texts, synthesized. simpl.
    now rewrite !app_nil_r, advance_0.
  - rewrite extract_blocks_cons. unfold texts, synthesized in *. simpl List.filter.
    destruct (contributes_text b) eqn:Ht.
    + rewrite (text_is_not_tool_use b Ht). simpl. rewrite IH, <- app_assoc. reflexivity.
    + destruct (is_tool_call b) eqn:Hc; simpl; [|apply IH].
      unfold bind. destruct (truthy_opt (block_id b)) eqn:Hid.
      * unfold ret. rewrite IH, <- app_assoc. reflexivity.
      * rewrite generateToolCallId_advance, IH, <- app_assoc, advance_advance.
        simpl. rewrite Nat.add_1_r. reflexivity.
Qed.

Lemma extractContent_reference (m : ClaudeMessage) (w : World) :
  extractContent m w =
  (content_of (entropy w) (drawn w) m, advance (synthesized (message_blocks m)) 0 w).
Proof.
  unfold extractContent, content_of, message_blocks.
  destruct (msg_message m) as [inner|].
  - unfold bind. rewrite extract_blocks_reference. reflexivity.
  - unfold ret. simpl. now rewrite advance_0.
Qed.

Lemma assign_ids_length (entropy : nat -> string) (bs : list ClaudeContentBlock) :
  forall k, List.length (assign_ids entropy k bs) = List.length bs.
Proof.
  induction bs as [|b bs IH]; intros k; simpl; [reflexivity|].
  destruct (truthy_opt (block_id b)); simpl; now rewrite IH.
Qed.

(** The j-th tool call comes from the j-th block; a synthesized id uses the
    draw whose number is the count of ids synthesized before it. *)
Lemma assign_ids_lookup (entropy : nat -> string) (bs : list ClaudeContentBlock) :
  forall (k j : nat) (b : ClaudeContentBlock),
    bs !! j = Some b ->
    assign_ids entropy k bs !! j =
    Some (mkToolCall
            (if truthy_opt (block_id b)
             then default EmptyString (block_id b)
             else "call_" +:+
                  entropy (k + List.length
                                 (List.filter (fun x => negb (truthy_opt (block_id x)))
                                    (take j bs)))%nat)
            (mkFunctionCall (default EmptyString (block_name b))
               (JSON_stringify (JObj (default [] (block_input b)))))).
Proof.
  induction bs as [|b0 bs IH]; intros k j b Hj; [discriminate|].
  destruct j as [|j]; simpl in Hj.
  - injection Hj as ->. simpl.
    destruct (truthy_opt (block_id b)); simpl; [reflexivity|].
    now rewrite Nat.add_0_r.
  - simpl. destruct (truthy_opt (block_id b0)); simpl; rewrite (IH _ _ _ Hj).
    + reflexivity.
    + now rewrite Nat.add_succ_comm.
Qed.

(** C7 (as amended).  For every assistant message, extractContent returns
    one tool call per tool_use block that carries a non-empty tool name, in
    block order (a tool_use block without one is ignored): its id is the
    block's id when that is present and not empty, and otherwise call_
    followed by the next unused draw of nanoid; its name is the block's tool
    name; its arguments are the JSON serialization of the block's input
    object, of the empty object when there is none.  The text is that of the
    text blocks with a non-empty text, joined with a newline in block order.
    Blocks of other kinds are ignored. *)
Theorem extractContent_named_tool_uses_and_nonempty_texts :
  forall (type : string) (subtype : option string) (role : string)
         (blocks : list ClaudeContentBlock) (result : option string)
         (usage : option ClaudeUsage) (w : World),
    let m := mkClaudeMessage type subtype (Some (mkInner role blocks)) result usage in
    let named := List.filter is_tool_call blocks in
    textContent (fst (extractContent m w)) = join LF (texts blocks) /\
    List.length (toolCalls (fst (extractContent m w))) = List.length named /\
    (forall (j : nat) (b : ClaudeContentBlock),
        named !! j = Some b ->
        toolCalls (fst (extractContent m w)) !! j =
        Some (mkToolCall
                (if truthy_opt (block_id b)
                 then default EmptyString (block_id b)
                 else "call_" +:+
                      entropy w
                        (drawn w +
                         List.length
                           (List.filter (fun x => negb (truthy_opt (block_id x)))
                              (take j named)))%nat)
                (mkFunctionCall (default EmptyString (block_name b))
                   (JSON_stringify (JObj (default [] (block_input b))))))) /\
    JSON_stringify (JObj []) = "{}" /\
    snd (extractContent m w) = advance (synthesized blocks) 0 w.
Proof.
  intros type subtype role blocks result usage w m named.
  rewrite extractContent_reference. subst m named. unfold content_of, message_blocks.
  simpl. repeat split.
  - apply assign_ids_length.
  - intros j b Hj. now apply assign_ids_lookup.
Qed.

(** C7, as stated, fails: a tool_use block without a tool name yields no
    tool call. *)
Lemma nameless_tool_use_block_yields_no_tool_call :
  List.length
    (List.filter (fun b => String.eqb (block_type b) "tool_use")
       [mkBlock "tool_use" None None (Some [("city", JStr "Tokyo")]) (Some "toolu_1")]) = 1%nat /\
  isAssistantMessage
    (mkClaudeMessage "assistant" None
       (Some (mkInner "assistant"
                [mkBlock "tool_use" None None (Some [("city", JStr "Tokyo")])
                   (Some "toolu_1")]))
       None None) = true /\
  fst (extractContent
         (mkClaudeMessage "assistant" None
            (Some (mkInner "assistant"
                     [mkBlock "tool_use" None None (Some [("city", JStr "Tokyo")])
                        (Some "toolu_1")]))
            None None)
         example_world) = mkConverted EmptyString [].
Proof. repeat split. Qed.

(** ** Deduplication by id *)

Lemma first_occurrences_ext (l : list OpenAIToolCall) :
  forall e e' : list string,
    (forall i, i ∈ e <-> i ∈ e') ->
    first_occurrences e l = first_occurrences e' l.
Proof.
  induction l as [|tc l IH]; intros e e' Hee; simpl; [reflexivity|].
  rewrite (bool_decide_ext _ _ (Hee (tc_id tc))).
  destruct (bool_decide (tc_id tc ∈ e')); [now apply IH|].
  f_equal. apply IH. intros i. rewrite !elem_of_cons, Hee. reflexivity.
Qed.

Lemma first_occurrences_app (a b : list OpenAIToolCall) :
  forall e e' : list string,
    (forall i, i ∈ e' <-> i ∈ e \/ i ∈ map tc_id a) ->
    first_occurrences e (a ++ b) = first_occurrences e a ++ first_occurrences e' b.
Proof.
  induction a as [|tc a IH]; intros e e' Hee; simpl.
  - apply first_occurrences_ext. intros i. rewrite Hee. simpl.
    rewrite elem_of_nil. tauto.
  - destruct (bool_decide (tc_id tc ∈ e)) eqn:Hin.
    + apply IH. intros i. rewrite Hee. simpl. rewrite elem_of_cons.
      apply bool_decide_eq_true in Hin. split; [|tauto].
      intros [H|[->|H]]; tauto.
    + simpl. f_equal. apply IH. intros i. rewrite Hee. simpl.
      rewrite !elem_of_cons. tauto.
Qed.

Lemma first_occurrences_not_earlier (l : list OpenAIToolCall) :
  forall (e : list string) (tc : OpenAIToolCall),
    tc ∈ first_occurrences e l -> tc_id tc ∉ e.
Proof.
  induction l as [|x l IH]; intros e tc Hin; simpl in Hin.
  - now apply elem_of_nil in Hin.
  - destruct (bool_decide (tc_id x ∈ e)) eqn:Hx.
    + now apply IH.
    + apply bool_decide_eq_false in Hx.
      apply elem_of_cons in Hin as [->|Hin]; [exact Hx|].
      apply IH in Hin. rewrite elem_of_cons in Hin. tauto.
Qed.

Lemma first_occurrences_NoDup (l : list OpenAIToolCall) :
  forall e : list string, NoDup (map tc_id (first_occurrences e l)).
Proof.
  induction l as [|x l IH]; intros e; simpl; [constructor|].
  destruct (bool_decide (tc_id x ∈ e)); [apply IH|].
  simpl. constructor; [|apply IH].
  intros Hin. apply list_elem_of_fmap in Hin as [y [Hy Hin]].
  apply first_occurrences_not_earlier in Hin. rewrite <- Hy in Hin.
  apply Hin. now left.
Qed.

Lemma has_id_true (i : string) (tc : OpenAIToolCall) : has_id i tc = true <-> tc_id tc = i.
Proof. apply String.eqb_eq. Qed.

Lemma has_id_false (i : string) (tc : OpenAIToolCall) : has_id i tc = false <-> tc_id tc <> i.
Proof. apply String.eqb_neq. Qed.

Lemma first_occurrences_filter_none (i : string) (l : list OpenAIToolCall) (e : list string) :
  i ∈ e -> List.filter (has_id i) (first_occurrences e l) = [].
Proof.
  intros Hi.
  destruct (List.filter (has_id i) (first_occurrences e l)) as [|y rest] eqn:E; [reflexivity|].
  assert (Hy : In y (List.filter (has_id i) (first_occurrences e l)))
    by (rewrite E; now left).
  apply filter_In in Hy as [Hy Hid]. apply has_id_true in Hid.
  apply list_elem_of_In, first_occurrences_not_earlier in Hy. now rewrite Hid in Hy.
Qed.

(** An id that occurs in [l] and not in [e] is borne by exactly one of the
    first occurrences: the first tool call of [l] that bears it. *)
Lemma first_occurrences_exactly_one (l : list OpenAIToolCall) :
  forall (e : list string) (tc : OpenAIToolCall),
    tc ∈ l -> tc_id tc ∉ e ->
    exists first,
      List.find (has_id (tc_id tc)) l = Some first /\
      List.filter (has_id (tc_id tc)) (first_occurrences e l) = [first].
Proof.
  induction l as [|x l IH]; intros e tc Hin He.
  - now apply elem_of_nil in Hin.
  - simpl. destruct (has_id (tc_id tc) x) eqn:Hx.
    + exists x. split; [reflexivity|].
      apply has_id_true in Hx. rewrite <- Hx in He.
      rewrite bool_decide_eq_false_2 by exact He. simpl.
      replace (has_id (tc_id tc) x) with true by (symmetry; now apply has_id_true).
      f_equal. apply first_occurrences_filter_none. rewrite Hx. now left.
    + assert (Hne : tc_id x <> tc_id tc) by now apply has_id_false.
      apply elem_of_cons in Hin as [->|Hin]; [congruence|].
      destruct (bool_decide (tc_id x ∈ e)).
      * now apply IH.
      * simpl. rewrite Hx. apply IH; [exact Hin|].
        rewrite elem_of_cons. intros [H|H]; [congruence | contradiction].
Qed.

Lemma collect_tool_calls_first_occurrences (tcs : list OpenAIToolCall) :
  forall (collected : list OpenAIToolCall) (seen : gset string) (earlier : list string),
    (forall i, i ∈ seen <-> i ∈ earlier) ->
    fst (collect_tool_calls tcs collected seen) =
    collected ++ first_occurrences earlier tcs /\
    (forall i, i ∈ snd (collect_tool_calls tcs collected seen) <->
               i ∈ map tc_id tcs ++ earlier).
Proof.
  induction tcs as [|tc tcs IH]; intros collected seen earlier Hse; simpl.
  - split; [now rewrite app_nil_r | exact Hse].
  - rewrite (bool_decide_ext _ _ (Hse (tc_id tc))).
    destruct (bool_decide (tc_id tc ∈ earlier)) eqn:Hin; simpl.
    + destruct (IH collected seen earlier Hse) as [H1 H2]. split; [exact H1|].
      intros i. rewrite H2, elem_of_cons, !elem_of_app.
      apply bool_decide_eq_true in Hin. split; [tauto|].
      intros [->|H]; tauto.
    + destruct (IH (collected ++ [tc]) (seen ∪ {[tc_id tc]}) (tc_id tc :: earlier))
        as [H1 H2].
      { intros i. rewrite elem_of_union, elem_of_singleton, elem_of_cons, Hse. tauto. }
      split; [now rewrite H1, <- app_assoc|].
      intros i. rewrite H2, !elem_of_cons, !elem_of_app, elem_of_cons. tauto.
Qed.

(** ** The non-streaming loop *)

Lemma last_cons {A} (a d : A) (l : list A) : List.last (a :: l) d = List.last l a.
Proof.
  revert a d. induction l as [|b l IH]; intros a d; [reflexivity|].
  change (List.last (a :: b :: l) d) with (List.last (b :: l) d).
  rewrite !IH. reflexivity.
Qed.

Lemma run_texts_cons (m : ClaudeMessage) (rest : list ClaudeMessage) :
  run_texts (m :: rest) =
  if isAssistantMessage m then
    if truthy (join LF (texts (message_blocks m)))
    then join LF (texts (message_blocks m)) :: run_texts rest
    else run_texts rest
  else run_texts rest.
Proof.
  unfold run_texts. simpl. destruct (isAssistantMessage m); [|reflexivity].
  simpl. now destruct (truthy (join LF (texts (message_blocks m)))).
Qed.

Lemma run_tool_calls_cons (entropy : nat -> string) (k : nat) (m : ClaudeMessage)
    (rest : list ClaudeMessage) :
  run_tool_calls entropy k (m :: rest) =
  if isAssistantMessage m then
    toolCalls (content_of entropy k m) ++
    run_tool_calls entropy (k + synthesized (message_blocks m)) rest
  else run_tool_calls entropy k rest.
Proof. unfold run_tool_calls. simpl. now destruct (isAssistantMessage m). Qed.

(** One turn of the loop of handleNonStreamingRequest. *)
Lemma collect_message_reference (st : Collected) (m : ClaudeMessage) (w : World) :
  collect_message st m w =
  let c := content_of (entropy w) (drawn w) m in
  let r := collect_tool_calls (toolCalls c) (collectedToolCalls st) (seenToolCallIds st) in
  (mkCollected
     (if isAssistantMessage m && truthy (textContent c)
      then collectedContent st ++ [textContent c] else collectedContent st)
     (if isAssistantMessage m then fst r else collectedToolCalls st)
     (if isResultMessage m then extractUsage m else usage st)
     (if isAssistantMessage m then snd r else seenToolCallIds st),
   if isAssistantMessage m then advance (synthesized (message_blocks m)) 0 w else w).
Proof.
  unfold collect_message, bind. cbv zeta.
  destruct (isAssistantMessage m).
  - rewrite extractContent_reference.
    destruct (collect_tool_calls _ _ _) as [calls seen].
    unfold ret. simpl. now destruct (isResultMessage m).
  - unfold ret. simpl. destruct st. now destruct (isResultMessage m).
Qed.

(** What the loop of handleNonStreamingRequest leaves in its variables. *)
Lemma collect_messages_reference (msgs : list ClaudeMessage) :
  forall (st : Collected) (w : World) (earlier : list string),
    (forall i, i ∈ seenToolCallIds st <-> i ∈ earlier) ->
    collectedContent (fst (collect_messages st msgs w)) =
      collectedContent st ++ run_texts msgs /\
    collectedToolCalls (fst (collect_messages st msgs w)) =
      collectedToolCalls st ++
      first_occurrences earlier (run_tool_calls (entropy w) (drawn w) msgs) /\
    usage (fst (collect_messages st msgs w)) =
      match List.filter isResultMessage msgs with
      | [] => usage st
      | m :: rest => extractUsage (List.last rest m)
      end /\
    exists d, snd (collect_messages st msgs w) = advance d 0 w.
Proof.
  induction msgs as [|m msgs IH]; intros st w earlier Hseen.
  - simpl. rewrite !app_nil_r. repeat split. exists 0%nat. now rewrite advance_0.
  - rewrite run_texts_cons, run_tool_calls_cons.
    change (collect_messages st (m :: msgs) w) with
      (let (st', w') := collect_message st m w in collect_messages st' msgs w').
    rewrite collect_message_reference. cbv zeta.
    set (c := content_of (entropy w) (drawn w) m).
    destruct (collect_tool_calls_first_occurrences (toolCalls c)
                (collectedToolCalls st) (seenToolCallIds st) earlier Hseen)
      as [Hcalls Hseen1].
    destruct (collect_tool_calls (toolCalls c) (collectedToolCalls st)
                (seenToolCallIds st)) as [calls seen1].
    simpl in Hcalls, Hseen1. simpl fst. simpl snd.
    assert (Hfilter : forall u,
               match List.filter isResultMessage (m :: msgs) with
               | [] => u
               | m' :: rest => extractUsage (List.last rest m')
               end =
               match List.filter isResultMessage msgs with
               | [] => if isResultMessage m then extractUsage m else u
               | m' :: rest => extractUsage (List.last rest m')
               end).
    { intros u. simpl. destruct (isResultMessage m); [|reflexivity].
      destruct (List.filter isResultMessage msgs); [reflexivity|].
      now rewrite last_cons. }
    rewrite Hfilter.
    destruct (isAssistantMessage m) eqn:Ha; cbn [andb].
    + match goal with
      | |- context [collect_messages ?s msgs ?w1] =>
          destruct (IH s w1 (map tc_id (toolCalls c) ++ earlier) Hseen1)
            as (H1 & H2 & H3 & [d H4])
      end.
      cbn [collectedContent collectedToolCalls usage] in H1, H2, H3.
      rewrite H1, H2, H3. repeat split.
      * subst c. simpl. destruct (truthy (join LF (texts (message_blocks m)))); simpl;
          now rewrite <- ?app_assoc.
      * rewrite Hcalls, <- app_assoc. f_equal.
        symmetry. apply first_occurrences_app.
        intros i. rewrite elem_of_app. tauto.
      * exists (synthesized (message_blocks m) + d)%nat.
        rewrite H4. now rewrite advance_advance.
    + match goal with
      | |- context [collect_messages ?s msgs w] =>
          destruct (IH s w earlier Hseen) as (H1 & H2 & H3 & [d H4])
      end.
      cbn [collectedContent collectedToolCalls usage] in H1, H2, H3.
      rewrite H1, H2, H3. repeat split.
      exists d. exact H4.
Qed.

(** ** The non-streaming handler *)

(** What handleNonStreamingRequest throws or hands to res.json. *)
Lemma handleNonStreamingRequest_reference
    (query : AgentOptions -> AgentRun) (nte : bool) (p : ClaudePrompt)
    (rm sm : string) (w : World) :
  fst (handleNonStreamingRequest query nte p rm sm w) =
  let run := query (agent_options nte p sm) in
  match failure run with
  | Some error => inl error
  | None =>
      let calls :=
        first_occurrences [] (run_tool_calls (entropy w) (S (drawn w)) (yielded run)) in
      inr (mkCompletion ("chatcmpl-" +:+ entropy w (drawn w)) (clock w (reads w) / 1000) rm
             [mkChoice 0
                (mkResponseMessage
                   match run_texts (yielded run) with
                   | [] => None
                   | ts => Some (join (LF +:+ LF) ts)
                   end
                   match calls with [] => None | _ => Some calls end)
                (Some match calls with [] => stop | _ => tool_calls_reason end)]
             (last_usage (yielded run)))
  end.
Proof.
  unfold handleNonStreamingRequest, bind. rewrite generateCompletionId_advance.
  fold (agent_options nte p sm). cbv zeta.
  set (run := query (agent_options nte p sm)).
  destruct (collect_messages_reference (yielded run)
              (mkCollected [] [] (mkUsage 0 0 0) ∅) (advance 1 0 w) [])
    as (H1 & H2 & H3 & [d H4]).
  { intros i. simpl. rewrite elem_of_nil. split; [|tauto]. apply not_elem_of_empty. }
  destruct (collect_messages _ (yielded run) (advance 1 0 w)) as [st w'].
  simpl in H1, H2, H3, H4. rewrite Nat.add_1_r in H2.
  destruct (failure run); [reflexivity|].
  unfold buildChatCompletion, bind. rewrite now_seconds_advance.
  unfold ret. simpl. subst w'. simpl. rewrite !Nat.add_0_r.
  rewrite H1, H2, H3. unfold last_usage.
  destruct (first_occurrences _ _); destruct (run_texts _); reflexivity.
Qed.

Lemma first_occurrences_nil_iff (l : list OpenAIToolCall) :
  first_occurrences [] l = [] <-> l = [].
Proof.
  split; [|now intros ->].
  destruct l as [|x l]; [reflexivity|]. cbn [first_occurrences].
  case_bool_decide as H; [now apply elem_of_nil in H | discriminate].
Qed.

Lemma absent_when_empty (calls : list OpenAIToolCall) :
  default [] (match calls with [] => None | _ => Some calls end) = calls.
Proof. now destruct calls. Qed.

Lemma join_truthy (sep t : string) (ts : list string) :
  truthy t = true -> truthy (join sep (t :: ts)) = true.
Proof.
  intros Ht. destruct t as [|c t]; [discriminate|].
  destruct ts; reflexivity.
Qed.

Lemma run_texts_truthy (msgs : list ClaudeMessage) :
  Forall (fun t => truthy t = true) (run_texts msgs).
Proof.
  unfold run_texts. apply Forall_forall. intros t Ht.
  apply list_elem_of_In, filter_In in Ht. tauto.
Qed.

(** C1.  Non-streaming deduplication: the tool calls of the completion are
    the tool calls of the run with every later bearer of an already seen id
    dropped, in order of arrival; no id is borne twice; and every tool call
    id of the run, in particular one that occurs in two assistant messages,
    is borne by exactly one entry, which is the first tool call of the run
    with that id, name and arguments included. *)
Theorem nonstreaming_tool_calls_deduplicated_first_wins :
  forall (query : AgentOptions -> AgentRun) (nte : bool) (p : ClaudePrompt)
         (rm sm : string) (w : World),
    let run := query (agent_options nte p sm) in
    let all := run_tool_calls (entropy w) (S (drawn w)) (yielded run) in
    match failure run with
    | Some error => fst (handleNonStreamingRequest query nte p rm sm w) = inl error
    | None =>
        exists completion,
          fst (handleNonStreamingRequest query nte p rm sm w) = inr completion /\
          completion_tool_calls completion = first_occurrences [] all /\
          NoDup (map tc_id (completion_tool_calls completion)) /\
          forall tc,
            tc ∈ all ->
            exists first,
              List.find (has_id (tc_id tc)) all = Some first /\
              List.filter (has_id (tc_id tc)) (completion_tool_calls completion) = [first]
    end.
Proof.
  intros query nte p rm sm w run all.
  rewrite handleNonStreamingRequest_reference. fold run. cbv zeta. fold all.
  destruct (failure run); [reflexivity|].
  eexists. split; [reflexivity|].
  assert (Hcalls : completion_tool_calls
                     (mkCompletion ("chatcmpl-" +:+ entropy w (drawn w))
                        (clock w (reads w) / 1000) rm
                        [mkChoice 0
                           (mkResponseMessage
                              match run_texts (yielded run) with
                              | [] => None
                              | ts => Some (join (LF +:+ LF) ts)
                              end
                              match first_occurrences [] all with
                              | [] => None
                              | _ => Some (first_occurrences [] all)
                              end)
                           (Some match first_occurrences [] all with
                                 | [] => stop
                                 | _ => tool_calls_reason
                                 end)]
                        (last_usage (yielded run)))
                   = first_occurrences [] all).
  { unfold completion_tool_calls. simpl. apply absent_when_empty. }
  rewrite Hcalls. split; [reflexivity|]. split; [apply first_occurrences_NoDup|].
  intros tc Htc. apply first_occurrences_exactly_one; [exact Htc | apply not_elem_of_nil].
Qed.

(** C8.  extractUsage reads the two optional counts, each defaulting to 0,
    and sets the total to their sum; without a usage field it gives 0, 0
    and 0; the usage of a completion is that of the last result message of
    the run (0, 0 and 0 without one), and its total is the sum of the other
    two. *)
Theorem usage_total_is_sum_of_parts :
  forall (query : AgentOptions -> AgentRun) (nte : bool) (p : ClaudePrompt)
         (rm sm : string) (w : World),
    (forall type subtype message result (i o : option Z),
        extractUsage
          (mkClaudeMessage type subtype message result (Some (mkClaudeUsage i o))) =
        mkUsage (default 0 i) (default 0 o) (default 0 i + default 0 o)) /\
    (forall type subtype message result,
        extractUsage (mkClaudeMessage type subtype message result None) = mkUsage 0 0 0) /\
    (forall m,
        total_tokens (extractUsage m) =
        prompt_tokens (extractUsage m) + completion_tokens (extractUsage m)) /\
    match fst (handleNonStreamingRequest query nte p rm sm w) with
    | inr completion =>
        cc_usage completion = last_usage (yielded (query (agent_options nte p sm))) /\
        total_tokens (cc_usage completion) =
        prompt_tokens (cc_usage completion) + completion_tokens (cc_usage completion)
    | inl _ => True
    end.
Proof.
  intros query nte p rm sm w. repeat split.
  rewrite handleNonStreamingRequest_reference. cbv zeta.
  destruct (failure _); [exact I|]. simpl. split; [reflexivity|].
  unfold last_usage. now destruct (List.filter isResultMessage _).
Qed.

(** C9.  Non-streaming final content: when the run yields normally, the
    content of the completion is the non-empty texts collected, joined by a
    blank line, and is null, never the empty string, when none was
    collected; finish_reason is tool_calls when a tool call was collected
    and stop otherwise.  When the run throws, the handler throws the same. *)
Theorem nonstreaming_content_and_finish_reason :
  forall (query : AgentOptions -> AgentRun) (nte : bool) (p : ClaudePrompt)
         (rm sm : string) (w : World),
    let run := query (agent_options nte p sm) in
    match failure run with
    | Some error => fst (handleNonStreamingRequest query nte p rm sm w) = inl error
    | None =>
        exists completion message reason,
          fst (handleNonStreamingRequest query nte p rm sm w) = inr completion /\
          cc_choices completion = [mkChoice 0 message (Some reason)] /\
          rm_content message =
            match run_texts (yielded run) with
            | [] => None
            | ts => Some (join (LF +:+ LF) ts)
            end /\
          rm_content message <> Some EmptyString /\
          reason =
            match completion_tool_calls completion with
            | [] => stop
            | _ => tool_calls_reason
            end /\
          (completion_tool_calls completion = [] <->
           run_tool_calls (entropy w) (S (drawn w)) (yielded run) = [])
    end.
Proof.
  intros query nte p rm sm w run.
  rewrite handleNonStreamingRequest_reference. fold run. cbv zeta.
  destruct (failure run); [reflexivity|].
  do 3 eexists. split; [reflexivity|]. split; [reflexivity|].
  split; [reflexivity|]. unfold completion_tool_calls. simpl.
  split; [|split].
  - pose proof (run_texts_truthy (yielded run)) as Ht.
    destruct (run_texts (yielded run)) as [|t ts]; [discriminate|].
    inversion Ht as [|? ? Htt _]; subst.
    pose proof (join_truthy (LF +:+ LF) t ts Htt) as Hj.
    intros Heq.
    assert (He : join (LF +:+ LF) (t :: ts) = EmptyString) by (injection Heq; trivial).
    rewrite He in Hj. discriminate.
  - now rewrite absent_when_empty.
  - now rewrite absent_when_empty, first_occurrences_nil_iff.
Qed.

(** ** The streaming loop *)

(** One turn of the loop of handleStreamingRequest. *)
Lemma stream_message_reference (cid rm : string) (st : StreamCursor)
    (m : ClaudeMessage) (w : World) :
  stream_message cid rm st m w =
  if isAssistantMessage m then
    let c := content_of (entropy w) (drawn w) m in
    let syn := synthesized (message_blocks m) in
    let t := if truthy (textContent c) then 1%nat else 0%nat in
    let res :=
      if truthy (textContent c)
      then sendChunk (cur_res st)
             (content_chunk cid (clock w (reads w) / 1000) rm (textContent c))
      else cur_res st in
    let newToolCalls :=
      List.filter (fun tc => negb (bool_decide (tc_id tc ∈ sentToolCallIds st)))
        (toolCalls c) in
    match toolCalls c with
    | [] => (mkCursor res (hasToolCalls st) (sentToolCallIds st), advance syn t w)
    | _ =>
        match newToolCalls with
        | [] => (mkCursor res true (sentToolCallIds st), advance syn t w)
        | _ =>
            (mkCursor
               (sendChunk res
                  (tool_calls_chunk cid (clock w (reads w + t) / 1000) rm newToolCalls))
               true
               (foldl (fun s tc => s ∪ {[tc_id tc]}) (sentToolCallIds st) newToolCalls),
             advance syn (t + 1) w)
        end
    end
  else (st, w).
Proof.
  unfold stream_message.
  destruct (isAssistantMessage m); [|reflexivity].
  unfold bind. rewrite extractContent_reference. cbv zeta.
  set (c := content_of (entropy w) (drawn w) m).
  destruct (truthy (textContent c)).
  - unfold buildContentChunk, bind. rewrite now_seconds_advance, advance_advance.
    unfold ret. rewrite clock_advance, reads_advance, !Nat.add_0_r.
    destruct (toolCalls c) as [|tc tcs]; [reflexivity|].
    destruct (List.filter _ (tc :: tcs)) as [|n ns]; [reflexivity|].
    unfold buildToolCallChunk, bind. rewrite now_seconds_advance, advance_advance.
    rewrite clock_advance, reads_advance, Nat.add_0_r. reflexivity.
  - unfold ret at 1.
    destruct (toolCalls c) as [|tc tcs]; [reflexivity|].
    destruct (List.filter _ (tc :: tcs)) as [|n ns]; [reflexivity|].
    unfold buildToolCallChunk, bind. rewrite now_seconds_advance, advance_advance.
    rewrite clock_advance, reads_advance, !Nat.add_0_r. reflexivity.
Qed.

Lemma written_sendChunk (res : Response) (c : OpenAIChatCompletionChunk) :
  written (sendChunk res c) = written res ++ [chunk_frame c].
Proof. reflexivity. Qed.

Lemma written_sendError (res : Response) (message : string) :
  written (sendError res message) = written res ++ [error_frame message].
Proof. reflexivity. Qed.

Lemma written_sendDone (res : Response) :
  written (sendDone res) = written res ++ [done_frame].
Proof. reflexivity. Qed.

(** Names the chunks a response was extended with. *)
Ltac give_chunks :=
  cbn [fst cur_res]; rewrite ?written_sendChunk, <- ?app_assoc;
  match goal with
  | |- exists _, ?x = ?x ++ _ => exists []; symmetry; apply app_nil_r
  | |- exists _, ?x ++ [chunk_frame ?a] = ?x ++ _ => exists [a]; reflexivity
  | |- exists _, ?x ++ [chunk_frame ?a] ++ [chunk_frame ?b] = ?x ++ _ =>
      exists [a; b]; reflexivity
  end.

(** Whatever a turn of the loop writes is a sequence of chunks. *)
Lemma stream_message_writes (cid rm : string) (st : StreamCursor)
    (m : ClaudeMessage) (w : World) :
  exists chunks,
    written (cur_res (fst (stream_message cid rm st m w))) =
    written (cur_res st) ++ map chunk_frame chunks.
Proof.
  rewrite stream_message_reference.
  destruct (isAssistantMessage m); [|give_chunks].
  cbv zeta.
  set (c := content_of (entropy w) (drawn w) m).
  set (new := List.filter _ (toolCalls c)).
  destruct (truthy (textContent c)); destruct (toolCalls c); destruct new; give_chunks.
Qed.

Lemma stream_messages_writes (cid rm : string) (msgs : list ClaudeMessage) :
  forall (st : StreamCursor) (w : World),
  exists chunks,
    written (cur_res (fst (stream_messages cid rm st msgs w))) =
    written (cur_res st) ++ map chunk_frame chunks.
Proof.
  induction msgs as [|m msgs IH]; intros st w.
  - exists []. simpl. now rewrite app_nil_r.
  - change (stream_messages cid rm st (m :: msgs) w) with
      (let (st', w') := stream_message cid rm st m w in stream_messages cid rm st' msgs w').
    destruct (stream_message_writes cid rm st m w) as [chunks1 H1].
    destruct (stream_message cid rm st m w) as [st1 w1]. simpl in H1.
    destruct (IH st1 w1) as [chunks2 H2].
    exists (chunks1 ++ chunks2). rewrite H2, H1, map_app, app_assoc. reflexivity.
Qed.

(** The frames are told apart by how they begin. *)
Lemma chunk_frame_prefix (c : OpenAIChatCompletionChunk) :
  exists rest, chunk_frame c = "data: {" +:+ DQUOTE +:+ "id" +:+ rest.
Proof. eexists. reflexivity. Qed.

Lemma error_frame_prefix (message : string) :
  exists rest, error_frame message = "data: {" +:+ DQUOTE +:+ "error" +:+ rest.
Proof. eexists. reflexivity. Qed.

Lemma chunk_frame_not_error_frame (c : OpenAIChatCompletionChunk) (message : string) :
  chunk_frame c <> error_frame message.
Proof.
  destruct (chunk_frame_prefix c) as [r1 ->].
  destruct (error_frame_prefix message) as [r2 ->].
  vm_compute. discriminate.
Qed.

Lemma chunk_frame_not_done_frame (c : OpenAIChatCompletionChunk) :
  chunk_frame c <> done_frame.
Proof.
  destruct (chunk_frame_prefix c) as [r1 ->]. vm_compute. discriminate.
Qed.

Lemma error_frame_not_done_frame (message : string) :
  error_frame message <> done_frame.
Proof.
  destruct (error_frame_prefix message) as [r1 ->]. vm_compute. discriminate.
Qed.

(** ** The streaming handler *)

(** C3.  Stream termination: whatever the agent yields, and whether it ends
    or throws, the response the streaming handler leaves is ended and the
    last string written to it is the terminator; what is written is a
    sequence of chunks, then, only when the agent threw, one error chunk
    bearing the message thrown (Stream error when no Error was thrown) with
    the fixed type and code, then the terminator.  No chunk is an error
    chunk or the terminator. *)
Theorem stream_always_ends_with_done :
  forall (query : AgentOptions -> AgentRun) (nte : bool) (res : Response)
         (p : ClaudePrompt) (rm sm : string) (w : World),
    let run := query (agent_options nte p sm) in
    let out := fst (handleStreamingRequest query nte res p rm sm w) in
    ended out = true /\
    last (written out) = Some done_frame /\
    done_frame = "data: [DONE]" +:+ LF +:+ LF /\
    (exists chunks : list OpenAIChatCompletionChunk,
        written out =
        written res ++ map chunk_frame chunks ++
        match failure run with
        | None => [done_frame]
        | Some error => [error_frame (error_message error "Stream error"); done_frame]
        end) /\
    (forall message,
        error_frame message =
        "data: " +:+
        JSON_stringify
          (JObj [("error", JObj [("message", JStr message);
                                 ("type", JStr "internal_error");
                                 ("param", JNull);
                                 ("code", JStr "stream_error")])]) +:+ LF +:+ LF) /\
    (forall c message, chunk_frame c <> error_frame message) /\
    (forall c, chunk_frame c <> done_frame).
Proof.
  intros query nte res p rm sm w run out.
  assert (Hout : exists chunks : list OpenAIChatCompletionChunk,
             ended out = true /\
             written out =
             written res ++ map chunk_frame chunks ++
             match failure run with
             | None => [done_frame]
             | Some error => [error_frame (error_message error "Stream error"); done_frame]
             end).
  { subst out.
    cut (exists (r : Response) (chunks : list OpenAIChatCompletionChunk),
            fst (handleStreamingRequest query nte res p rm sm w) = r /\
            ended r = true /\
            written r =
            written res ++ map chunk_frame chunks ++
            match failure run with
            | None => [done_frame]
            | Some error => [error_frame (error_message error "Stream error"); done_frame]
            end).
    { intros (r & chunks & -> & H1 & H2). now exists chunks. }
    unfold handleStreamingRequest, bind.
    rewrite generateCompletionId_advance.
    unfold buildInitialChunk, bind. rewrite now_seconds_advance. unfold ret.
    fold (agent_options nte p sm). fold run.
    match goal with
    | |- context [stream_messages ?cid rm ?st (yielded run) ?w1] =>
        destruct (stream_messages_writes cid rm (yielded run) st w1) as [chunks Hw];
        destruct (stream_messages cid rm st (yielded run) w1) as [st' w']
    end.
    cbn [fst cur_res] in Hw. rewrite written_sendChunk in Hw.
    change (written (setupSSE res)) with (written res) in Hw.
    destruct (failure run) as [error|].
    - eexists _, (_ :: chunks). cbn [fst]. split; [reflexivity|]. split; [reflexivity|].
      cbn [end_response written].
      rewrite written_sendDone, written_sendError, Hw, <- !app_assoc. reflexivity.
    - unfold buildFinalChunk, bind. rewrite now_seconds_advance. unfold ret. cbn [fst].
      eexists _, (_ :: chunks ++ [_]). split; [reflexivity|]. split; [reflexivity|].
      cbn [end_response written].
      rewrite written_sendDone, written_sendChunk, Hw, map_cons, map_app, <- !app_assoc.
      cbn [app map]. rewrite <- ?app_assoc. reflexivity. }
  destruct Hout as [chunks [Hended Hwritten]].
  split; [exact Hended|]. split.
  - rewrite Hwritten, !app_assoc.
    destruct (failure run).
    + change [error_frame (error_message e "Stream error"); done_frame]
        with ([error_frame (error_message e "Stream error")] ++ [done_frame]).
      rewrite app_assoc. apply last_snoc.
    + apply last_snoc.
  - split; [reflexivity|]. split; [now exists chunks|].
    split; [reflexivity|]. split.
    + apply chunk_frame_not_error_frame.
    + apply chunk_frame_not_done_frame.
Qed.

(** ** Runs of one tool call a message *)

Lemma no_text_block_no_text (blocks : list ClaudeContentBlock) :
  forallb (fun b => negb (String.eqb (block_type b) "text")) blocks = true ->
  texts blocks = [].
Proof.
  unfold texts. induction blocks as [|b blocks IH]; intros H; [reflexivity|].
  simpl in H. apply andb_true_iff in H as [Hb H].
  simpl. unfold contributes_text at 1.
  apply negb_true_iff in Hb. rewrite Hb. simpl. now apply IH.
Qed.

Lemma all_tool_uses_named (blocks : list ClaudeContentBlock) :
  forallb (fun b => implb (String.eqb (block_type b) "tool_use")
                      (truthy_opt (block_name b))) blocks = true ->
  List.filter is_tool_call blocks =
  List.filter (fun b => String.eqb (block_type b) "tool_use") blocks.
Proof.
  induction blocks as [|b blocks IH]; intros H; [reflexivity|].
  simpl in H. apply andb_true_iff in H as [Hb H].
  simpl. rewrite (IH H). unfold is_tool_call.
  destruct (String.eqb (block_type b) "tool_use"); [|reflexivity].
  simpl in Hb. now rewrite Hb.
Qed.

(** The content of a message with no text block and one named tool_use
    block: no text, and the tool call of that block. *)
Lemma one_named_tool_use_content (entropy : nat -> string) (k : nat) (m : ClaudeMessage) :
  one_named_tool_use_no_text m = true ->
  isAssistantMessage m = true /\
  exists tc, content_of entropy k m = mkConverted EmptyString [tc].
Proof.
  unfold one_named_tool_use_no_text. rewrite !andb_true_iff.
  intros [[[Ha Htext] Hone] Hnamed]. split; [exact Ha|].
  unfold content_of.
  rewrite (no_text_block_no_text _ Htext), (all_tool_uses_named _ Hnamed).
  apply Nat.eqb_eq in Hone.
  destruct (List.filter _ (message_blocks m)) as [|b [|b' bs]]; try discriminate.
  simpl. destruct (truthy_opt (block_id b)); eexists; reflexivity.
Qed.

Lemma stream_messages_cons (cid rm : string) (st : StreamCursor) (m : ClaudeMessage)
    (msgs : list ClaudeMessage) (w : World) :
  stream_messages cid rm st (m :: msgs) w =
  stream_messages cid rm (fst (stream_message cid rm st m w)) msgs
    (snd (stream_message cid rm st m w)).
Proof.
  change (stream_messages cid rm st (m :: msgs) w) with
    (let (st', w') := stream_message cid rm st m w in stream_messages cid rm st' msgs w').
  now destruct (stream_message cid rm st m w).
Qed.

(** The loop over messages that each bring one new tool call and no text
    writes one tool-call chunk a message, carrying that tool call in full. *)
Lemma stream_messages_one_tool_call_each (cid rm : string) (msgs : list ClaudeMessage) :
  forall (st : StreamCursor) (w : World),
    Forall (fun m => one_named_tool_use_no_text m = true) msgs ->
    NoDup (map tc_id (run_tool_calls (entropy w) (drawn w) msgs)) ->
    (forall tc, tc ∈ run_tool_calls (entropy w) (drawn w) msgs ->
                tc_id tc ∉ sentToolCallIds st) ->
    List.length (run_tool_calls (entropy w) (drawn w) msgs) = List.length msgs /\
    written (cur_res (fst (stream_messages cid rm st msgs w))) =
      written (cur_res st) ++
      map chunk_frame
        (imap (fun i tc =>
                 tool_calls_chunk cid (clock w (reads w + i)%nat / 1000) rm [tc])
           (run_tool_calls (entropy w) (drawn w) msgs)) /\
    hasToolCalls (fst (stream_messages cid rm st msgs w)) =
      match msgs with [] => hasToolCalls st | _ => true end /\
    exists d, snd (stream_messages cid rm st msgs w) = advance d (List.length msgs) w.
Proof.
  induction msgs as [|m msgs IH]; intros st w Hall Hnodup Hfresh.
  - simpl. rewrite app_nil_r. repeat split. exists 0%nat. now rewrite advance_0.
  - inversion Hall as [|? ? Hm Hrest]; subst.
    destruct (one_named_tool_use_content (entropy w) (drawn w) m Hm) as [Ha [tc Hc]].
    rewrite run_tool_calls_cons, Ha, Hc in Hnodup, Hfresh |- *.
    cbn [toolCalls app] in Hnodup, Hfresh |- *.
    rewrite stream_messages_cons, stream_message_reference, Ha. cbv zeta.
    rewrite Hc. cbn [textContent toolCalls truthy List.filter].
    assert (Htc : tc_id tc ∉ sentToolCallIds st) by (apply Hfresh; now left).
    rewrite bool_decide_eq_false_2 by exact Htc. cbn [negb fst snd foldl].
    set (w1 := advance (synthesized (message_blocks m)) (0 + 1) w).
    set (st1 := mkCursor _ true _).
    simpl in Hnodup. apply NoDup_cons in Hnodup as [Hnotin Hnodup].
    destruct (IH st1 w1) as (Hlen & Hw & Hhas & [d Hd]).
    + exact Hrest.
    + exact Hnodup.
    + intros tc' Htc'. subst st1. cbn [sentToolCallIds].
      rewrite elem_of_union, elem_of_singleton. intros [Hin|Heq].
      * revert Hin. apply Hfresh. now right.
      * apply Hnotin. rewrite <- Heq. apply list_elem_of_fmap. now exists tc'.
    + subst w1. rewrite entropy_advance, drawn_advance in Hlen, Hw.
      rewrite clock_advance, reads_advance in Hw.
      split; [|split; [|split]].
      * simpl. now rewrite Hlen.
      * rewrite Hw. subst st1. cbn [cur_res]. rewrite written_sendChunk, <- app_assoc.
        f_equal. simpl. rewrite Nat.add_0_r. do 2 f_equal.
        apply imap_ext. intros i x _. simpl.
        now replace (reads w + 1 + i)%nat with (reads w + S i)%nat by lia.
      * rewrite Hhas. subst st1. now destruct msgs.
      * exists (synthesized (message_blocks m) + d)%nat.
        rewrite Hd, advance_advance. reflexivity.
Qed.

(** C2 (as amended).  Streaming chunk count: when the agent yields N
    assistant messages and ends, each message having no text block and
    exactly one tool_use block, that block carrying a non-empty tool name,
    and the ids of the N tool calls (the block's own, or the synthesized one
    where it has none) being pairwise distinct, the handler writes exactly
    N+2 chunks before the terminator: the role chunk, one chunk per message
    carrying that message's tool call in full, and the final chunk, whose
    finish_reason is tool_calls (stop when N is 0). *)
Theorem streaming_one_tool_call_per_message_chunk_count :
  forall (query : AgentOptions -> AgentRun) (nte : bool) (res : Response)
         (p : ClaudePrompt) (rm sm : string) (w : World),
    let run := query (agent_options nte p sm) in
    let calls := run_tool_calls (entropy w) (S (drawn w)) (yielded run) in
    let n := List.length (yielded run) in
    let cid := "chatcmpl-" +:+ entropy w (drawn w) in
    failure run = None ->
    Forall (fun m => one_named_tool_use_no_text m = true) (yielded run) ->
    NoDup (map tc_id calls) ->
    exists chunks,
      written (fst (handleStreamingRequest query nte res p rm sm w)) =
        written res ++ map chunk_frame chunks ++ [done_frame] /\
      List.length chunks = (n + 2)%nat /\
      List.length calls = n /\
      chunks =
        role_chunk cid (clock w (reads w) / 1000) rm ::
        imap (fun i tc =>
                tool_calls_chunk cid (clock w (reads w + 1 + i)%nat / 1000) rm [tc])
          calls ++
        [final_chunk cid (clock w (reads w + 1 + n)%nat / 1000) rm
           match yielded run with [] => stop | _ => tool_calls_reason end].
Proof.
  intros query nte res p rm sm w run calls n cid Hend Hall Hnodup.
  cut (exists r : Response,
          fst (handleStreamingRequest query nte res p rm sm w) = r /\
          written r =
          written res ++
          map chunk_frame
            (role_chunk cid (clock w (reads w) / 1000) rm ::
             imap (fun i tc =>
                     tool_calls_chunk cid (clock w (reads w + 1 + i)%nat / 1000) rm [tc])
               calls ++
             [final_chunk cid (clock w (reads w + 1 + n)%nat / 1000) rm
                match yielded run with [] => stop | _ => tool_calls_reason end]) ++
          [done_frame] /\
          List.length calls = n).
  { intros (r & -> & Hw & Hlen). eexists. split; [exact Hw|].
    split; [|split; [exact Hlen | reflexivity]].
    simpl. rewrite length_app, length_imap, Hlen. simpl. lia. }
  unfold handleStreamingRequest, bind.
  rewrite generateCompletionId_advance.
  unfold buildInitialChunk, bind. rewrite now_seconds_advance, advance_advance.
  cbn [Nat.add]. unfold ret. fold (agent_options nte p sm). fold run. fold cid.
  match goal with
  | |- context [stream_messages cid rm ?st (yielded run) ?w1] =>
      destruct (stream_messages_one_tool_call_each cid rm (yielded run) st w1)
        as (Hlen & Hw & Hhas & [d Hd]);
      [ exact Hall
      | rewrite entropy_advance, drawn_advance, Nat.add_1_r; exact Hnodup
      | intros tc _; apply not_elem_of_empty
      | destruct (stream_messages cid rm st (yielded run) w1) as [st' w'] ]
  end.
  rewrite entropy_advance, drawn_advance, Nat.add_1_r in Hlen, Hw.
  rewrite !clock_advance, !reads_advance, Nat.add_0_r in Hw.
  cbn [fst snd cur_res hasToolCalls] in Hw, Hhas, Hd.
  rewrite Hend. unfold buildFinalChunk, bind. rewrite now_seconds_advance.
  unfold ret. cbn [fst]. eexists. split; [reflexivity|]. split; [|exact Hlen].
  cbn [end_response written]. subst w'.
  rewrite written_sendDone, written_sendChunk, Hw, written_sendChunk.
  change (written (setupSSE res)) with (written res).
  rewrite !clock_advance, !reads_advance, Hhas.
  rewrite map_cons, map_app. cbn [app map]. rewrite <- !app_assoc. cbn [app].
  replace (if match yielded run with [] => false | _ => true end
           then tool_calls_reason else stop)
    with (match yielded run with [] => stop | _ => tool_calls_reason end)
    by now destruct (yielded run).
  reflexivity.
Qed.

Lemma streaming_chunk_count_witness :
  exists chunks,
    written
      (fst (handleStreamingRequest
              (scripted_agent
                 [tool_use_message (Some "toolu_1") (Some "get_weather");
                  tool_use_message None (Some "get_time")]
                 None)
              true fresh_response (mkPrompt "Hi" None) "claude-sonnet-4-5" "sonnet"
              example_world)) =
    map chunk_frame chunks ++ [done_frame] /\
    List.length chunks = 4%nat.
Proof.
  assert (H1 : failure
                 (scripted_agent
                    [tool_use_message (Some "toolu_1") (Some "get_weather");
                     tool_use_message None (Some "get_time")]
                    None
                    (agent_options true (mkPrompt "Hi" None) "sonnet")) = None)
    by reflexivity.
  assert (H2 : Forall (fun m => one_named_tool_use_no_text m = true)
                 (yielded
                    (scripted_agent
                       [tool_use_message (Some "toolu_1") (Some "get_weather");
                        tool_use_message None (Some "get_time")]
                       None
                       (agent_options true (mkPrompt "Hi" None) "sonnet"))))
    by (repeat constructor).
  assert (H3 : NoDup
                 (map tc_id
                    (run_tool_calls (entropy example_world) (S (drawn example_world))
                       (yielded
                          (scripted_agent
                             [tool_use_message (Some "toolu_1") (Some "get_weather");
                              tool_use_message None (Some "get_time")]
                             None
                             (agent_options true (mkPrompt "Hi" None) "sonnet"))))))
    by (apply (bool_decide_unpack _); vm_compute; exact I).
  destruct (streaming_one_tool_call_per_message_chunk_count
              (scripted_agent
                 [tool_use_message (Some "toolu_1") (Some "get_weather");
                  tool_use_message None (Some "get_time")]
                 None)
              true fresh_response (mkPrompt "Hi" None) "claude-sonnet-4-5" "sonnet"
              example_world H1 H2 H3) as (chunks & Hw & Hlen & _).
  exists chunks. split; [exact Hw | exact Hlen].
Defined.

(** C2, as stated, fails: a message whose one tool_use block, with an id
    of its own, has no tool name yields no tool call, and the handler
    writes two chunks for this run of one message, not three. *)
Lemma nameless_tool_use_block_emits_no_chunk :
  isAssistantMessage (tool_use_message (Some "toolu_1") None) = true /\
  List.length
    (List.filter (fun b => String.eqb (block_type b) "tool_use")
       (message_blocks (tool_use_message (Some "toolu_1") None))) = 1%nat /\
  List.filter (fun b => String.eqb (block_type b) "text")
    (message_blocks (tool_use_message (Some "toolu_1") None)) = [] /\
  written
    (fst (handleStreamingRequest
            (scripted_agent [tool_use_message (Some "toolu_1") None] None)
            true fresh_response (mkPrompt "Hi" None) "claude-sonnet-4-5" "sonnet"
            example_world)) =
  [chunk_frame (role_chunk "chatcmpl-0" 1700000000 "claude-sonnet-4-5");
   chunk_frame (final_chunk "chatcmpl-0" 1700000001 "claude-sonnet-4-5" stop);
   done_frame].
Proof. repeat split. Qed.

(** ** The scenarios of the specification, run *)

(** One text, then the usage: content, stop and the usage summed. *)
Example scenario_text_then_result :
  fst (handleNonStreamingRequest
         (scripted_agent [text_message "Hello"; result_message 5 2] None)
         true (mkPrompt "Hi" None) "claude-sonnet-4-5" "sonnet" example_world) =
  inr (mkCompletion "chatcmpl-0" 1700000000 "claude-sonnet-4-5"
         [mkChoice 0 (mkResponseMessage (Some "Hello") None) (Some stop)]
         (mkUsage 5 2 7)).
Proof. reflexivity. Qed.

(** The same id in two messages: the first bearer is kept, the second
    dropped, and the order is that of arrival. *)
Example scenario_duplicate_tool_call_id :
  fst (handleNonStreamingRequest
         (scripted_agent
            [tool_use_message (Some "toolu_1") (Some "get_weather");
             tool_use_message (Some "toolu_2") (Some "get_time");
             tool_use_message (Some "toolu_1") (Some "get_news")]
            None)
         true (mkPrompt "Hi" None) "claude-sonnet-4-5" "sonnet" example_world) =
  inr (mkCompletion "chatcmpl-0" 1700000000 "claude-sonnet-4-5"
         [mkChoice 0
            (mkResponseMessage None
               (Some [mkToolCall "toolu_1"
                        (mkFunctionCall "get_weather"
                           (JSON_stringify (JObj [("city", JStr "Tokyo")])));
                      mkToolCall "toolu_2"
                        (mkFunctionCall "get_time"
                           (JSON_stringify (JObj [("city", JStr "Tokyo")])))]))
            (Some tool_calls_reason)]
         (mkUsage 0 0 0)).
Proof. vm_compute. reflexivity. Qed.

Example stringify_object :
  JSON_stringify (JObj [("city", JStr "Tokyo"); ("days", JNum 3); ("units", JNull)]) =
  "{" +:+ DQUOTE +:+ "city" +:+ DQUOTE +:+ ":" +:+ DQUOTE +:+ "Tokyo" +:+ DQUOTE +:+ "," +:+
  DQUOTE +:+ "days" +:+ DQUOTE +:+ ":3," +:+ DQUOTE +:+ "units" +:+ DQUOTE +:+ ":null}".
Proof. reflexivity. Qed.

(** A thrown error mid-stream: the chunks so far, the error chunk, the
    terminator. *)
Example scenario_stream_error :
  written
    (fst (handleStreamingRequest
            (scripted_agent [text_message "Hel"] (Some (Error "boom")))
            true fresh_response (mkPrompt "Hi" None) "claude-sonnet-4-5" "sonnet"
            example_world)) =
  [chunk_frame (role_chunk "chatcmpl-0" 1700000000 "claude-sonnet-4-5");
   chunk_frame (content_chunk "chatcmpl-0" 1700000001 "claude-sonnet-4-5" "Hel");
   error_frame "boom";
   done_frame].
Proof. vm_compute. reflexivity. Qed.

(* ===================================================================== *)
(** * Further properties                                                  *)
(* ===================================================================== *)

(** ** The flattener, continued *)

Lemma split_system_fold (msgs : list OpenAIMessage) :
  forall sp conv,
    fst (split_system msgs sp conv) = foldl add_system sp (system_texts msgs).
Proof.
  induction msgs as [|m msgs IH]; intros sp conv; [reflexivity|].
  unfold system_texts. simpl.
  destruct (role_eqb (role m) system); simpl; apply IH.
Qed.

Lemma join_absorb (sep s c : string) (ts : list string) :
  join sep ((s +:+ sep +:+ c) :: ts) = join sep (s :: c :: ts).
Proof.
  destruct ts as [|t ts]; [reflexivity|].
  rewrite !join_cons, !append_assoc. reflexivity.
Qed.

Lemma fold_system_truthy (ts : list string) :
  forall s, truthy s = true ->
    foldl add_system (Some s) ts = Some (join (LF +:+ LF) (s :: ts)).
Proof.
  induction ts as [|c ts IH]; intros s Hs; [reflexivity|].
  simpl. unfold add_system at 2. simpl. rewrite Hs.
  rewrite IH by (now destruct s).
  change (s +:+ LF +:+ LF +:+ c) with (s +:+ (LF +:+ LF) +:+ c).
  now rewrite join_absorb.
Qed.

Lemma fold_system_falsy (ts : list string) :
  forall sp, truthy_opt sp = false -> ts <> [] ->
    foldl add_system sp ts = Some (join (LF +:+ LF) (drop_leading_empty ts)).
Proof.
  induction ts as [|c ts IH]; intros sp Hsp Hne; [now contradiction Hne|].
  simpl. unfold add_system at 2. rewrite Hsp.
  destruct (truthy c) eqn:Hc.
  - now apply fold_system_truthy.
  - destruct ts as [|c' ts]; [now destruct c|].
    apply IH; [exact Hc | discriminate].
Qed.

(** X1.  The system prompt: absent when the request has no system message,
    and otherwise the texts of its system messages, in order and without the
    empty texts they start with, joined by blank lines; so when no system
    text is empty, all of them joined by blank lines.  Flatten fails only
    for the empty list. *)
Theorem system_prompt_is_join_of_system_texts :
  forall request : OpenAIChatRequest,
    match convertOpenAIToClaude request with
    | inr p =>
        systemPrompt p =
        match system_texts (messages request) with
        | [] => None
        | ts => Some (join (LF +:+ LF) (drop_leading_empty ts))
        end
    | inl _ => messages request = []
    end.
Proof.
  intros request. unfold convertOpenAIToClaude.
  destruct (messages request) as [|m0 ms] eqn:E; [reflexivity|].
  pose proof (split_system_fold (m0 :: ms) None []) as Hfst.
  destruct (split_system (m0 :: ms) None []) as [sp conv]. simpl in Hfst.
  assert (Hsp : sp = match system_texts (m0 :: ms) with
                     | [] => None
                     | ts => Some (join (LF +:+ LF) (drop_leading_empty ts))
                     end).
  { rewrite Hfst. destruct (system_texts (m0 :: ms)) as [|t ts] eqn:Et; [reflexivity|].
    now apply fold_system_falsy. }
  destruct conv as [|c [|c' conv]]; try exact Hsp.
  destruct (role_eqb (role c) user); exact Hsp.
Qed.

Lemma conversation_idempotent (msgs : list OpenAIMessage) :
  conversation (conversation msgs) = conversation msgs.
Proof.
  unfold conversation. induction msgs as [|m ms IH]; [reflexivity|]. simpl.
  destruct (negb (role_eqb (role m) system)) eqn:Hm; [|exact IH].
  simpl. rewrite Hm. now f_equal.
Qed.

Lemma conversation_has_no_system_text (msgs : list OpenAIMessage) :
  system_texts (conversation msgs) = [].
Proof.
  unfold system_texts, conversation. induction msgs as [|m ms IH]; [reflexivity|]. simpl.
  destruct (role_eqb (role m) system) eqn:Hm; simpl; [exact IH|].
  rewrite Hm. exact IH.
Qed.

(** X2.  System messages never reach the prompt: the prompt of a request is
    the prompt of the request with its system messages taken out; and a
    request of system messages only is flattened, without failure, to the
    empty prompt. *)
Theorem prompt_ignores_system_messages :
  forall request : OpenAIChatRequest,
    match convertOpenAIToClaude request with
    | inr p =>
        match conversation (messages request) with
        | [] => prompt p = EmptyString
        | conv =>
            convertOpenAIToClaude (mkRequest (model request) conv (stream request)) =
            inr (mkPrompt (prompt p) None)
        end
    | inl _ => messages request = []
    end.
Proof.
  intros request.
  destruct (conversation (messages request)) as [|c conv] eqn:Hconv.
  - unfold convertOpenAIToClaude.
    destruct (messages request) as [|m0 ms] eqn:E; [reflexivity|].
    pose proof (split_system_conversation (m0 :: ms) None []) as Hsnd.
    destruct (split_system (m0 :: ms) None []) as [sp cv]. cbn [snd app] in Hsnd.
    rewrite Hconv in Hsnd. subst cv. reflexivity.
  - assert (Hidem : conversation (c :: conv) = c :: conv).
    { rewrite <- Hconv. apply conversation_idempotent. }
    assert (Hnosys : fst (split_system (c :: conv) None []) = None).
    { rewrite split_system_fold, <- Hconv, conversation_has_no_system_text.
      reflexivity. }
    rewrite (convert_nonempty_conversation request) by (now rewrite Hconv).
    rewrite (convert_nonempty_conversation (mkRequest (model request) (c :: conv) (stream request)))
      by (cbn [messages]; now rewrite Hidem).
    cbv zeta. cbn [messages]. rewrite Hidem, Hconv, Hnosys.
    destruct conv as [|c' conv]; [|reflexivity].
    now destruct (role_eqb (role c) user).
Qed.

(** The layout of a conversation of two messages or more with a user
    message in it. *)
Lemma formatConversation_sections (h : list OpenAIMessage) (c : OpenAIMessage)
    (a : list OpenAIMessage) :
  role c = user ->
  forallb (fun m => negb (role_eqb (role m) user)) a = true ->
  (h ++ a)%list <> [] ->
  formatConversation (h ++ c :: a) =
  history_section h +:+ trailing_section a +:+
  "Current request:" +:+ LF +:+ getTextContent (content c).
Proof.
  intros Hc Ha Hne.
  assert (Hidx : findLastIndex (h ++ c :: a) (fun m => role_eqb (role m) user)
                 = Z.of_nat (List.length h)).
  { apply findLastIndex_found; [now apply role_eqb_eq | exact Ha]. }
  destruct (h ++ c :: a)%list as [|m1 [|m2 rest]] eqn:E.
  - destruct h; discriminate.
  - destruct h as [|x h]; [|destruct h; discriminate].
    destruct a; [|discriminate]. now contradiction Hne.
  - unfold formatConversation. rewrite Hidx.
    replace (Z.of_nat (List.length h) =? -1) with false by (symmetry; apply Z.eqb_neq; lia).
    replace (Z.to_nat (Z.of_nat (List.length h) + 1)) with (S (List.length h)) by lia.
    rewrite Nat2Z.id, <- E.
    rewrite take_app_length, list_lookup_middle by reflexivity.
    replace (drop (S (List.length h)) (h ++ c :: a)) with a.
    2: { rewrite cons_middle, app_assoc. symmetry.
         apply drop_app_length'. rewrite length_app. simpl. lia. }
    clear E Hidx Hne Ha.
    destruct h as [|h0 h']; destruct a as [|a0 a'];
      unfold history_section, trailing_section; cbn [app]; rewrite !join_cons;
      cbn [join]; rewrite ?append_assoc, ?append_nil_l; reflexivity.
Qed.

(** X3.  The layout of a multi-turn prompt: when the non-system messages
    number more than one and the last of them with role user is preceded by
    [history] and followed by [trailing], the prompt is, in this order, the
    history section (header Previous conversation:, present only when
    [history] is not empty), the messages that came after the last user
    message (present only when there are some, and placed before the
    current request although they came after it), and Current request:
    with the text of the last user message. *)
Theorem multi_turn_prompt_layout :
  forall (request : OpenAIChatRequest)
         (history : list OpenAIMessage) (current : OpenAIMessage)
         (trailing : list OpenAIMessage),
    conversation (messages request) = history ++ current :: trailing ->
    role current = user ->
    Forall (fun m => role m <> user) trailing ->
    (1 < List.length (conversation (messages request)))%nat ->
    convertOpenAIToClaude request =
    inr (mkPrompt
           (history_section history +:+ trailing_section trailing +:+
            "Current request:" +:+ LF +:+ getTextContent (content current))
           (fst (split_system (messages request) None []))).
Proof.
  intros request history current trailing Hconv Hcur Htrail Hlen.
  assert (Hne : history ++ trailing <> []).
  { rewrite Hconv, length_app in Hlen. simpl in Hlen.
    destruct history, trailing; simpl in *; try discriminate; lia. }
  assert (Hb : forallb (fun m => negb (role_eqb (role m) user)) trailing = true).
  { apply forallb_forall. intros m Hm.
    rewrite Forall_forall in Htrail. apply negb_true_iff, role_eqb_neq, Htrail.
    now apply list_elem_of_In. }
  rewrite <- (formatConversation_sections history current trailing Hcur Hb Hne).
  rewrite convert_nonempty_conversation by (rewrite Hconv; now destruct history).
  cbv zeta. rewrite Hconv.
  destruct history as [|x history]; simpl.
  - destruct trailing; [now contradiction Hne | reflexivity].
  - destruct history; reflexivity.
Qed.

Lemma multi_turn_prompt_layout_witness :
  convertOpenAIToClaude
    (mkRequest None
       [mkMessage user (ContentString "Weather in Tokyo?") None None None;
        mkMessage assistant ContentNull None
          (Some [mkToolCall "call_1" (mkFunctionCall "get_weather" "{}")]) None;
        mkMessage tool (ContentString "sunny") None None (Some "call_1")]
       None) =
  inr (mkPrompt
         ("Assistant: [Tool Call: get_weather({})]" +:+ LF +:+ LF +:+
          "Tool Result (call_1): sunny" +:+ LF +:+ LF +:+
          "Current request:" +:+ LF +:+ "Weather in Tokyo?")
         None).
Proof.
  apply (multi_turn_prompt_layout
           (mkRequest None
              [mkMessage user (ContentString "Weather in Tokyo?") None None None;
               mkMessage assistant ContentNull None
                 (Some [mkToolCall "call_1" (mkFunctionCall "get_weather" "{}")]) None;
               mkMessage tool (ContentString "sunny") None None (Some "call_1")]
              None)
           []
           (mkMessage user (ContentString "Weather in Tokyo?") None None None)
           [mkMessage assistant ContentNull None
              (Some [mkToolCall "call_1" (mkFunctionCall "get_weather" "{}")]) None;
            mkMessage tool (ContentString "sunny") None None (Some "call_1")]).
  - reflexivity.
  - reflexivity.
  - repeat constructor; discriminate.
  - simpl. lia.
Defined.

(** X4.  Without a user message, a conversation of two messages or more
    is flattened to its messages in history form, joined by blank lines:
    no header and no current request. *)
Theorem conversation_without_user_is_history :
  forall (request : OpenAIChatRequest) (m1 m2 : OpenAIMessage) (rest : list OpenAIMessage),
    conversation (messages request) = m1 :: m2 :: rest ->
    Forall (fun m => role m <> user) (m1 :: m2 :: rest) ->
    convertOpenAIToClaude request =
    inr (mkPrompt (join (LF +:+ LF) (map formatMessage (m1 :: m2 :: rest)))
           (fst (split_system (messages request) None []))).
Proof.
  intros request m1 m2 rest Hconv Hnone.
  rewrite convert_nonempty_conversation by (now rewrite Hconv).
  cbv zeta. rewrite Hconv.
  rewrite formatConversation_without_user; [reflexivity|].
  apply forallb_forall. intros m Hm. rewrite Forall_forall in Hnone.
  apply negb_true_iff, role_eqb_neq, Hnone. now apply list_elem_of_In.
Qed.

Lemma conversation_without_user_witness :
  convertOpenAIToClaude
    (mkRequest None
       [mkMessage assistant (ContentString "a") None None None;
        mkMessage tool (ContentString "b") None None None]
       None) =
  inr (mkPrompt ("Assistant: a" +:+ LF +:+ LF +:+ "Tool: b") None).
Proof.
  apply (conversation_without_user_is_history
           (mkRequest None
              [mkMessage assistant (ContentString "a") None None None;
               mkMessage tool (ContentString "b") None None None]
              None)
           (mkMessage assistant (ContentString "a") None None None)
           (mkMessage tool (ContentString "b") None None None) []).
  - reflexivity.
  - repeat constructor; discriminate.
Defined.

Lemma forallb_snoc {A} (p : A -> bool) (l : list A) (x : A) :
  forallb p (l ++ [x]) = forallb p l && p x.
Proof. rewrite forallb_app. simpl. now rewrite andb_true_r. Qed.

(** X7.  findLastIndex: either no element of the array satisfies the
    predicate and the result is -1, or the result is the index of an
    element that satisfies it and that no satisfying element follows. *)
Theorem findLastIndex_is_last_match :
  forall (T : Type) (arr : list T) (predicate : T -> bool),
    (findLastIndex arr predicate = -1 /\
     forallb (fun x => negb (predicate x)) arr = true) \/
    (exists before x after,
        arr = before ++ x :: after /\
        predicate x = true /\
        forallb (fun y => negb (predicate y)) after = true /\
        findLastIndex arr predicate = Z.of_nat (List.length before)).
Proof.
  intros T arr predicate.
  assert (Hsplit : forallb (fun x => negb (predicate x)) arr = true \/
                   exists before x after,
                     arr = before ++ x :: after /\ predicate x = true /\
                     forallb (fun y => negb (predicate y)) after = true).
  { induction arr as [|x arr IH] using rev_ind; [now left|].
    destruct (predicate x) eqn:Hx.
    - right. exists arr, x, []. repeat split; assumption.
    - destruct IH as [Hnone | (b & y & a & -> & Hy & Ha)].
      + left. rewrite forallb_snoc, Hnone, Hx. reflexivity.
      + right. exists b, y, (a ++ [x]). rewrite <- app_assoc. simpl.
        repeat split; [exact Hy|]. rewrite forallb_snoc, Ha, Hx. reflexivity. }
  destruct Hsplit as [Hnone | (b & y & a & -> & Hy & Ha)].
  - left. split; [|exact Hnone]. now apply findLastIndex_loop_none.
  - right. exists b, y, a. repeat split; try assumption.
    now apply findLastIndex_found.
Qed.

(** ** Parts that are not text *)

Lemma getTextContent_text_only (c : MessageContent) :
  getTextContent (text_only c) = getTextContent c.
Proof.
  destruct c as [|s|parts]; try reflexivity. simpl. f_equal.
  induction parts as [|p parts IH]; [reflexivity|]. cbn [List.filter].
  destruct (part_type p) eqn:Ht; cbn [omap list_omap]; rewrite Ht; [|exact IH].
  destruct (part_text p); [f_equal|]; exact IH.
Qed.

Lemma formatMessage_without_images (m : OpenAIMessage) :
  formatMessage (without_images m) = formatMessage m.
Proof.
  unfold formatMessage, without_images. cbn [role content tool_calls tool_call_id].
  now rewrite getTextContent_text_only.
Qed.

Lemma map_formatMessage_without_images (l : list OpenAIMessage) :
  map formatMessage (map without_images l) = map formatMessage l.
Proof.
  rewrite map_map. apply map_ext. intros m. apply formatMessage_without_images.
Qed.

Lemma lookup_map {A B} (f : A -> B) (l : list A) (i : nat) :
  map f l !! i = f <$> (l !! i).
Proof.
  revert i. induction l as [|x l IH]; intros [|i]; simpl; try reflexivity. apply IH.
Qed.

Lemma findLastIndex_without_images (l : list OpenAIMessage) (n : nat) :
  findLastIndex_loop (map without_images l) (fun m => role_eqb (role m) user) n =
  findLastIndex_loop l (fun m => role_eqb (role m) user) n.
Proof.
  induction n as [|i IH]; [reflexivity|]. simpl.
  rewrite lookup_map. destruct (l !! i) as [x|]; simpl; [|exact IH].
  destruct (role_eqb (role x) user); [reflexivity | exact IH].
Qed.

Lemma formatConversation_turns (m1 m2 : OpenAIMessage) (rest : list OpenAIMessage) :
  formatConversation (m1 :: m2 :: rest) = format_turns (m1 :: m2 :: rest).
Proof. reflexivity. Qed.

Lemma format_turns_without_images (l : list OpenAIMessage) :
  format_turns (map without_images l) = format_turns l.
Proof.
  unfold format_turns, findLastIndex. cbv zeta.
  rewrite length_map, findLastIndex_without_images.
  destruct (findLastIndex_loop l _ (List.length l) =? -1);
    [apply f_equal, map_formatMessage_without_images|].
  set (i := findLastIndex_loop l _ (List.length l)).
  rewrite lookup_map, !firstn_map, !skipn_map.
  rewrite !map_formatMessage_without_images.
  destruct (take (Z.to_nat i) l); destruct (drop (Z.to_nat (i + 1)) l);
    destruct (l !! Z.to_nat i); cbn [map fmap option_fmap option_map without_images content];
    rewrite ?getTextContent_text_only; reflexivity.
Qed.

Lemma formatConversation_without_images (l : list OpenAIMessage) :
  formatConversation (map without_images l) = formatConversation l.
Proof.
  destruct l as [|m1 [|m2 rest]]; [reflexivity | apply getTextContent_text_only |].
  rewrite formatConversation_turns.
  change (map without_images (m1 :: m2 :: rest))
    with (without_images m1 :: without_images m2 :: map without_images rest).
  rewrite formatConversation_turns.
  apply (format_turns_without_images (m1 :: m2 :: rest)).
Qed.

Lemma split_system_without_images (msgs : list OpenAIMessage) :
  forall sp conv,
    split_system (map without_images msgs) sp (map without_images conv) =
    (fst (split_system msgs sp conv), map without_images (snd (split_system msgs sp conv))).
Proof.
  induction msgs as [|m msgs IH]; intros sp conv; [reflexivity|]. simpl.
  destruct (role_eqb (role m) system).
  - rewrite getTextContent_text_only. apply IH.
  - rewrite <- IH, map_app. reflexivity.
Qed.

(** X5.  Parts that are not text never reach the output: flattening a
    request gives the same result, prompt and system prompt, as flattening
    it with every part of a type other than text taken out of the contents
    of its messages. *)
Theorem images_are_silently_dropped :
  forall request : OpenAIChatRequest,
    convertOpenAIToClaude
      (mkRequest (model request) (map without_images (messages request)) (stream request)) =
    convertOpenAIToClaude request.
Proof.
  intros request. unfold convertOpenAIToClaude. cbn [messages].
  destruct (messages request) as [|m0 ms]; [reflexivity|].
  change (map without_images (m0 :: ms))
    with (without_images m0 :: map without_images ms) at 1.
  cbv iota.
  change (without_images m0 :: map without_images ms) with (map without_images (m0 :: ms)).
  change (@nil OpenAIMessage) with (map without_images []) at 1.
  rewrite split_system_without_images.
  destruct (split_system (m0 :: ms) None []) as [sp conv]. cbn [fst snd].
  destruct conv as [|c [|c' conv]].
  - reflexivity.
  - cbn [map]. cbn [without_images role content].
    destruct (role_eqb (role c) user).
    + now rewrite getTextContent_text_only.
    + f_equal. f_equal. apply (formatConversation_without_images [c]).
  - f_equal. f_equal. apply (formatConversation_without_images (c :: c' :: conv)).
Qed.

(** ** Request validation *)

Lemma existsb_eqb_In (r : string) (l : list string) :
  existsb (String.eqb r) l = true <-> In r l.
Proof.
  rewrite existsb_exists. split.
  - intros (x & Hx & Heq). apply String.eqb_eq in Heq. now subst.
  - intros Hin. exists r. split; [exact Hin | apply String.eqb_refl].
Qed.

Lemma validate_message_ok (i : nat) (msg : json) :
  validate_message i msg = None <-> message_ok msg.
Proof.
  unfold validate_message, message_ok. split.
  - destruct msg as [| | | |items|fields]; try discriminate.
    destruct (get "role" fields) as [[| | |r| |]|] eqn:Hrole; try discriminate.
    destruct (existsb (String.eqb r) _) eqn:Hr; [|discriminate].
    apply existsb_eqb_In in Hr.
    destruct (get "content" fields) as [[| | |s|items|]|] eqn:Hcontent; try discriminate;
      intros _; exists fields, r; repeat split; eauto.
  - intros (fields & r & -> & Hrole & Hr & Hcontent).
    rewrite Hrole. apply existsb_eqb_In in Hr. rewrite Hr.
    destruct Hcontent as [-> | [[s ->] | [items ->]]]; reflexivity.
Qed.

Lemma validate_message_names_index (i : nat) (msg : json) (e : Exn) :
  validate_message i msg = Some e ->
  exists rest,
    e = ValidationError ("messages[" +:+ pretty (Z.of_nat i) +:+ "]" +:+ rest).
Proof.
  unfold validate_message. intros H.
  assert (Hfmt : forall s t : string,
             "messages[" +:+ pretty (Z.of_nat i) +:+ String "]"%char s = t ->
             "messages[" +:+ pretty (Z.of_nat i) +:+ "]" +:+ s = t) by (intros s t <-; reflexivity).
  destruct msg as [| | | |items|fields];
    try (injection H as <-; eexists; f_equal; symmetry; apply Hfmt; reflexivity).
  destruct (get "role" fields) as [[| | |r| |]|];
    try (injection H as <-; eexists; f_equal; symmetry; apply Hfmt; reflexivity).
  destruct (existsb (String.eqb r) _);
    [|injection H as <-; eexists; f_equal; symmetry; apply Hfmt; reflexivity].
  destruct (get "content" fields) as [[| | |s|items|]|]; try discriminate;
    injection H as <-; eexists; f_equal; symmetry; apply Hfmt; reflexivity.
Qed.

Lemma validate_messages_ok (msgs : list json) :
  forall i, validate_messages i msgs = None <-> Forall message_ok msgs.
Proof.
  induction msgs as [|msg msgs IH]; intros i; simpl.
  - split; [constructor | reflexivity].
  - destruct (validate_message i msg) as [e|] eqn:Hmsg.
    + split; [discriminate|]. intros H. inversion H as [|? ? Hok _]; subst.
      apply (validate_message_ok i) in Hok. congruence.
    + rewrite IH. split.
      * intros H. constructor; [now apply (validate_message_ok i) | exact H].
      * intros H. now inversion H.
Qed.

Lemma validate_messages_first_bad (good : list json) (bad : json) (rest : list json) :
  forall i,
    Forall message_ok good ->
    validate_messages i (good ++ bad :: rest) =
    match validate_message (i + List.length good) bad with
    | Some e => Some e
    | None => validate_messages (S (i + List.length good)) rest
    end.
Proof.
  induction good as [|g good IH]; intros i Hgood; simpl.
  - now rewrite Nat.add_0_r.
  - inversion Hgood as [|? ? Hg Hrest]; subst.
    apply (validate_message_ok i) in Hg. rewrite Hg, IH by exact Hrest.
    now rewrite Nat.add_succ_comm.
Qed.

Lemma validateRequest_accepts (body : json) :
  validateRequest body = inr body <-> body_ok body.
Proof.
  unfold validateRequest, body_ok. split.
  - destruct body as [| | | |items|fields]; try discriminate.
    destruct (get "messages" fields) as [[| | | |[|m msgs]|]|] eqn:Hm; try discriminate.
    destruct (validate_messages 0 (m :: msgs)) eqn:Hv; [discriminate|].
    intros _. exists fields, (m :: msgs).
    split; [reflexivity|]. split; [exact Hm|]. split; [discriminate|].
    now apply (validate_messages_ok _ 0).
  - intros (fields & msgs & -> & Hm & Hne & Hall). rewrite Hm.
    destruct msgs as [|m msgs]; [now contradiction Hne|].
    apply (validate_messages_ok _ 0) in Hall. now rewrite Hall.
Qed.

(** X8.  What validateRequest accepts: exactly the bodies that are an
    object whose messages property is a non-empty array of objects, each
    with a role among system, user, assistant and tool and a content that
    is null, a string or an array (a missing content is refused); nothing
    else of the body is looked at, and an accepted body is returned as it
    is. *)
Theorem validateRequest_accepts_exactly_well_formed_bodies :
  forall body : json,
    (validateRequest body = inr body <-> body_ok body) /\
    (forall b, validateRequest body = inr b -> b = body).
Proof.
  intros body. split; [apply validateRequest_accepts|].
  unfold validateRequest. intros b.
  destruct body as [| | | |items|fields]; try discriminate.
  destruct (get "messages" fields) as [[| | | |[|m msgs]|]|]; try discriminate.
  destruct (validate_messages 0 (m :: msgs)); [discriminate|]. now intros [= <-].
Qed.

Lemma validate_messages_error (msgs : list json) :
  forall i e, validate_messages i msgs = Some e -> exists message, e = ValidationError message.
Proof.
  induction msgs as [|msg msgs IH]; intros i e H; simpl in H; [discriminate|].
  destruct (validate_message i msg) as [e'|] eqn:Hmsg.
  - injection H as <-. destruct (validate_message_names_index i msg e' Hmsg) as [rest ->].
    eauto.
  - eapply IH, H.
Qed.

(** X9.  validateRequest throws nothing but a ValidationError, which the
    error handler answers with status 400, type and code
    invalid_request_error, and the message of the error unchanged. *)
Theorem validation_failures_are_answered_400 :
  forall body : json,
    match validateRequest body with
    | inl e =>
        exists message,
          e = ValidationError message /\
          errorHandler e =
          (400, mkErrorBody message "invalid_request_error" "invalid_request_error")
    | inr b => b = body
    end.
Proof.
  intros body. unfold validateRequest.
  destruct body as [| | | |items|fields]; try (eexists; split; reflexivity).
  destruct (get "messages" fields) as [[| | | |[|m msgs]|]|];
    try (eexists; split; reflexivity).
  destruct (validate_messages 0 (m :: msgs)) as [e|] eqn:Hv; [|reflexivity].
  destruct (validate_messages_error _ _ _ Hv) as [message ->].
  exists message. split; reflexivity.
Qed.

(** X10.  The error of validateRequest names the first element of messages
    that is not well formed: when the elements before index i are well
    formed and the element at index i is not, the message of the error
    starts with messages[i], whatever follows that element. *)
Theorem validation_error_names_first_bad_index :
  forall (fields : list (string * json)) (good : list json) (bad : json) (rest : list json),
    get "messages" fields = Some (JArr (good ++ bad :: rest)) ->
    Forall message_ok good ->
    ~ message_ok bad ->
    exists detail,
      validateRequest (JObj fields) =
      inl (ValidationError
             ("messages[" +:+ pretty (Z.of_nat (List.length good)) +:+ "]" +:+ detail)).
Proof.
  intros fields good bad rest Hm Hgood Hbad.
  unfold validateRequest. rewrite Hm.
  pose proof (validate_messages_first_bad good bad rest 0 Hgood) as Hv. simpl in Hv.
  destruct (validate_message (List.length good) bad) as [e|] eqn:Hmsg.
  - destruct (validate_message_names_index _ _ _ Hmsg) as [detail ->].
    exists detail. rewrite Hv. now destruct good.
  - apply validate_message_ok in Hmsg. contradiction.
Qed.

Lemma validation_error_names_first_bad_index_witness :
  exists detail,
    validateRequest
      (JObj [("model", JStr "sonnet");
             ("messages",
              JArr [JObj [("role", JStr "user"); ("content", JStr "Hi")];
                    JObj [("role", JStr "user")];
                    JNum 7])]) =
    inl (ValidationError ("messages[1]" +:+ detail)).
Proof.
  apply (validation_error_names_first_bad_index
           [("model", JStr "sonnet");
            ("messages",
             JArr [JObj [("role", JStr "user"); ("content", JStr "Hi")];
                   JObj [("role", JStr "user")];
                   JNum 7])]
           [JObj [("role", JStr "user"); ("content", JStr "Hi")]]
           (JObj [("role", JStr "user")])
           [JNum 7]).
  - reflexivity.
  - constructor; [|constructor].
    exists [("role", JStr "user"); ("content", JStr "Hi")], "user".
    repeat split; [right; left; reflexivity | right; left; now exists "Hi"].
  - intros Hok. apply (validate_message_ok 0) in Hok. discriminate.
Defined.

Lemma typed_message_is_well_formed (i : nat) (m : OpenAIMessage) :
  validate_message i (message_json m) = None.
Proof.
  destruct m as [r c nm tcs tcid].
  destruct r, c, nm, tcs, tcid; reflexivity.
Qed.

Lemma typed_messages_are_well_formed (msgs : list OpenAIMessage) :
  forall i, validate_messages i (map message_json msgs) = None.
Proof.
  induction msgs as [|m msgs IH]; intros i; [reflexivity|].
  cbn [map validate_messages]. rewrite typed_message_is_well_formed. apply IH.
Qed.

(** X6.  Between validation and flattening: the body of a request of the
    declared type passes validateRequest exactly when its message list is
    not empty, and then convertOpenAIToClaude does not throw; so on the
    route, where validation comes first, the defensive throw of the
    converter is never reached. *)
Theorem validated_requests_are_flattened :
  forall request : OpenAIChatRequest,
    match messages request with
    | [] =>
        validateRequest (request_json request) =
        inl (ValidationError "messages array cannot be empty") /\
        convertOpenAIToClaude request =
        inl (Error "Messages array is required and cannot be empty")
    | _ =>
        validateRequest (request_json request) = inr (request_json request) /\
        exists p, convertOpenAIToClaude request = inr p
    end.
Proof.
  intros [mdl msgs strm]. cbn [messages].
  destruct msgs as [|m msgs].
  - split; [destruct mdl, strm; reflexivity | reflexivity].
  - split.
    + pose proof (typed_messages_are_well_formed (m :: msgs) 0) as Hv.
      unfold validateRequest, request_json. cbn [model messages stream].
      destruct mdl, strm; cbn -[validate_messages map]; cbn [map] in *; rewrite Hv;
        reflexivity.
    + unfold convertOpenAIToClaude. cbn [messages].
      destruct (split_system (m :: msgs) None []) as [sp [|c [|c' conv]]]; eauto.
      destruct (role_eqb (role c) user); eauto.
Qed.

(** ** Authentication *)

Lemma charCode_inj (x y : ascii) : charCode x = charCode y -> x = y.
Proof.
  unfold charCode. intros H. apply Nat2Z.inj in H.
  rewrite <- (ascii_nat_embedding x), <- (ascii_nat_embedding y). now rewrite H.
Qed.

Lemma timingSafeEqual_loop_zero (a : string) :
  forall (b : string) (r : Z),
    String.length a = String.length b ->
    (timingSafeEqual_loop a b r = 0 <-> r = 0 /\ a = b).
Proof.
  induction a as [|x a IH]; intros [|y b] r Hlen; try discriminate; simpl.
  - tauto.
  - injection Hlen as Hlen. rewrite (IH b _ Hlen), Z.lor_eq_0_iff. split.
    + intros [[Hr Hx] Hab]. split; [exact Hr|].
      apply Z.lxor_eq, charCode_inj in Hx. now subst.
    + intros [Hr Heq]. injection Heq as -> ->.
      now rewrite Z.lxor_nilpotent.
Qed.

Lemma timingSafeEqual_decides_equality_aux (a b : string) :
  timingSafeEqual a b = true <-> a = b.
Proof.
  unfold timingSafeEqual.
  destruct (String.length a =? String.length b)%nat eqn:Hlen; simpl.
  - apply Nat.eqb_eq in Hlen. rewrite Z.eqb_eq, (timingSafeEqual_loop_zero a b 0 Hlen).
    tauto.
  - split; [discriminate|]. intros ->. rewrite Nat.eqb_refl in Hlen. discriminate.
Qed.

(** X11.  timingSafeEqual decides equality: it answers true exactly when
    its two arguments are the same string. *)
Theorem timingSafeEqual_decides_equality :
  forall a b : string, timingSafeEqual a b = true <-> a = b.
Proof. exact timingSafeEqual_decides_equality_aux. Qed.

Lemma split_on_nonempty (sep : ascii) (s : string) : split_on sep s <> [].
Proof.
  destruct s as [|c s]; simpl; [discriminate|].
  destruct (Ascii.eqb c sep); [discriminate|].
  destruct (split_on sep s); discriminate.
Qed.

Lemma split_on_join (sep : ascii) (s : string) :
  join (String sep EmptyString) (split_on sep s) = s.
Proof.
  induction s as [|c s IH]; [reflexivity|]. simpl.
  destruct (Ascii.eqb c sep) eqn:Hc.
  - apply Ascii.eqb_eq in Hc. subst c.
    pose proof (split_on_nonempty sep s) as Hne.
    destruct (split_on sep s) as [|x xs]; [now contradiction Hne|].
    rewrite join_cons, IH. reflexivity.
  - pose proof (split_on_nonempty sep s) as Hne.
    destruct (split_on sep s) as [|x xs]; [now contradiction Hne|].
    destruct xs as [|x' xs].
    + simpl in *. now rewrite IH.
    + rewrite join_cons in *. rewrite append_cons, IH. reflexivity.
Qed.

Lemma split_on_pieces (sep : ascii) (s : string) :
  Forall (fun piece => has_char sep piece = false) (split_on sep s).
Proof.
  induction s as [|c s IH]; simpl; [repeat constructor|].
  destruct (Ascii.eqb c sep) eqn:Hc; [now constructor|].
  destruct (split_on sep s) as [|x xs]; [repeat constructor; simpl; now rewrite Hc|].
  inversion IH as [|? ? Hx Hxs]; subst. constructor; [|exact Hxs].
  simpl. now rewrite Hc.
Qed.

Lemma split_on_without_separator (sep : ascii) (s : string) :
  has_char sep s = false -> split_on sep s = [s].
Proof.
  induction s as [|c s IH]; [reflexivity|]. simpl. intros H.
  apply orb_false_iff in H as [Hc Hs]. rewrite Hc, (IH Hs). reflexivity.
Qed.

Lemma split_on_bearer (token : string) :
  has_char " "%char token = false ->
  split_on " "%char ("Bearer " +:+ token) = ["Bearer"; token].
Proof.
  intros H. pose proof (split_on_without_separator " "%char token H) as Hs.
  change ("Bearer " +:+ token)
    with (String "B" (String "e" (String "a" (String "r" (String "e" (String "r"
            (String " " token))))))).
  simpl. rewrite Hs. reflexivity.
Qed.

(** X12.  Who passes authMiddleware: a request is handed on exactly when
    its path is /health or its Authorization header is the word Bearer, one
    space and the configured secret, the secret holding no space; so a
    secret with a space in it lets nothing but /health through. *)
Theorem authMiddleware_lets_through_exactly_the_bearer_of_the_secret :
  forall (apiSecret : string) (req : AuthRequest),
    authMiddleware apiSecret req = Next <->
    req_path req = "/health" \/
    (authorization req = Some ("Bearer " +:+ apiSecret) /\
     has_char " "%char apiSecret = false).
Proof.
  intros apiSecret [path auth]. unfold authMiddleware. cbn [req_path authorization].
  destruct (String.eqb path "/health") eqn:Hpath.
  { apply String.eqb_eq in Hpath. tauto. }
  apply String.eqb_neq in Hpath.
  destruct auth as [h|]; [|simpl; split; [discriminate | intros [?|[? _]]; congruence]].
  destruct (truthy h) eqn:Hh;
    [|simpl; rewrite Hh; split; [discriminate|];
      intros [?|[Heq _]]; [congruence|]; injection Heq as ->; discriminate].
  cbn [truthy_opt negb default]. rewrite Hh. cbn [negb]. change (id h) with h.
  split.
  - pose proof (split_on_join " "%char h) as Hjoin.
    pose proof (split_on_pieces " "%char h) as Hpieces.
    destruct (split_on " "%char h) as [|scheme [|token [|x xs]]]; try discriminate.
    destruct (String.eqb scheme "Bearer") eqn:Hscheme; [|discriminate].
    destruct (timingSafeEqual token apiSecret) eqn:Htoken; [|discriminate].
    intros _. right.
    apply String.eqb_eq in Hscheme. apply timingSafeEqual_decides_equality_aux in Htoken.
    subst scheme token. inversion Hpieces as [|? ? _ Hrest].
    inversion Hrest as [|? ? Htok _].
    split; [|exact Htok]. rewrite <- Hjoin. reflexivity.
  - intros [?|[Heq Hsp]]; [congruence|]. injection Heq as ->.
    rewrite (split_on_bearer apiSecret Hsp). cbn [String.eqb negb].
    replace (String.eqb "Bearer" "Bearer") with true by reflexivity. cbn [negb].
    replace (timingSafeEqual apiSecret apiSecret) with true; [reflexivity|].
    symmetry. now apply timingSafeEqual_decides_equality_aux.
Qed.

(** ** Model names *)

(** X13.  The model handed to the SDK: whatever name is requested, it is
    opus, sonnet or haiku, namely the value MODEL_MAP holds under the name
    and sonnet when it holds none, unless the name is one that
    Object.prototype defines (constructor, toString, ...), for which the
    lookup yields a value that is not a string and the default does not
    apply.  Without a model, or with the empty one, the request is served
    as claude-sonnet-4-5 by sonnet. *)
Theorem sdk_model_is_a_tier_unless_inherited :
  forall requested : string,
    match sdkModel requested with
    | SdkName n =>
        In n ["opus"; "sonnet"; "haiku"] /\
        n = default "sonnet" (own_property requested MODEL_MAP)
    | NotAString =>
        own_property requested MODEL_MAP = None /\
        In requested object_prototype_names
    end /\
    requestedModel None = "claude-sonnet-4-5" /\
    requestedModel (Some EmptyString) = "claude-sonnet-4-5" /\
    sdkModel "claude-sonnet-4-5" = SdkName "sonnet".
Proof.
  intros requested. split; [|repeat split].
  unfold sdkModel, MODEL_MAP_get.
  destruct (own_property requested MODEL_MAP) as [v|] eqn:Hown.
  - assert (Hv : In v ["opus"; "sonnet"; "haiku"]).
    { unfold MODEL_MAP in Hown. simpl in Hown.
      repeat match type of Hown with
             | (if ?c then _ else _) = _ =>
                 destruct c; [injection Hown as <-; simpl; tauto|]
             end.
      discriminate. }
    assert (Ht : truthy v = true) by (destruct Hv as [<-|[<-|[<-|[]]]]; reflexivity).
    rewrite Ht. split; [exact Hv | reflexivity].
  - destruct (existsb (String.eqb requested) object_prototype_names) eqn:Hex.
    + split; [reflexivity | now apply existsb_eqb_In].
    + split; [simpl; tauto | reflexivity].
Qed.

(** X14.  The models routes agree with each other and with MODEL_MAP:
    GET /models/:id answers a model, the one with that id, exactly for the
    ids GET /models lists, and otherwise a 404 with code model_not_found
    and param model; every listed id is served by the chat route with the
    tier in its name; and the other keys of MODEL_MAP, the aliases, are
    served by the chat route although GET /models/:id answers them 404. *)
Theorem models_routes_are_consistent :
  forall (created : Z) (id : string),
    match getModel created id with
    | inr m => In m (listModels created) /\ model_id m = id
    | inl (status, err) =>
        ~ In id (map model_id (listModels created)) /\
        status = 404 /\
        err = mkModelError ("Model '" +:+ id +:+ "' not found")
                "invalid_request_error" (Some "model") "model_not_found"
    end /\
    Forall (fun m => exists tier,
                sdkModel (model_id m) = SdkName tier /\
                model_id m = "claude-" +:+ tier +:+ "-4-5")
      (listModels created) /\
    Forall (fun alias =>
              (exists tier, sdkModel alias = SdkName tier) /\
              (exists err, getModel created alias = inl (404, err)))
      model_aliases.
Proof.
  intros created id. split; [|split].
  - unfold getModel, listModels.
    destruct (List.find _ (MODELS created)) as [m|] eqn:Hfind.
    + apply find_some in Hfind as [Hin Hid]. apply String.eqb_eq in Hid. now split.
    + split; [|split; reflexivity].
      intros Hin. apply in_map_iff in Hin as (m & Hid & Hin).
      apply (find_none _ _ Hfind) in Hin. rewrite Hid, String.eqb_refl in Hin.
      discriminate.
  - repeat constructor; eexists; split; reflexivity.
  - repeat constructor; eexists; reflexivity.
Qed.

(** ** Configuration *)

Lemma parsePermissionMode_valid (value : string) :
  match parsePermissionMode value with
  | inr mode => mode_string mode = value
  | inl e =>
      ~ In value ["default"; "acceptEdits"; "bypassPermissions"; "plan"] /\
      e = Error ("Invalid PERMISSION_MODE: " +:+ value +:+
                 ". Must be one of: default, acceptEdits, bypassPermissions, plan")
  end.
Proof.
  unfold parsePermissionMode.
  destruct (String.eqb value "default") eqn:H1;
    [apply String.eqb_eq in H1; now subst|].
  destruct (String.eqb value "acceptEdits") eqn:H2;
    [apply String.eqb_eq in H2; now subst|].
  destruct (String.eqb value "bypassPermissions") eqn:H3;
    [apply String.eqb_eq in H3; now subst|].
  destruct (String.eqb value "plan") eqn:H4;
    [apply String.eqb_eq in H4; now subst|].
  apply String.eqb_neq in H1, H2, H3, H4.
  split; [|reflexivity]. simpl. intros [?|[?|[?|[?|[]]]]]; congruence.
Qed.

(** X15.  When loadConfig throws: exactly when API_SECRET is unset or
    empty, the error then naming that variable, or else when the value of
    PERMISSION_MODE (acceptEdits when it is unset or empty) is none of
    default, acceptEdits, bypassPermissions and plan, the error then naming
    that value.  A PORT or MAX_TURNS that is not a number does not make it
    throw. *)
Theorem loadConfig_throws_without_secret_or_on_unknown_mode :
  forall (parseInt : string -> option Z) (trim toLowerCase : string -> string)
         (cwd : string) (env : gmap string string) (e : Exn),
    loadConfig parseInt trim toLowerCase cwd env = inl e <->
    (truthy_opt (env !! "API_SECRET") = false /\
     e = Error "Missing required environment variable: API_SECRET") \/
    (truthy_opt (env !! "API_SECRET") = true /\
     ~ In (getEnvOrDefault env "PERMISSION_MODE" "acceptEdits")
          ["default"; "acceptEdits"; "bypassPermissions"; "plan"] /\
     e = Error ("Invalid PERMISSION_MODE: " +:+
                getEnvOrDefault env "PERMISSION_MODE" "acceptEdits" +:+
                ". Must be one of: default, acceptEdits, bypassPermissions, plan")).
Proof.
  intros parseInt trim toLowerCase cwd env e.
  unfold loadConfig, getEnvOrThrow. cbv zeta.
  destruct (truthy_opt (env !! "API_SECRET")) eqn:Hsecret.
  - pose proof (parsePermissionMode_valid
                  (getEnvOrDefault env "PERMISSION_MODE" "acceptEdits")) as Hmode.
    destruct (parsePermissionMode _) as [e'|mode].
    + destruct Hmode as [Hnot ->]. split.
      * intros [= <-]. right. repeat split. exact Hnot.
      * intros [[? _]|(_ & _ & ->)]; [discriminate | reflexivity].
    + split; [discriminate|].
      intros [[? _]|(_ & Hnot & _)]; [discriminate|].
      exfalso. apply Hnot. rewrite <- Hmode. destruct mode; simpl; tauto.
  - split.
    + intros [= <-]. left. split; reflexivity.
    + intros [[_ ->]|[? _]]; [reflexivity | discriminate].
Qed.

Lemma mapPermissionMode_mode_string (mode : PermissionMode) :
  mapPermissionMode mode = mode_string mode.
Proof. now destruct mode. Qed.

Lemma loadConfig_loaded (parseInt : string -> option Z) (trim toLowerCase : string -> string)
    (cwd : string) (env : gmap string string) (cfg : Config) :
  loadConfig parseInt trim toLowerCase cwd env = inr cfg ->
  env !! "API_SECRET" = Some (apiSecret cfg) /\
  truthy (apiSecret cfg) = true /\
  mode_string (permissionMode cfg) = getEnvOrDefault env "PERMISSION_MODE" "acceptEdits" /\
  Forall (fun tool => tool <> EmptyString) (allowedTools cfg).
Proof.
  unfold loadConfig, getEnvOrThrow. cbv zeta.
  destruct (truthy_opt (env !! "API_SECRET")) eqn:Hsecret; [|discriminate].
  pose proof (parsePermissionMode_valid
                (getEnvOrDefault env "PERMISSION_MODE" "acceptEdits")) as Hmode.
  destruct (parsePermissionMode _) as [e'|mode]; [discriminate|].
  intros [= <-]. cbn [apiSecret permissionMode allowedTools].
  destruct (env !! "API_SECRET") as [secret|]; [|discriminate].
  repeat split; try assumption.
  apply Forall_forall. intros tool Hin.
  apply list_elem_of_In, filter_In in Hin as [_ Hlen].
  intros ->. discriminate.
Qed.

(** X16.  What a loaded configuration holds: the secret is the value of
    API_SECRET and is not empty; the permission mode is the value of
    PERMISSION_MODE (acceptEdits by default) and mapPermissionMode hands
    the SDK that very string; and no allowed tool is the empty string,
    whatever ALLOWED_TOOLS holds between its commas. *)
Theorem loaded_config_has_secret_mode_and_named_tools :
  forall (parseInt : string -> option Z) (trim toLowerCase : string -> string)
         (cwd : string) (env : gmap string string),
    match loadConfig parseInt trim toLowerCase cwd env with
    | inr cfg =>
        env !! "API_SECRET" = Some (apiSecret cfg) /\
        apiSecret cfg <> EmptyString /\
        mapPermissionMode (permissionMode cfg) =
          getEnvOrDefault env "PERMISSION_MODE" "acceptEdits" /\
        In (getEnvOrDefault env "PERMISSION_MODE" "acceptEdits")
          ["default"; "acceptEdits"; "bypassPermissions"; "plan"] /\
        Forall (fun tool => tool <> EmptyString) (allowedTools cfg)
    | inl _ => True
    end.
Proof.
  intros parseInt trim toLowerCase cwd env.
  destruct (loadConfig parseInt trim toLowerCase cwd env) as [e|cfg] eqn:Hload; [exact I|].
  destruct (loadConfig_loaded _ _ _ _ _ _ Hload) as (Hs & Ht & Hm & Htools).
  split; [exact Hs|]. split; [intros H; rewrite H in Ht; discriminate|].
  split; [now rewrite mapPermissionMode_mode_string|]. split; [|exact Htools].
  rewrite <- Hm. destruct (permissionMode cfg); simpl; tauto.
Qed.

(** X17.  An empty token is never accepted: with a loaded configuration,
    a request to a path other than /health whose Authorization header is
    the word Bearer and one space, and no token after it, is answered 401
    invalid_api_key. *)
Theorem empty_bearer_token_is_refused :
  forall (parseInt : string -> option Z) (trim toLowerCase : string -> string)
         (cwd : string) (env : gmap string string) (path : string),
    match loadConfig parseInt trim toLowerCase cwd env with
    | inr cfg =>
        authMiddleware (apiSecret cfg) (mkAuthRequest path (Some "Bearer ")) =
        if String.eqb path "/health" then Next
        else Reply 401 (mkErrorBody "Invalid API key"
                          "invalid_request_error" "invalid_api_key")
    | inl _ => True
    end.
Proof.
  intros parseInt trim toLowerCase cwd env path.
  destruct (loadConfig parseInt trim toLowerCase cwd env) as [e|cfg] eqn:Hload; [exact I|].
  destruct (loadConfig_loaded _ _ _ _ _ _ Hload) as (_ & Ht & _).
  unfold authMiddleware. cbn [req_path authorization].
  destruct (String.eqb path "/health"); [reflexivity|].
  destruct (apiSecret cfg) as [|c secret]; [discriminate|]. reflexivity.
Qed.

(** ** The call of the SDK *)

(** X18.  The options the SDK is called with: the permission mode is the
    configured one; a system prompt and a model are passed on only when
    they are not empty; and when tool execution is off, the turn limit is 1
    whatever the configured limit, and the canUseTool callback denies every
    tool, while otherwise the configured limit is used and there is no
    callback.  The agent yields what the SDK yields and throws what it
    throws. *)
Theorem sdk_is_called_with_one_turn_and_deny_when_tools_are_off :
  forall (config : Config) (query : SdkQuery -> AgentRun) (options : AgentOptions),
    let qo := queryOptions config options in
    queryClaudeAgent config query options =
      query (mkSdkQuery (opt_prompt options) qo) /\
    qo_permissionMode qo = mode_string (permissionMode config) /\
    qo_systemPrompt qo =
      (if truthy_opt (opt_systemPrompt options) then opt_systemPrompt options else None) /\
    qo_systemPrompt qo <> Some EmptyString /\
    qo_model qo <> Some EmptyString /\
    match opt_noToolExecution options with
    | Some true =>
        qo_maxTurns qo = Some 1 /\
        exists canUseTool,
          qo_canUseTool qo = Some canUseTool /\
          forall toolName toolInput,
            canUseTool toolName toolInput =
            Deny "Tool execution disabled - returning tool call to client"
    | _ => qo_maxTurns qo = maxTurns config /\ qo_canUseTool qo = None
    end.
Proof.
  intros config query options qo. subst qo. unfold queryClaudeAgent, queryOptions.
  cbn [qo_permissionMode qo_systemPrompt qo_model qo_maxTurns qo_canUseTool].
  split; [now destruct (query _)|].
  split; [apply mapPermissionMode_mode_string|]. split; [reflexivity|].
  split; [destruct (opt_systemPrompt options) as [[|c s]|]; discriminate|].
  split; [destruct (opt_model options) as [[|c s]|]; discriminate|].
  destruct (opt_noToolExecution options) as [[|]|]; simpl; try (split; reflexivity).
  split; [reflexivity|]. eexists. split; reflexivity.
Qed.

(** ** The names of the client tools *)

(** X19.  getMcpToolNames gives one name per tool, in order, each the tool
    name behind the prefix mcp__client-tools__, and it joins no two tools:
    the names it gives are pairwise distinct exactly when the tool names
    are. *)
Theorem mcp_tool_names_are_prefixed_and_distinct :
  forall tools : list OpenAITool,
    getMcpToolNames tools =
      map (fun t => "mcp__client-tools__" +:+ tool_name t) tools /\
    (NoDup (getMcpToolNames tools) <-> NoDup (map tool_name tools)).
Proof.
  intros tools.
  assert (Heq : getMcpToolNames tools =
                map (fun t => "mcp__client-tools__" +:+ tool_name t) tools)
    by (now destruct tools).
  split; [exact Heq|]. rewrite Heq. clear Heq.
  rewrite <- (map_map tool_name (fun n => "mcp__client-tools__" +:+ n)).
  assert (Hinj : forall a b : string,
             "mcp__client-tools__" +:+ a = "mcp__client-tools__" +:+ b -> a = b)
    by (intros a b H; now apply (inj (String.append "mcp__client-tools__")) in H).
  induction (map tool_name tools) as [|n ns IH]; simpl.
  - split; constructor.
  - rewrite !NoDup_cons, IH. split; intros [Hnotin Hnd]; split; try exact Hnd.
    + intros Hin. apply Hnotin. apply list_elem_of_In, in_map, list_elem_of_In. exact Hin.
    + intros Hin. apply list_elem_of_In, in_map_iff in Hin as (x & Hx & Hin).
      apply Hinj in Hx. subst x. apply Hnotin. now apply list_elem_of_In.
Qed.

(** ** Tool calls extracted, continued *)

Lemma assign_ids_never_empty (entropy : nat -> string) (bs : list ClaudeContentBlock) :
  forall k,
    Forall (fun b => is_tool_call b = true) bs ->
    Forall (fun tc => tc_id tc <> EmptyString /\ fn_name (tc_function tc) <> EmptyString)
      (assign_ids entropy k bs).
Proof.
  induction bs as [|b bs IH]; intros k Hall; simpl; [constructor|].
  inversion Hall as [|? ? Hb Hbs]; subst.
  assert (Hname : default EmptyString (block_name b) <> EmptyString).
  { unfold is_tool_call in Hb. apply andb_true_iff in Hb as [_ Hb].
    destruct (block_name b) as [[|c s]|]; discriminate. }
  destruct (truthy_opt (block_id b)) eqn:Hid; constructor; try (now apply IH).
  - split; [|exact Hname]. destruct (block_id b) as [[|c s]|]; discriminate.
  - split; [discriminate | exact Hname].
Qed.

(** X20.  No tool call extracted has an empty id or an empty name: the id
    is the block's non-empty id or a synthesized one, and a block without a
    name yields no tool call. *)
Theorem extracted_tool_calls_have_id_and_name :
  forall (message : ClaudeMessage) (w : World),
    Forall (fun tc => tc_id tc <> EmptyString /\ fn_name (tc_function tc) <> EmptyString)
      (toolCalls (fst (extractContent message w))).
Proof.
  intros message w. rewrite extractContent_reference. cbn [fst content_of toolCalls].
  apply assign_ids_never_empty, Forall_forall. intros b Hb.
  apply list_elem_of_In, filter_In in Hb. tauto.
Qed.

(** ** The non-streaming handler, continued *)



(** ** The body of a stream *)

Lemma delta_tool_call_full (i : nat) (tc : OpenAIToolCall) :
  delta_tool_call (full_tool_call_delta i tc) = Some tc.
Proof. now destruct tc as [id [name arguments]]. Qed.

Lemma omap_delta_tool_call (tcs : list OpenAIToolCall) :
  forall g : nat -> OpenAIToolCall -> OpenAIToolCallDelta,
    (forall i tc, delta_tool_call (g i tc) = Some tc) ->
    omap delta_tool_call (imap g tcs) = tcs.
Proof.
  induction tcs as [|tc tcs IH]; intros g Hg; [reflexivity|].
  cbn [imap omap list_omap]. rewrite Hg. f_equal. apply IH. intros i x. apply Hg.
Qed.

Lemma chunk_tool_calls_tool_calls_chunk (id model : string) (created : Z)
    (tcs : list OpenAIToolCall) :
  chunk_tool_calls (tool_calls_chunk id created model tcs) = Some tcs.
Proof.
  unfold chunk_tool_calls, tool_calls_chunk. cbn [chunk_choices ck_delta delta_tool_calls].
  f_equal. apply omap_delta_tool_call, delta_tool_call_full.
Qed.

Lemma filter_fresh_ext (sent : gset string) (earlier : list string)
    (tcs : list OpenAIToolCall) :
  (forall i, i ∈ sent <-> i ∈ earlier) ->
  List.filter (fun tc => negb (bool_decide (tc_id tc ∈ sent))) tcs =
  List.filter (fun tc => negb (bool_decide (tc_id tc ∈ earlier))) tcs.
Proof.
  intros Hsent. apply List.filter_ext. intros tc.
  now rewrite (bool_decide_ext _ _ (Hsent (tc_id tc))).
Qed.

Lemma elem_of_sent_ids (new : list OpenAIToolCall) :
  forall (sent : gset string) (i : string),
    i ∈ foldl (fun s tc => s ∪ {[tc_id tc]}) sent new <-> i ∈ map tc_id new \/ i ∈ sent.
Proof.
  induction new as [|tc new IH]; intros sent i; simpl.
  - rewrite elem_of_nil. tauto.
  - rewrite IH, elem_of_union, elem_of_singleton, elem_of_cons. tauto.
Qed.

(** What one turn of the loop on an assistant message sends and keeps. *)
Lemma stream_message_turn (cid rm : string) (st : StreamCursor) (m : ClaudeMessage)
    (w : World) (earlier : list string) :
  (forall i, i ∈ sentToolCallIds st <-> i ∈ earlier) ->
  isAssistantMessage m = true ->
  let c := content_of (entropy w) (drawn w) m in
  let new := List.filter (fun tc => negb (bool_decide (tc_id tc ∈ earlier))) (toolCalls c) in
  exists chunks r,
    snd (stream_message cid rm st m w) = advance (synthesized (message_blocks m)) r w /\
    written (cur_res (fst (stream_message cid rm st m w))) =
      written (cur_res st) ++ map chunk_frame chunks /\
    Forall (body_chunk cid rm) chunks /\
    omap chunk_text chunks =
      (if truthy (textContent c) then [textContent c] else []) /\
    omap chunk_tool_calls chunks = match new with [] => [] | _ => [new] end /\
    hasToolCalls (fst (stream_message cid rm st m w)) =
      hasToolCalls st || match toolCalls c with [] => false | _ => true end /\
    (forall i, i ∈ sentToolCallIds (fst (stream_message cid rm st m w)) <->
               i ∈ map tc_id new ++ earlier).
Proof.
  intros Hsent Ha c new.
  rewrite stream_message_reference, Ha. cbv zeta.
  rewrite (filter_fresh_ext _ earlier _ Hsent). fold c. fold new.
  assert (Hnew : toolCalls c = [] -> new = []) by (intros H; subst new; now rewrite H).
  assert (Hcontent : forall t text, truthy text = true ->
            body_chunk cid rm (content_chunk cid t rm text)).
  { intros t text Ht. left. now exists t, text. }
  assert (Htools : forall t x xs,
            body_chunk cid rm (tool_calls_chunk cid t rm (x :: xs))).
  { intros t x xs. right. now exists t, (x :: xs). }
  destruct (truthy (textContent c)) eqn:Htext;
    destruct (toolCalls c) as [|tc tcs] eqn:Hcalls.
  - rewrite (Hnew eq_refl). eexists [_], _. cbn [fst snd cur_res hasToolCalls sentToolCallIds].
    rewrite written_sendChunk, orb_false_r.
    split; [reflexivity|]. split; [reflexivity|].
    split; [constructor; [now apply Hcontent | constructor]|].
    split; [reflexivity|]. split; [reflexivity|]. split; [reflexivity|]. exact Hsent.
  - clear Hnew. destruct new as [|n ns] eqn:Hn.
    + eexists [_], _. cbn [fst snd cur_res hasToolCalls sentToolCallIds].
      rewrite written_sendChunk, orb_true_r.
      split; [reflexivity|]. split; [reflexivity|].
      split; [constructor; [now apply Hcontent | constructor]|].
      split; [reflexivity|]. split; [reflexivity|]. split; [reflexivity|]. exact Hsent.
    + eexists [_; _], _. cbn [fst snd cur_res hasToolCalls sentToolCallIds].
      rewrite !written_sendChunk, <- app_assoc, orb_true_r.
      split; [reflexivity|]. split; [reflexivity|].
      split; [constructor; [now apply Hcontent | constructor; [apply Htools | constructor]]|].
      split; [reflexivity|].
      split; [cbn [omap list_omap]; rewrite chunk_tool_calls_tool_calls_chunk; reflexivity|].
      split; [reflexivity|].
      intros i. rewrite elem_of_sent_ids, elem_of_app, Hsent. reflexivity.
  - rewrite (Hnew eq_refl). exists [], 0%nat. cbn [fst snd cur_res hasToolCalls sentToolCallIds].
    rewrite orb_false_r, app_nil_r.
    split; [reflexivity|]. split; [reflexivity|]. split; [constructor|].
    split; [reflexivity|]. split; [reflexivity|]. split; [reflexivity|]. exact Hsent.
  - clear Hnew. destruct new as [|n ns] eqn:Hn.
    + exists [], 0%nat. cbn [fst snd cur_res hasToolCalls sentToolCallIds].
      rewrite orb_true_r, app_nil_r.
      split; [reflexivity|]. split; [reflexivity|]. split; [constructor|].
      split; [reflexivity|]. split; [reflexivity|]. split; [reflexivity|]. exact Hsent.
    + eexists [_], _. cbn [fst snd cur_res hasToolCalls sentToolCallIds].
      rewrite !written_sendChunk, orb_true_r.
      split; [reflexivity|]. split; [reflexivity|].
      split; [constructor; [apply Htools | constructor]|].
      split; [reflexivity|].
      split; [cbn [omap list_omap]; rewrite chunk_tool_calls_tool_calls_chunk; reflexivity|].
      split; [reflexivity|].
      intros i. rewrite elem_of_sent_ids, elem_of_app, Hsent. reflexivity.
Qed.

(** The loop of handleStreamingRequest sends the non-empty texts of the
    run, one chunk each, and the tool calls not sent before, one chunk a
    message. *)
Lemma stream_messages_reference (cid rm : string) (msgs : list ClaudeMessage) :
  forall (st : StreamCursor) (w : World) (earlier : list string),
    (forall i, i ∈ sentToolCallIds st <-> i ∈ earlier) ->
    exists chunks d r,
      snd (stream_messages cid rm st msgs w) = advance d r w /\
      written (cur_res (fst (stream_messages cid rm st msgs w))) =
        written (cur_res st) ++ map chunk_frame chunks /\
      Forall (body_chunk cid rm) chunks /\
      omap chunk_text chunks = run_texts msgs /\
      omap chunk_tool_calls chunks =
        fresh_batches earlier (run_contents (entropy w) (drawn w) msgs) /\
      hasToolCalls (fst (stream_messages cid rm st msgs w)) =
        hasToolCalls st ||
        match run_tool_calls (entropy w) (drawn w) msgs with [] => false | _ => true end.
Proof.
  induction msgs as [|m msgs IH]; intros st w earlier Hsent.
  - exists [], 0%nat, 0%nat. simpl. rewrite advance_0, app_nil_r, orb_false_r.
    repeat split. constructor.
  - rewrite stream_messages_cons, run_texts_cons, run_tool_calls_cons.
    cbn [run_contents].
    destruct (isAssistantMessage m) eqn:Ha.
    + destruct (stream_message_turn cid rm st m w earlier Hsent Ha)
        as (c1 & r1 & Hw1 & Hwr1 & Hall1 & Ht1 & Htc1 & Hhas1 & Hsent1).
      destruct (stream_message cid rm st m w) as [st1 w1]. cbn [fst snd] in *.
      subst w1.
      destruct (IH st1 (advance (synthesized (message_blocks m)) r1 w) _ Hsent1)
        as (c2 & d2 & r2 & Hw2 & Hwr2 & Hall2 & Ht2 & Htc2 & Hhas2).
      rewrite entropy_advance, drawn_advance in Htc2, Hhas2.
      exists (c1 ++ c2), (synthesized (message_blocks m) + d2)%nat, (r1 + r2)%nat.
      split; [now rewrite Hw2, advance_advance|].
      split; [now rewrite Hwr2, Hwr1, map_app, app_assoc|].
      split; [now apply Forall_app|].
      split; [|split].
      * rewrite omap_app, Ht1, Ht2. cbn [content_of textContent].
        now destruct (truthy _).
      * rewrite omap_app, Htc1, Htc2. cbn [fresh_batches]. cbv zeta.
        now destruct (List.filter _ _).
      * rewrite Hhas2, Hhas1.
        destruct (toolCalls _); [now rewrite orb_false_r|].
        now destruct (hasToolCalls st).
    + rewrite stream_message_reference, Ha. cbn [fst snd]. now apply IH.
Qed.

(** ** Tool calls not sent before *)

Lemma fresh_batches_not_earlier (contents : list ConvertedContent) :
  forall (e : list string) (batch : list OpenAIToolCall) (tc : OpenAIToolCall),
    batch ∈ fresh_batches e contents -> tc ∈ batch -> tc_id tc ∉ e.
Proof.
  induction contents as [|c contents IH]; intros e batch tc Hb Htc.
  - now apply elem_of_nil in Hb.
  - cbn [fresh_batches] in Hb. cbv zeta in Hb.
    destruct (List.filter _ (toolCalls c)) as [|n ns] eqn:Hnew; [now apply (IH e batch)|].
    apply elem_of_cons in Hb as [->|Hb].
    + rewrite <- Hnew in Htc. apply list_elem_of_In, filter_In in Htc as [_ Htc].
      apply negb_true_iff, bool_decide_eq_false in Htc. exact Htc.
    + apply (IH _ batch tc Hb) in Htc. rewrite elem_of_app in Htc. tauto.
Qed.

Lemma fresh_batches_nonempty (contents : list ConvertedContent) :
  forall e : list string, Forall (fun batch => batch <> []) (fresh_batches e contents).
Proof.
  induction contents as [|c contents IH]; intros e; [constructor|].
  cbn [fresh_batches]. cbv zeta.
  destruct (List.filter _ (toolCalls c)) as [|n ns]; [apply IH|].
  constructor; [discriminate | apply IH].
Qed.

Lemma fresh_batches_disjoint (contents : list ConvertedContent) :
  forall (e : list string) (i j : nat) (b1 b2 : list OpenAIToolCall)
         (tc1 tc2 : OpenAIToolCall),
    (i < j)%nat ->
    fresh_batches e contents !! i = Some b1 ->
    fresh_batches e contents !! j = Some b2 ->
    tc1 ∈ b1 -> tc2 ∈ b2 -> tc_id tc1 <> tc_id tc2.
Proof.
  induction contents as [|c contents IH]; intros e i j b1 b2 tc1 tc2 Hij H1 H2 Hin1 Hin2.
  - discriminate.
  - cbn [fresh_batches] in H1, H2. cbv zeta in H1, H2.
    destruct (List.filter _ (toolCalls c)) as [|n ns] eqn:Hnew;
      [now apply (IH e i j b1 b2)|].
    destruct j as [|j]; [lia|]. destruct i as [|i].
    + injection H1 as <-. cbn [lookup list_lookup] in H2.
      apply list_elem_of_lookup_2 in H2.
      apply (fresh_batches_not_earlier _ _ _ tc2 H2) in Hin2.
      intros Heq. apply Hin2. rewrite elem_of_app. left.
      rewrite <- Heq. apply list_elem_of_fmap. now exists tc1.
    + apply (IH (map tc_id (n :: ns) ++ e) i j b1 b2);
        [lia | exact H1 | exact H2 | exact Hin1 | exact Hin2].
Qed.

Lemma first_occurrences_fresh (a b : list OpenAIToolCall) (e : list string) :
  forall e' : list string,
    (forall i, i ∈ e -> i ∈ e') ->
    first_occurrences e'
      (List.filter (fun tc => negb (bool_decide (tc_id tc ∈ e))) a ++ b) =
    first_occurrences e' (a ++ b).
Proof.
  induction a as [|x a IH]; intros e' Hsub; [reflexivity|].
  cbn [List.filter app first_occurrences].
  destruct (bool_decide (tc_id x ∈ e)) eqn:Hx; cbn [negb].
  - apply bool_decide_eq_true in Hx.
    rewrite (bool_decide_eq_true_2 _ (Hsub _ Hx)). now apply IH.
  - cbn [app first_occurrences].
    destruct (bool_decide (tc_id x ∈ e')); [now apply IH|].
    f_equal. apply IH. intros i Hi. right. now apply Hsub.
Qed.

(** Dropping, from the tool calls sent, every later bearer of an id gives
    the first occurrences of the tool calls of the run. *)
Lemma fresh_batches_first_occurrences (contents : list ConvertedContent) :
  forall e : list string,
    first_occurrences e (concat (fresh_batches e contents)) =
    first_occurrences e (concat (map toolCalls contents)).
Proof.
  induction contents as [|c contents IH]; intros e; [reflexivity|].
  cbn [map concat fresh_batches]. cbv zeta.
  rewrite <- (first_occurrences_fresh (toolCalls c) _ e e) by tauto.
  destruct (List.filter _ (toolCalls c)) as [|n ns]; [apply IH|].
  cbn [concat].
  rewrite !(first_occurrences_app (n :: ns) _ e (map tc_id (n :: ns) ++ e)), IH;
    [reflexivity| |]; intros i; rewrite elem_of_app; tauto.
Qed.

(** ** The streaming handler, continued *)

(** What handleStreamingRequest writes: the role chunk, the chunks of the
    loop, and the final chunk or the error. *)
Lemma handleStreamingRequest_reference
    (query : AgentOptions -> AgentRun) (nte : bool) (res : Response)
    (p : ClaudePrompt) (rm sm : string) (w : World) :
  let run := query (agent_options nte p sm) in
  let cid := "chatcmpl-" +:+ entropy w (drawn w) in
  exists body created,
    written (fst (handleStreamingRequest query nte res p rm sm w)) =
      written res ++
      map chunk_frame (role_chunk cid (clock w (reads w) / 1000) rm :: body) ++
      match failure run with
      | None =>
          [chunk_frame
             (final_chunk cid created rm
                (reason_of (run_tool_calls (entropy w) (S (drawn w)) (yielded run))));
           done_frame]
      | Some error => [error_frame (error_message error "Stream error"); done_frame]
      end /\
    Forall (body_chunk cid rm) body /\
    omap chunk_text body = run_texts (yielded run) /\
    omap chunk_tool_calls body =
      fresh_batches [] (run_contents (entropy w) (S (drawn w)) (yielded run)).
Proof.
  intros run cid.
  cut (exists (r : Response) body created,
          fst (handleStreamingRequest query nte res p rm sm w) = r /\
          written r =
            written res ++
            map chunk_frame (role_chunk cid (clock w (reads w) / 1000) rm :: body) ++
            match failure run with
            | None =>
                [chunk_frame
                   (final_chunk cid created rm
                      (reason_of
                         (run_tool_calls (entropy w) (S (drawn w)) (yielded run))));
                 done_frame]
            | Some error => [error_frame (error_message error "Stream error"); done_frame]
            end /\
          Forall (body_chunk cid rm) body /\
          omap chunk_text body = run_texts (yielded run) /\
          omap chunk_tool_calls body =
            fresh_batches [] (run_contents (entropy w) (S (drawn w)) (yielded run))).
  { intros (r & body & created & -> & H). now exists body, created. }
  unfold handleStreamingRequest, bind.
  rewrite generateCompletionId_advance.
  unfold buildInitialChunk, bind. rewrite now_seconds_advance, advance_advance.
  cbn [Nat.add]. unfold ret. fold (agent_options nte p sm). fold run. fold cid.
  match goal with
  | |- context [stream_messages cid rm ?st (yielded run) ?w1] =>
      destruct (stream_messages_reference cid rm (yielded run) st w1 [])
        as (body & d & r & Hw & Hwr & Hall & Htexts & Hcalls & Hhas);
      [ intros i; cbn [sentToolCallIds]; rewrite elem_of_nil;
        split; [apply not_elem_of_empty | tauto]
      | destruct (stream_messages cid rm st (yielded run) w1) as [st' w'] ]
  end.
  rewrite entropy_advance, drawn_advance, Nat.add_1_r in Hcalls, Hhas.
  cbn [fst snd cur_res hasToolCalls] in Hw, Hwr, Hhas.
  rewrite written_sendChunk in Hwr.
  change (written (setupSSE res)) with (written res) in Hwr.
  rewrite clock_advance, reads_advance, Nat.add_0_r in Hwr.
  destruct (failure run) as [error|].
  - eexists _, body, 0. cbn [fst]. split; [reflexivity|].
    split; [|now repeat split].
    cbn [end_response written].
    rewrite written_sendDone, written_sendError, Hwr, <- !app_assoc. reflexivity.
  - unfold buildFinalChunk, bind. rewrite now_seconds_advance. unfold ret. cbn [fst].
    eexists _, body, _. split; [reflexivity|]. split; [|now repeat split].
    cbn [end_response written].
    rewrite written_sendDone, written_sendChunk, Hwr, <- !app_assoc.
    cbn [app map]. rewrite Hhas. unfold reason_of, final_chunk.
    destruct (run_tool_calls _ _ _); reflexivity.
Qed.

Lemma body_chunk_not_final (id model : string) (c : OpenAIChatCompletionChunk) :
  body_chunk id model c ->
  chunk_id c = id /\ chunk_model c = model /\ chunk_finish_reason c = None /\
  exists choice, chunk_choices c = [choice] /\ ck_index choice = 0.
Proof.
  intros [(created & text & _ & ->)|(created & tcs & _ & ->)];
    (repeat split; eexists; split; reflexivity).
Qed.

Lemma fresh_batches_nil_iff (contents : list ConvertedContent) :
  fresh_batches [] contents = [] <-> concat (map toolCalls contents) = [].
Proof.
  rewrite <- (first_occurrences_nil_iff (concat (map toolCalls contents))).
  rewrite <- fresh_batches_first_occurrences, first_occurrences_nil_iff.
  pose proof (fresh_batches_nonempty contents []) as Hne.
  destruct (fresh_batches [] contents) as [|b bs]; [tauto|].
  inversion Hne as [|? ? Hb _]; subst.
  split; [discriminate|]. destruct b; [congruence | discriminate].
Qed.

(** X23.  The shape of a stream.  Whatever the agent yields, the handler
    writes the role chunk, then content chunks, each with a non-empty text,
    and tool-call chunks, each with at least one tool call, then the final
    chunk when the agent ended or the error when it threw, then the
    terminator.  Every chunk bears the one completion id drawn for the
    request and the model name of the response, and has one choice, of
    index 0; none but the final chunk bears a finish_reason. *)
Theorem stream_is_role_chunk_then_body_then_final_chunk :
  forall (query : AgentOptions -> AgentRun) (nte : bool) (res : Response)
         (p : ClaudePrompt) (rm sm : string) (w : World),
    let run := query (agent_options nte p sm) in
    let cid := "chatcmpl-" +:+ entropy w (drawn w) in
    exists body created,
      written (fst (handleStreamingRequest query nte res p rm sm w)) =
        written res ++
        map chunk_frame (role_chunk cid (clock w (reads w) / 1000) rm :: body) ++
        match failure run with
        | None =>
            [chunk_frame
               (final_chunk cid created rm
                  (reason_of (run_tool_calls (entropy w) (S (drawn w)) (yielded run))));
             done_frame]
        | Some error => [error_frame (error_message error "Stream error"); done_frame]
        end /\
      Forall (body_chunk cid rm) body /\
      Forall (fun c => chunk_id c = cid /\ chunk_model c = rm /\
                       chunk_finish_reason c = None /\
                       exists choice, chunk_choices c = [choice] /\ ck_index choice = 0)
        (role_chunk cid (clock w (reads w) / 1000) rm :: body).
Proof.
  intros query nte res p rm sm w run cid.
  destruct (handleStreamingRequest_reference query nte res p rm sm w)
    as (body & created & Hw & Hall & _).
  exists body, created. split; [exact Hw|]. split; [exact Hall|].
  constructor.
  - repeat split. eexists. split; reflexivity.
  - eapply Forall_impl; [exact Hall|]. intros c. apply body_chunk_not_final.
Qed.

(** X24.  The texts streamed are the texts of the completion.  The texts
    in the deltas of the chunks written, in order, are the non-empty texts
    of the assistant messages the agent yielded, one chunk a text, whether
    the agent ends or throws; the content of the completion the
    non-streaming handler builds in the same circumstances is these texts
    joined with a blank line, and is absent when there is none. *)
Theorem streamed_texts_are_the_texts_of_the_completion :
  forall (query : AgentOptions -> AgentRun) (nte : bool) (res : Response)
         (p : ClaudePrompt) (rm sm : string) (w : World),
    let run := query (agent_options nte p sm) in
    exists chunks,
      written (fst (handleStreamingRequest query nte res p rm sm w)) =
        written res ++ map chunk_frame chunks ++
        match failure run with
        | None => [done_frame]
        | Some error => [error_frame (error_message error "Stream error"); done_frame]
        end /\
      omap chunk_text chunks = run_texts (yielded run) /\
      Forall (fun text => text <> EmptyString) (omap chunk_text chunks) /\
      match fst (handleNonStreamingRequest query nte p rm sm w) with
      | inr completion =>
          exists message reason,
            cc_choices completion = [mkChoice 0 message reason] /\
            rm_content message =
            match omap chunk_text chunks with
            | [] => None
            | texts => Some (join (LF +:+ LF) texts)
            end
      | inl error => failure run = Some error
      end.
Proof.
  intros query nte res p rm sm w run.
  destruct (handleStreamingRequest_reference query nte res p rm sm w)
    as (body & created & Hw & _ & Htexts & _).
  fold run in Hw, Htexts.
  set (cid := "chatcmpl-" +:+ entropy w (drawn w)) in *.
  set (role := role_chunk cid (clock w (reads w) / 1000) rm) in *.
  set (final := final_chunk cid created rm
                  (reason_of (run_tool_calls (entropy w) (S (drawn w)) (yielded run)))) in *.
  exists (role :: body ++ match failure run with None => [final] | Some _ => [] end).
  assert (Ht : omap chunk_text
                 (role :: body ++ match failure run with None => [final] | Some _ => [] end)
               = run_texts (yielded run)).
  { change (omap chunk_text (role :: ?l)) with (omap chunk_text l).
    rewrite omap_app, Htexts. destruct (failure run); apply app_nil_r. }
  split; [|split; [exact Ht | split]].
  - rewrite Hw. f_equal.
    destruct (failure run); rewrite !map_cons, !map_app; cbn [map app];
      rewrite ?app_nil_r, <- ?app_assoc; reflexivity.
  - rewrite Ht. eapply Forall_impl; [apply run_texts_truthy|].
    intros text H ->. discriminate.
  - rewrite Ht, handleNonStreamingRequest_reference. cbv zeta. fold run.
    destruct (failure run); [reflexivity|]. do 2 eexists. split; reflexivity.
Qed.

(** X25.  No tool call id is streamed in two chunks.  Reading off each
    chunk written the tool calls its deltas bear with id, name and
    arguments: a chunk that has tool_calls bears at least one; a tool call
    in a later chunk never bears the id of a tool call in an earlier chunk;
    and the tool calls streamed, with every later bearer of an id dropped,
    are the tool calls of the completion the non-streaming handler builds
    in the same circumstances. *)
Theorem no_tool_call_id_is_streamed_in_two_chunks :
  forall (query : AgentOptions -> AgentRun) (nte : bool) (res : Response)
         (p : ClaudePrompt) (rm sm : string) (w : World),
    let run := query (agent_options nte p sm) in
    exists chunks,
      written (fst (handleStreamingRequest query nte res p rm sm w)) =
        written res ++ map chunk_frame chunks ++
        match failure run with
        | None => [done_frame]
        | Some error => [error_frame (error_message error "Stream error"); done_frame]
        end /\
      Forall (fun batch => batch <> []) (omap chunk_tool_calls chunks) /\
      (forall (i j : nat) (b1 b2 : list OpenAIToolCall) (tc1 tc2 : OpenAIToolCall),
          (i < j)%nat ->
          omap chunk_tool_calls chunks !! i = Some b1 ->
          omap chunk_tool_calls chunks !! j = Some b2 ->
          tc1 ∈ b1 -> tc2 ∈ b2 -> tc_id tc1 <> tc_id tc2) /\
      match fst (handleNonStreamingRequest query nte p rm sm w) with
      | inr completion =>
          completion_tool_calls completion =
          first_occurrences [] (concat (omap chunk_tool_calls chunks))
      | inl error => failure run = Some error
      end.
Proof.
  intros query nte res p rm sm w run.
  destruct (handleStreamingRequest_reference query nte res p rm sm w)
    as (body & created & Hw & _ & _ & Hcalls).
  fold run in Hw, Hcalls.
  set (cid := "chatcmpl-" +:+ entropy w (drawn w)) in *.
  set (role := role_chunk cid (clock w (reads w) / 1000) rm) in *.
  set (final := final_chunk cid created rm
                  (reason_of (run_tool_calls (entropy w) (S (drawn w)) (yielded run)))) in *.
  exists (role :: body ++ match failure run with None => [final] | Some _ => [] end).
  assert (Hc : omap chunk_tool_calls
                 (role :: body ++ match failure run with None => [final] | Some _ => [] end)
               = fresh_batches [] (run_contents (entropy w) (S (drawn w)) (yielded run))).
  { change (omap chunk_tool_calls (role :: ?l)) with (omap chunk_tool_calls l).
    rewrite omap_app, Hcalls. destruct (failure run); apply app_nil_r. }
  split; [|rewrite Hc; split; [|split]].
  - rewrite Hw. f_equal.
    destruct (failure run); rewrite !map_cons, !map_app; cbn [map app];
      rewrite ?app_nil_r, <- ?app_assoc; reflexivity.
  - apply fresh_batches_nonempty.
  - apply fresh_batches_disjoint.
  - rewrite handleNonStreamingRequest_reference. cbv zeta. fold run.
    destruct (failure run); [reflexivity|].
    unfold completion_tool_calls. cbn [cc_choices choice_message rm_tool_calls].
    rewrite absent_when_empty, fresh_batches_first_occurrences. reflexivity.
Qed.

(** X26.  The two modes end alike.  When the agent ends, the finish_reason
    of the final chunk of the stream is the finish_reason of the completion
    the non-streaming handler builds in the same circumstances; it is
    tool_calls exactly when some chunk of the stream carried tool calls,
    and stop exactly when none did.  When the agent throws, the
    non-streaming handler throws the same error and the stream, which has
    no final chunk then, reports its message. *)
Theorem both_modes_finish_alike :
  forall (query : AgentOptions -> AgentRun) (nte : bool) (res : Response)
         (p : ClaudePrompt) (rm sm : string) (w : World),
    let run := query (agent_options nte p sm) in
    let cid := "chatcmpl-" +:+ entropy w (drawn w) in
    exists chunks,
      Forall (fun c => chunk_finish_reason c = None) chunks /\
      match failure run with
      | None =>
          exists created reason completion message,
            written (fst (handleStreamingRequest query nte res p rm sm w)) =
              written res ++ map chunk_frame chunks ++
              [chunk_frame (final_chunk cid created rm reason); done_frame] /\
            fst (handleNonStreamingRequest query nte p rm sm w) = inr completion /\
            cc_choices completion = [mkChoice 0 message (Some reason)] /\
            (reason = tool_calls_reason <-> omap chunk_tool_calls chunks <> []) /\
            (reason = stop <-> omap chunk_tool_calls chunks = [])
      | Some error =>
          written (fst (handleStreamingRequest query nte res p rm sm w)) =
            written res ++ map chunk_frame chunks ++
            [error_frame (error_message error "Stream error"); done_frame] /\
          fst (handleNonStreamingRequest query nte p rm sm w) = inl error
      end.
Proof.
  intros query nte res p rm sm w run cid.
  destruct (handleStreamingRequest_reference query nte res p rm sm w)
    as (body & created & Hw & Hall & _ & Hcalls).
  fold run in Hw, Hcalls. fold cid in Hw, Hall.
  set (role := role_chunk cid (clock w (reads w) / 1000) rm) in *.
  exists (role :: body). split.
  { constructor; [reflexivity|]. eapply Forall_impl; [exact Hall|].
    intros c Hc. now apply body_chunk_not_final in Hc. }
  assert (Hsome : omap chunk_tool_calls (role :: body) = [] <->
                  run_tool_calls (entropy w) (S (drawn w)) (yielded run) = []).
  { change (omap chunk_tool_calls (role :: body)) with (omap chunk_tool_calls body).
    rewrite Hcalls. apply fresh_batches_nil_iff. }
  pose proof (handleNonStreamingRequest_reference query nte p rm sm w) as Hnon.
  cbv zeta in Hnon. fold run in Hnon.
  pose proof (first_occurrences_nil_iff
                (run_tool_calls (entropy w) (S (drawn w)) (yielded run))) as Hnil.
  revert Hw Hnon.
  destruct (failure run) as [error|]; intros Hw Hnon; [now split|].
  destruct (run_tool_calls (entropy w) (S (drawn w)) (yielded run)) as [|tc tcs].
  - exists created, stop. do 2 eexists.
    split; [exact Hw|]. split; [exact Hnon|]. split; [reflexivity|].
    split; split.
    + discriminate.
    + intros H. exfalso. now apply H, Hsome.
    + intros _. now apply Hsome.
    + reflexivity.
  - destruct (first_occurrences [] (tc :: tcs)) as [|x xs].
    + destruct Hnil as [Hnil _]. specialize (Hnil eq_refl). discriminate.
    + exists created, tool_calls_reason. do 2 eexists.
      split; [exact Hw|]. split; [exact Hnon|]. split; [reflexivity|].
      split; split.
      * intros _ H. apply Hsome in H. discriminate.
      * reflexivity.
      * discriminate.
      * intros H. apply Hsome in H. discriminate.
Qed.

(** ** The framing of server-sent events *)

Lemma has_char_append (c : ascii) (a b : string) :
  has_char c (a +:+ b) = has_char c a || has_char c b.
Proof.
  induction a as [|x a IH]; [now rewrite append_nil_l|].
  rewrite append_cons. cbn [has_char]. now rewrite IH, orb_assoc.
Qed.

Lemma pretty_N_char_no_line_feed (x : N) :
  Ascii.eqb (pretty_N_char x) line_feed = false.
Proof. unfold pretty_N_char. now repeat case_match. Qed.

Lemma pretty_N_go_no_line_feed (x : N) :
  forall s : string,
    has_char line_feed s = false -> has_char line_feed (pretty_N_go x s) = false.
Proof.
  induction (N.lt_wf_0 x) as [x _ IH]. intros s Hs.
  destruct (decide (x = 0%N)) as [->|Hx]; [now rewrite pretty_N_go_0|].
  rewrite pretty_N_go_step by lia. apply IH.
  - apply N.div_lt; lia.
  - cbn [has_char]. now rewrite pretty_N_char_no_line_feed, Hs.
Qed.

Lemma pretty_N_no_line_feed (x : N) : has_char line_feed (pretty x) = false.
Proof.
  unfold pretty, pretty_N. case_decide; [reflexivity|].
  now apply pretty_N_go_no_line_feed.
Qed.

Lemma pretty_Z_no_line_feed (n : Z) : has_char line_feed (pretty n) = false.
Proof.
  destruct n as [|q|q]; [reflexivity | apply pretty_N_no_line_feed |].
  change (pretty (Z.neg q)) with ("-" +:+ pretty (N.pos q)).
  rewrite has_char_append, pretty_N_no_line_feed. reflexivity.
Qed.

Lemma escape_char_no_line_feed (c : ascii) :
  has_char line_feed (escape_char c) = false.
Proof. destruct c as [[] [] [] [] [] [] [] []]; reflexivity. Qed.

Lemma escape_no_line_feed (s : string) : has_char line_feed (escape s) = false.
Proof.
  induction s as [|c s IH]; [reflexivity|].
  cbn [escape]. now rewrite has_char_append, escape_char_no_line_feed, IH.
Qed.

Lemma quote_no_line_feed (s : string) : has_char line_feed (quote s) = false.
Proof.
  unfold quote. now rewrite !has_char_append, escape_no_line_feed.
Qed.

Lemma join_no_char (c : ascii) (sep : string) (parts : list string) :
  has_char c sep = false ->
  Forall (fun part => has_char c part = false) parts ->
  has_char c (join sep parts) = false.
Proof.
  intros Hsep. induction parts as [|x [|y rest] IH]; intros Hall.
  - reflexivity.
  - now inversion Hall.
  - inversion Hall as [|? ? Hx Hrest]; subst.
    rewrite join_cons, !has_char_append, Hx, Hsep. now apply IH.
Qed.

(** JSON.stringify writes no line feed: in a string it is escaped. *)
Lemma JSON_stringify_no_line_feed :
  forall v : json, has_char line_feed (JSON_stringify v) = false.
Proof.
  fix IH 1. intros [|[]|n|s|items|fields]; try reflexivity.
  - apply pretty_Z_no_line_feed.
  - apply quote_no_line_feed.
  - cbn [JSON_stringify]. rewrite !has_char_append.
    rewrite join_no_char; [reflexivity | reflexivity |].
    revert items. fix IHitems 1. intros [|x xs]; [constructor|].
    cbn [map]. constructor; [apply IH | apply IHitems].
  - cbn [JSON_stringify]. rewrite !has_char_append.
    rewrite join_no_char; [reflexivity | reflexivity |].
    revert fields. fix IHfields 1. intros [|[k x] xs]; [constructor|].
    cbn [map]. constructor; [|apply IHfields].
    cbn [fst snd]. now rewrite !has_char_append, quote_no_line_feed, IH.
Qed.

(** X27.  Every frame is one event.  Whatever the agent yields or throws,
    and whatever line feeds its texts, tool arguments or error message
    hold, everything the streaming handler writes is a sequence of frames
    made of data, a colon, a space, a payload and a blank line, no payload
    holds a line feed, and the last payload is the terminator. *)
Theorem every_frame_written_is_one_event :
  forall (query : AgentOptions -> AgentRun) (nte : bool) (res : Response)
         (p : ClaudePrompt) (rm sm : string) (w : World),
    exists payloads,
      written (fst (handleStreamingRequest query nte res p rm sm w)) =
        written res ++ map event payloads /\
      Forall (fun payload => has_char line_feed payload = false) payloads /\
      last payloads = Some "[DONE]".
Proof.
  intros query nte res p rm sm w.
  destruct (handleStreamingRequest_reference query nte res p rm sm w)
    as (body & created & Hw & _).
  set (run := query (agent_options nte p sm)) in *.
  set (cid := "chatcmpl-" +:+ entropy w (drawn w)) in *.
  set (chunks := role_chunk cid (clock w (reads w) / 1000) rm :: body) in *.
  set (final := final_chunk cid created rm
                  (reason_of (run_tool_calls (entropy w) (S (drawn w)) (yielded run)))) in *.
  exists (map (fun c => JSON_stringify (chunk_json c)) chunks ++
          [match failure run with
           | None => JSON_stringify (chunk_json final)
           | Some error =>
               JSON_stringify
                 (JObj [("error", JObj [("message", JStr (error_message error "Stream error"));
                                        ("type", JStr "internal_error");
                                        ("param", JNull);
                                        ("code", JStr "stream_error")])])
           end; "[DONE]"]).
  split; [|split].
  - rewrite Hw, map_app, map_map. do 2 f_equal. now destruct (failure run).
  - apply Forall_app. split.
    + apply Forall_forall. intros payload Hin.
      apply list_elem_of_fmap in Hin as (c & -> & _). apply JSON_stringify_no_line_feed.
    + constructor; [|now repeat constructor].
      destruct (failure run); apply JSON_stringify_no_line_feed.
  - match goal with
    | |- last (?l ++ [?x; ?d]) = _ => change (l ++ [x; d]) with (l ++ [x] ++ [d])
    end.
    rewrite app_assoc. apply last_snoc.
Qed.
